(** * SIPPhone: a shallow embedding of the SIP user agent and its RTP engine

    The development follows the layout of the repository:
    - [Codec]  : lib/audio-codec.js, the G.711 mu-law and A-law conversions;
    - [Rtp]    : lib/rtp-engine.js, the RTP sender and receiver;
    - [Framer] : SipUA._handleTcpData, framing of SIP over TCP and TLS;
    - [Digest] : computeDigestResponse and buildAuthorizationHeader;
    - [Sip]    : the SipUA transaction code for REGISTER and INVITE.

    JavaScript numbers are modelled by [Z]; the 32-bit conversions done by
    the bit operators are written out ([toInt32]).  Buffers are lists of
    bytes (values 0..255 in [Z]), strings are [string] or, where the code
    indexes UTF-16 code units, lists of code units. *)

From Stdlib Require Import ZArith List Lia Bool Sorting.Sorted.
From stdpp Require Import gmap strings pretty.
Import ListNotations.

(** ** Shared arithmetic helpers *)

Local Open Scope Z_scope.

(** ECMAScript ToInt32: the operand conversion of [>>], [&], [|], [~]. *)
Definition toInt32 (x : Z) : Z := (x + 2 ^ 31) mod 2 ^ 32 - 2 ^ 31.

(** [all_from p lo n]: [p] holds on the [n] integers starting at [lo]. *)
Fixpoint all_from (p : Z -> bool) (lo : Z) (n : nat) : bool :=
  match n with
  | O => true
  | S k => p lo && all_from p (lo + 1) k
  end.

(** The bytes of an ASCII literal. *)
Fixpoint bytesOf (s : string) : list Z :=
  match s with
  | EmptyString => []
  | String c s' => Z.of_N (Ascii.N_of_ascii c) :: bytesOf s'
  end.

Lemma all_from_spec (p : Z -> bool) (n : nat) :
  forall lo, all_from p lo n = true ->
  forall x, lo <= x < lo + Z.of_nat n -> p x = true.
Proof.
  induction n as [|k IH]; intros lo H x Hx.
  - simpl in Hx. lia.
  - simpl in H. apply andb_prop in H as [H0 H1].
    destruct (Z.eq_dec x lo) as [->|Hne]; [exact H0|].
    apply (IH (lo + 1) H1). lia.
Qed.

Lemma toInt32_small (x : Z) : - 2 ^ 31 <= x < 2 ^ 31 -> toInt32 x = x.
Proof.
  intros H. unfold toInt32. rewrite Z.mod_small; lia.
Qed.

Lemma toInt32_range (x : Z) : - 2 ^ 31 <= toInt32 x < 2 ^ 31.
Proof.
  unfold toInt32.
  pose proof (Z.mod_pos_bound (x + 2 ^ 31) (2 ^ 32) ltac:(lia)). lia.
Qed.

Lemma toInt32_mod (x : Z) : toInt32 x mod 2 ^ 32 = x mod 2 ^ 32.
Proof.
  unfold toInt32.
  rewrite Zminus_mod_idemp_l. f_equal. lia.
Qed.

(** ** lib/audio-codec.js *)

Module Codec.

Definition MULAW_BIAS : Z := 0x84.
Definition MULAW_CLIP : Z := 32635.

Definition mulawEncodeTable : list Z :=
  [0;0;1;1;2;2;2;2;3;3;3;3;3;3;3;3]
  ++ repeat 4 16 ++ repeat 5 32 ++ repeat 6 64 ++ repeat 7 128.

(** [pcmToMulaw(sample)]; the argument is a 16-bit sample, so the operands
    of [>>] are already 32-bit integers. *)
Definition pcmToMulaw (sample : Z) : Z :=
  let sign := Z.land (Z.shiftr sample 8) 0x80 in
  let sample := if sign =? 0 then sample else - sample in
  let sample := if sample >? MULAW_CLIP then MULAW_CLIP else sample in
  let sample := sample + MULAW_BIAS in
  let exponent :=
    nth (Z.to_nat (Z.land (Z.shiftr sample 7) 0xFF)) mulawEncodeTable 0 in
  let mantissa := Z.land (Z.shiftr sample (exponent + 3)) 0x0F in
  let mulawByte := Z.lnot (Z.lor (Z.lor sign (Z.shiftl exponent 4)) mantissa) in
  Z.land mulawByte 0xFF.

(** [mulawToPcm(mulawByte)]; JavaScript's [-0] is the integer 0. *)
Definition mulawToPcm (mulawByte : Z) : Z :=
  let mulawByte := Z.land (Z.lnot mulawByte) 0xFF in
  let sign := Z.land mulawByte 0x80 in
  let exponent := Z.land (Z.shiftr mulawByte 4) 0x07 in
  let mantissa := Z.land mulawByte 0x0F in
  let sample := Z.shiftl (Z.shiftl mantissa 3 + MULAW_BIAS) exponent in
  let sample := sample - MULAW_BIAS in
  if sign =? 0 then sample else - sample.

(** [pcmToAlaw(sample)]; [Math.floor(Math.log2(sample))] is [Z.log2] on the
    positive integers below 2^15. *)
Definition pcmToAlaw (sample : Z) : Z :=
  let '(sign, sample) :=
    if sample <? 0 then (0x80, - sample) else (0, sample) in
  let sample := if sample >? 32767 then 32767 else sample in
  let companded :=
    if sample >=? 256 then
      let exponent := Z.log2 sample - 4 in
      let exponent := if exponent >? 7 then 7 else exponent in
      let mantissa := Z.land (Z.shiftr sample (exponent + 3)) 0x0F in
      Z.lor (Z.shiftl exponent 4) mantissa
    else Z.shiftr sample 4 in
  Z.lxor (Z.lor companded sign) 0x55.

Definition alawToPcm (alawByte : Z) : Z :=
  let alawByte := Z.lxor alawByte 0x55 in
  let sign := Z.land alawByte 0x80 in
  let exponent := Z.land (Z.shiftr alawByte 4) 0x07 in
  let mantissa := Z.land alawByte 0x0F in
  let sample :=
    if exponent =? 0 then Z.shiftl mantissa 4 + 8
    else Z.shiftl (Z.shiftl mantissa 3 + 0x84) exponent in
  if sign =? 0 then sample else - sample.

(** The argument of the buffer encoders: an [Int16Array], used as it is, or
    a [Buffer], viewed as little-endian 16-bit samples. *)
Inductive PcmBuf :=
| Int16Samples (samples : list Z)
| ByteBuffer (bytes : list Z).

Definition toInt16 (x : Z) : Z := (x + 32768) mod 65536 - 32768.

(** [new Int16Array(buf.buffer, buf.byteOffset, buf.byteLength / 2)]: the
    length is truncated to an integer, a trailing odd byte is not read. *)
Fixpoint int16View (bytes : list Z) : list Z :=
  match bytes with
  | lo :: hi :: rest => toInt16 (lo + 256 * hi) :: int16View rest
  | _ => []
  end.

Definition samplesOf (pcmBuf : PcmBuf) : list Z :=
  match pcmBuf with
  | Int16Samples s => s
  | ByteBuffer b => int16View b
  end.

(** Storing into a [Buffer] keeps the low 8 bits. *)
Definition storeByte (v : Z) : Z := v mod 256.

Definition encodeMulaw (pcmBuf : PcmBuf) : list Z :=
  map (fun s => storeByte (pcmToMulaw s)) (samplesOf pcmBuf).

Definition encodeAlaw (pcmBuf : PcmBuf) : list Z :=
  map (fun s => storeByte (pcmToAlaw s)) (samplesOf pcmBuf).

(** [writeInt16LE(sample, off)] for a sample in the 16-bit range. *)
Definition int16LE (sample : Z) : list Z :=
  [sample mod 256; (sample / 256) mod 256].

Definition decodeMulaw (mulawBuf : list Z) : list Z :=
  flat_map (fun b => int16LE (mulawToPcm b)) mulawBuf.

Definition decodeAlaw (alawBuf : list Z) : list Z :=
  flat_map (fun b => int16LE (alawToPcm b)) alawBuf.

(** The silence bytes that [RtpEngine._sendPacket] pads with. *)
Definition MULAW_SILENCE : Z := 0xFF.
Definition ALAW_SILENCE : Z := 0xD5.

(** The 16-bit samples. *)
Definition int16 (x : Z) : Prop := -32768 <= x <= 32767.

Definition mulaw_refix (x : Z) : bool :=
  pcmToMulaw (mulawToPcm (pcmToMulaw x)) =? pcmToMulaw x.

Definition alaw_refix (x : Z) : bool :=
  pcmToAlaw (alawToPcm (pcmToAlaw x)) =? pcmToAlaw x.

Lemma int16View_zeros (n : nat) :
  int16View (repeat 0 (2 * n)) = repeat 0 n.
Proof.
  rewrite Nat.mul_comm.
  induction n as [|n IH]; [reflexivity|].
  cbn [Nat.mul Nat.add repeat int16View]. rewrite IH. reflexivity.
Qed.

Lemma map_repeat_const {A B : Type} (f : A -> B) (a : A) (n : nat) :
  map f (repeat a n) = repeat (f a) n.
Proof. induction n as [|n IH]; simpl; [reflexivity | now rewrite IH]. Qed.

(** mu-law half of C1: silence encodes to 0xFF, sample by sample and for a
    whole buffer of zero samples, given as bytes or as an [Int16Array]. *)
Lemma mulaw_silence :
  pcmToMulaw 0 = MULAW_SILENCE /\
  forall n : nat,
    encodeMulaw (ByteBuffer (repeat 0 (2 * n))) = repeat MULAW_SILENCE n /\
    encodeMulaw (Int16Samples (repeat 0 n)) = repeat MULAW_SILENCE n.
Proof.
  split; [reflexivity|].
  intros n. unfold encodeMulaw, samplesOf.
  rewrite int16View_zeros, map_repeat_const. split; reflexivity.
Qed.

(** C1 (A-law half, evaluated on the code): [pcmToAlaw 0] is 0x55, not the
    0xD5 that [_sendPacket] pads with, and the buffer encoder gives 0x55
    for every zero sample. *)
Theorem alaw_silence_is_0x55 :
  pcmToAlaw 0 = 0x55 /\
  pcmToAlaw 0 <> ALAW_SILENCE /\
  forall n : nat,
    encodeAlaw (ByteBuffer (repeat 0 (2 * n))) = repeat 0x55 n /\
    encodeAlaw (Int16Samples (repeat 0 n)) = repeat 0x55 n.
Proof.
  split; [reflexivity|]. split; [discriminate|].
  intros n. unfold encodeAlaw, samplesOf.
  rewrite int16View_zeros, map_repeat_const. split; reflexivity.
Qed.

(** C5 as stated fails: the mu-law code of -1 is the negative zero 0x7F,
    which decodes to 0 and re-encodes to 0xFF; the A-law code of 256
    decodes to 2368, which re-encodes to another byte. *)
Lemma reencode_not_fixed :
  pcmToMulaw (mulawToPcm (pcmToMulaw (-1))) <> pcmToMulaw (-1) /\
  pcmToAlaw (alawToPcm (pcmToAlaw 256)) <> pcmToAlaw 256.
Proof. split; vm_compute; discriminate. Qed.

Lemma mulaw_refix_all :
  all_from (fun x => (-4 <? x) && (x <? 0) || mulaw_refix x)
           (-32768) (Z.to_nat 65536) = true.
Proof. vm_compute. reflexivity. Qed.

Lemma alaw_refix_all :
  all_from (fun x => (255 <? Z.abs x) && (Z.abs x <? 2048) || alaw_refix x)
           (-32768) (Z.to_nat 65536) = true.
Proof. vm_compute. reflexivity. Qed.

(** C5, amended: on the 16-bit samples, re-encoding is a fixed point of the
    mu-law pair except at -3, -2, -1 (the negative-zero code), and of the
    A-law pair for magnitudes below 256 and from 2048 on. *)
Theorem reencode_fixed_point (x : Z) :
  int16 x ->
  (~ (-3 <= x <= -1) ->
     pcmToMulaw (mulawToPcm (pcmToMulaw x)) = pcmToMulaw x) /\
  (Z.abs x < 256 \/ 2048 <= Z.abs x ->
     pcmToAlaw (alawToPcm (pcmToAlaw x)) = pcmToAlaw x).
Proof.
  intros Hx. unfold int16 in Hx. split.
  - intros Hn.
    pose proof (all_from_spec _ _ _ mulaw_refix_all x ltac:(lia)) as H.
    cbv beta in H. apply orb_prop in H as [H|H].
    + apply andb_prop in H as [H1 H2]. lia.
    + unfold mulaw_refix in H. lia.
  - intros Hn.
    pose proof (all_from_spec _ _ _ alaw_refix_all x ltac:(lia)) as H.
    cbv beta in H. apply orb_prop in H as [H|H].
    + apply andb_prop in H as [H1 H2]. lia.
    + unfold alaw_refix in H. lia.
Qed.

Lemma reencode_fixed_point_witness :
  pcmToMulaw (mulawToPcm (pcmToMulaw 1000)) = pcmToMulaw 1000 /\
  pcmToAlaw (alawToPcm (pcmToAlaw 4000)) = pcmToAlaw 4000.
Proof.
  destruct (reencode_fixed_point 4000 ltac:(unfold int16; lia)) as [_ Ha].
  destruct (reencode_fixed_point 1000 ltac:(unfold int16; lia)) as [Hm _].
  split; [apply Hm; lia | apply Ha; lia].
Defined.

(** *** Range, accuracy and transcoding *)

Definition byte (b : Z) : Prop := 0 <= b <= 255.

(** A sample written by [writeInt16LE] is read back through an
    [Int16Array] as it is. *)
Definition storedSample (s : Z) : bool :=
  match int16LE s with
  | [lo; hi] => toInt16 (lo + 256 * hi) =? s
  | _ => false
  end.

(** The segment of an A-law code: its exponent field. *)
Definition alawSegment (b : Z) : Z :=
  Z.land (Z.shiftr (Z.lxor b 0x55) 4) 0x07.

Definition mulaw_code_ok (b : Z) : bool :=
  (-32768 <=? mulawToPcm b) && (mulawToPcm b <=? 32767)
  && storedSample (mulawToPcm b)
  && (storeByte (pcmToMulaw (mulawToPcm b)) =? (if b =? 0x7F then 0xFF else b)).

Definition alaw_code_ok (b : Z) : bool :=
  (-32768 <=? alawToPcm b) && (alawToPcm b <=? 32767)
  && storedSample (alawToPcm b)
  && Bool.eqb (pcmToAlaw (alawToPcm b) =? b)
              ((alawSegment b =? 0) || (alawSegment b =? 7)).

Definition encoders_ok (x : Z) : bool :=
  (0 <=? pcmToMulaw x) && (pcmToMulaw x <=? 255)
  && (0 <=? pcmToAlaw x) && (pcmToAlaw x <=? 255).

Definition mulaw_error_ok (x : Z) : bool :=
  let y := mulawToPcm (pcmToMulaw x) in
  (Z.abs (y - x) <=? 644)
  && ((32635 <? Z.abs x) || (32 * Z.abs (y - x) <=? Z.abs x + 132))
  && (0 <=? x * y)
  && ((x =? 32767) || (y <=? mulawToPcm (pcmToMulaw (x + 1)))).

Definition alaw_error_ok (x : Z) : bool :=
  let y := alawToPcm (pcmToAlaw x) in
  (255 <? Z.abs x) || (Z.abs (y - x) <=? 8) && Bool.eqb (y <? 0) (x <? 0).

Lemma mulaw_codes_all : all_from mulaw_code_ok 0 256 = true.
Proof. vm_compute. reflexivity. Qed.

Lemma alaw_codes_all : all_from alaw_code_ok 0 256 = true.
Proof. vm_compute. reflexivity. Qed.

Lemma encoders_all : all_from encoders_ok (-32768) (Z.to_nat 65536) = true.
Proof. vm_compute. reflexivity. Qed.

Lemma mulaw_error_all :
  all_from mulaw_error_ok (-32768) (Z.to_nat 65536) = true.
Proof. vm_compute. reflexivity. Qed.

Lemma alaw_error_all :
  all_from alaw_error_ok (-32768) (Z.to_nat 65536) = true.
Proof. vm_compute. reflexivity. Qed.

Lemma mulaw_code_spec (b : Z) : byte b -> mulaw_code_ok b = true.
Proof.
  intros Hb. apply (all_from_spec _ _ _ mulaw_codes_all). unfold byte in Hb. lia.
Qed.

Lemma alaw_code_spec (b : Z) : byte b -> alaw_code_ok b = true.
Proof.
  intros Hb. apply (all_from_spec _ _ _ alaw_codes_all). unfold byte in Hb. lia.
Qed.

Lemma mulaw_error_spec (x : Z) : int16 x -> mulaw_error_ok x = true.
Proof.
  intros Hx. apply (all_from_spec _ _ _ mulaw_error_all). unfold int16 in Hx. lia.
Qed.

(** X1: on the 16-bit samples both encoders return a byte, and on the bytes
    both decoders return a 16-bit sample, so that [writeInt16LE] in
    [decodeMulaw] and [decodeAlaw] never raises. *)
Theorem conversions_in_range :
  (forall x, int16 x -> byte (pcmToMulaw x) /\ byte (pcmToAlaw x)) /\
  (forall b, byte b -> int16 (mulawToPcm b) /\ int16 (alawToPcm b)).
Proof.
  split.
  - intros x Hx.
    pose proof (all_from_spec _ _ _ encoders_all x
                  ltac:(unfold int16 in Hx; lia)) as H.
    unfold encoders_ok in H. unfold byte. lia.
  - intros b Hb.
    pose proof (mulaw_code_spec b Hb) as Hm.
    pose proof (alaw_code_spec b Hb) as Ha.
    unfold mulaw_code_ok in Hm. unfold alaw_code_ok in Ha.
    apply andb_prop in Hm as [Hm _]. apply andb_prop in Hm as [Hm _].
    apply andb_prop in Ha as [Ha _]. apply andb_prop in Ha as [Ha _].
    unfold int16. lia.
Qed.

Lemma conversions_in_range_witness :
  (byte (pcmToMulaw 1000) /\ byte (pcmToAlaw 1000)) /\
  (int16 (mulawToPcm 0x80) /\ int16 (alawToPcm 0x2A)).
Proof.
  destruct conversions_in_range as [Henc Hdec].
  split.
  - apply Henc. unfold int16. lia.
  - split.
    + apply (Hdec 0x80). unfold byte. lia.
    + apply (Hdec 0x2A). unfold byte. lia.
Defined.

(** X2: the mu-law pair is accurate.  Decoding the code of a 16-bit sample
    gives a sample of the same sign that is off by at most 644, and, below
    the clipping level 32635, by at most 1/32 of the biased magnitude. *)
Theorem mulaw_quantization_error (x : Z) :
  int16 x ->
  let y := mulawToPcm (pcmToMulaw x) in
  Z.abs (y - x) <= 644 /\
  (Z.abs x <= 32635 -> 32 * Z.abs (y - x) <= Z.abs x + MULAW_BIAS) /\
  0 <= x * y.
Proof.
  intros Hx y. pose proof (mulaw_error_spec x Hx) as H.
  unfold mulaw_error_ok in H. fold y in H.
  apply andb_prop in H as [H _]. apply andb_prop in H as [H H3].
  apply andb_prop in H as [H1 H2].
  unfold MULAW_BIAS. repeat split; [lia | | lia].
  intros Hc. apply orb_prop in H2 as [H2|H2]; lia.
Qed.

Lemma mulaw_quantization_error_witness :
  let y := mulawToPcm (pcmToMulaw 1000) in
  Z.abs (y - 1000) <= 644 /\
  (Z.abs 1000 <= 32635 -> 32 * Z.abs (y - 1000) <= Z.abs 1000 + MULAW_BIAS) /\
  0 <= 1000 * y.
Proof.
  apply (mulaw_quantization_error 1000). unfold int16. lia.
Defined.

(** X3: encoding and decoding keeps the order of the samples: a louder
    sample never comes out quieter. *)
Theorem mulaw_round_trip_monotone (x y : Z) :
  int16 x -> int16 y -> x <= y ->
  mulawToPcm (pcmToMulaw x) <= mulawToPcm (pcmToMulaw y).
Proof.
  intros Hx Hy Hle.
  assert (Hn : forall n : nat, int16 (x + Z.of_nat n) ->
            mulawToPcm (pcmToMulaw x) <= mulawToPcm (pcmToMulaw (x + Z.of_nat n))).
  { induction n as [|n IH]; intros Hr.
    - rewrite Z.add_0_r. lia.
    - assert (Hp : int16 (x + Z.of_nat n)) by (unfold int16 in *; lia).
      specialize (IH Hp).
      pose proof (mulaw_error_spec _ Hp) as H. unfold mulaw_error_ok in H.
      apply andb_prop in H as [_ H].
      replace (x + Z.of_nat (S n)) with (x + Z.of_nat n + 1) by lia.
      apply orb_prop in H as [H|H]; [unfold int16 in Hr; lia | lia]. }
  specialize (Hn (Z.to_nat (y - x))).
  replace (x + Z.of_nat (Z.to_nat (y - x))) with y in Hn by lia.
  exact (Hn Hy).
Qed.

Lemma mulaw_round_trip_monotone_witness :
  mulawToPcm (pcmToMulaw (-200)) <= mulawToPcm (pcmToMulaw 3000).
Proof.
  apply mulaw_round_trip_monotone; unfold int16; lia.
Defined.

(** X4: the A-law pair is accurate on the small samples only: below 256
    the decoded sample is within 8 of the input and has its sign. *)
Theorem alaw_small_signal (x : Z) :
  Z.abs x <= 255 ->
  Z.abs (alawToPcm (pcmToAlaw x) - x) <= 8 /\
  (alawToPcm (pcmToAlaw x) < 0 <-> x < 0).
Proof.
  intros Hx.
  pose proof (all_from_spec _ _ _ alaw_error_all x ltac:(lia)) as H.
  unfold alaw_error_ok in H.
  apply orb_prop in H as [H|H]; [lia|].
  apply andb_prop in H as [H1 H2]. apply Bool.eqb_prop in H2.
  split; [lia|].
  rewrite <- !Z.ltb_lt. rewrite H2. reflexivity.
Qed.

Lemma alaw_small_signal_witness :
  Z.abs (alawToPcm (pcmToAlaw (-100)) - (-100)) <= 8 /\
  (alawToPcm (pcmToAlaw (-100)) < 0 <-> -100 < 0).
Proof. apply alaw_small_signal. lia. Defined.

Lemma int16View_decode (f : Z -> Z) (buf : list Z) :
  Forall (fun b => storedSample (f b) = true) buf ->
  int16View (flat_map (fun b => int16LE (f b)) buf) = map f buf.
Proof.
  induction 1 as [|b buf Hb _ IH]; [reflexivity|].
  cbn [flat_map map]. unfold storedSample in Hb.
  unfold int16LE in *. cbn [app int16View]. rewrite IH.
  f_equal. lia.
Qed.

(** X5: a buffer decoded from mu-law holds, read as 16-bit samples, the
    decoded codes, and encoding it again gives the codes back, but for the
    negative zero 0x7F, which comes back as 0xFF. *)
Theorem mulaw_transcoding (buf : list Z) :
  Forall byte buf ->
  int16View (decodeMulaw buf) = map mulawToPcm buf /\
  encodeMulaw (ByteBuffer (decodeMulaw buf))
    = map (fun b => if b =? 0x7F then 0xFF else b) buf.
Proof.
  intros Hbuf.
  assert (Hview : int16View (decodeMulaw buf) = map mulawToPcm buf).
  { apply int16View_decode. eapply Forall_impl; [exact Hbuf|].
    intros b Hb. pose proof (mulaw_code_spec b Hb) as H.
    unfold mulaw_code_ok in H.
    apply andb_prop in H as [H _]. apply andb_prop in H as [_ H]. exact H. }
  split; [exact Hview|].
  unfold encodeMulaw, samplesOf. rewrite Hview, map_map. clear Hview.
  induction Hbuf as [|b buf Hb _ IH]; [reflexivity|].
  cbn [map]. rewrite IH. f_equal.
  pose proof (mulaw_code_spec b Hb) as H. unfold mulaw_code_ok in H.
  apply andb_prop in H as [_ H]. lia.
Qed.

Lemma mulaw_transcoding_witness :
  int16View (decodeMulaw [0xFF; 0x7F; 0x00; 0x80])
    = map mulawToPcm [0xFF; 0x7F; 0x00; 0x80] /\
  encodeMulaw (ByteBuffer (decodeMulaw [0xFF; 0x7F; 0x00; 0x80]))
    = map (fun b => if b =? 0x7F then 0xFF else b) [0xFF; 0x7F; 0x00; 0x80].
Proof.
  apply mulaw_transcoding.
  repeat constructor; unfold byte; lia.
Defined.

(** X6: a buffer decoded from A-law holds the decoded codes, but encoding
    a decoded code gives it back only in the segments 0 and 7: the codes
    of the six segments between come back changed. *)
Theorem alaw_transcoding (buf : list Z) :
  Forall byte buf ->
  int16View (decodeAlaw buf) = map alawToPcm buf /\
  forall b, In b buf ->
    (pcmToAlaw (alawToPcm b) = b <-> alawSegment b = 0 \/ alawSegment b = 7).
Proof.
  intros Hbuf. split.
  - apply int16View_decode. eapply Forall_impl; [exact Hbuf|].
    intros b Hb. pose proof (alaw_code_spec b Hb) as H.
    unfold alaw_code_ok in H.
    apply andb_prop in H as [H _]. apply andb_prop in H as [_ H]. exact H.
  - intros b Hin. rewrite Forall_forall in Hbuf.
    pose proof (alaw_code_spec b (Hbuf b ltac:(apply list_elem_of_In; exact Hin))) as H.
    unfold alaw_code_ok in H. apply andb_prop in H as [_ H].
    apply Bool.eqb_prop in H.
    rewrite <- Z.eqb_eq, H, orb_true_iff, !Z.eqb_eq. reflexivity.
Qed.

Lemma alaw_transcoding_witness :
  int16View (decodeAlaw [0x55; 0xD5; 0x2A]) = map alawToPcm [0x55; 0xD5; 0x2A] /\
  forall b, In b [0x55; 0xD5; 0x2A] ->
    (pcmToAlaw (alawToPcm b) = b <-> alawSegment b = 0 \/ alawSegment b = 7).
Proof.
  apply alaw_transcoding.
  repeat constructor; unfold byte; lia.
Defined.

End Codec.

(** ** lib/rtp-engine.js *)

Module Rtp.

Definition RTP_HEADER_SIZE : Z := 12.
Definition SAMPLE_RATE : Z := 8000.
Definition PTIME : Z := 20.
Definition SAMPLES_PER_PACKET : Z := (SAMPLE_RATE * PTIME) / 1000.

(** The fields of the class.  [socket] and [sendInterval] record whether
    the handle is non-null; [remoteAddress] is [None] for null or
    undefined; [remotePort] is [None] for null or NaN. *)
Record RtpEngine := mkRtpEngine {
  socket : bool;
  localPort : Z;
  remoteAddress : option string;
  remotePort : option Z;
  ssrc : Z;
  sequenceNumber : Z;
  timestamp : Z;
  payloadType : Z;
  sendInterval : bool;
  active : bool;
  muted : bool;
  micBuffer : list Codec.PcmBuf;
}.

(** What a method does to the outside: events of the emitter, datagrams
    handed to the socket, and an exception escaping a timer callback. *)
Inductive Effect :=
| Log (text : string)
| Audio (pcm : list Z)
| Datagram (port : option Z) (address : string) (packet : list Z)
| Uncaught.

(** Template rendering of the values that appear in log lines. *)
Definition tplStr (o : option string) : string :=
  match o with Some s => s | None => "undefined" end.
Definition tplNum (o : option Z) : string :=
  match o with Some n => pretty n | None => "NaN" end.

(** [constructor()]: the three arguments stand for
    [Math.floor(Math.random() * 0xFFFFFFFF)], [Math.floor(Math.random() *
    0xFFFF)] and [Math.floor(Math.random() * 0xFFFFFFFF)]. *)
Definition constructor (ssrc0 seq0 ts0 : Z) : RtpEngine :=
  {| socket := false; localPort := 0;
     remoteAddress := None; remotePort := None;
     ssrc := ssrc0; sequenceNumber := seq0; timestamp := ts0;
     payloadType := 0; sendInterval := false;
     active := false; muted := false; micBuffer := [] |}.

(** The values the constructor can draw. *)
Definition fresh (ssrc0 seq0 ts0 : Z) : Prop :=
  0 <= ssrc0 < 0xFFFFFFFF /\ 0 <= seq0 < 0xFFFF /\ 0 <= ts0 < 0xFFFFFFFF.

(** [bind()], resolved with the port the system assigned. *)
Definition bind (e : RtpEngine) (port : Z) : RtpEngine * list Effect :=
  ({| socket := true; localPort := port;
      remoteAddress := remoteAddress e; remotePort := remotePort e;
      ssrc := ssrc e; sequenceNumber := sequenceNumber e;
      timestamp := timestamp e; payloadType := payloadType e;
      sendInterval := sendInterval e; active := active e;
      muted := muted e; micBuffer := micBuffer e |},
   [Log ("RTP socket bound on port " +:+ pretty port)]).

Definition start (e : RtpEngine) (addr : option string) (port : option Z)
    (pt : Z) : RtpEngine * list Effect :=
  ({| socket := socket e; localPort := localPort e;
      remoteAddress := addr; remotePort := port;
      ssrc := ssrc e; sequenceNumber := sequenceNumber e;
      timestamp := timestamp e; payloadType := pt;
      sendInterval := true; active := true;
      muted := muted e; micBuffer := micBuffer e |},
   [Log ("RTP streaming to " +:+ tplStr addr +:+ ":" +:+ tplNum port
         +:+ " (PT=" +:+ pretty pt +:+ ")")]).

Definition stop (e : RtpEngine) : RtpEngine :=
  {| socket := socket e; localPort := localPort e;
     remoteAddress := remoteAddress e; remotePort := remotePort e;
     ssrc := ssrc e; sequenceNumber := sequenceNumber e;
     timestamp := timestamp e; payloadType := payloadType e;
     sendInterval := false; active := false;
     muted := muted e; micBuffer := [] |}.

Definition close (e : RtpEngine) : RtpEngine :=
  let e := stop e in
  {| socket := false; localPort := localPort e;
     remoteAddress := remoteAddress e; remotePort := remotePort e;
     ssrc := ssrc e; sequenceNumber := sequenceNumber e;
     timestamp := timestamp e; payloadType := payloadType e;
     sendInterval := sendInterval e; active := active e;
     muted := muted e; micBuffer := micBuffer e |}.

Definition setMicBuffer (e : RtpEngine) (q : list Codec.PcmBuf) : RtpEngine :=
  {| socket := socket e; localPort := localPort e;
     remoteAddress := remoteAddress e; remotePort := remotePort e;
     ssrc := ssrc e; sequenceNumber := sequenceNumber e;
     timestamp := timestamp e; payloadType := payloadType e;
     sendInterval := sendInterval e; active := active e;
     muted := muted e; micBuffer := q |}.

Definition feedMicAudio (e : RtpEngine) (pcmData : Codec.PcmBuf) : RtpEngine :=
  if negb (active e) || muted e then e
  else setMicBuffer e (micBuffer e ++ [pcmData]).

Definition setMuted (e : RtpEngine) (m : bool) : RtpEngine :=
  {| socket := socket e; localPort := localPort e;
     remoteAddress := remoteAddress e; remotePort := remotePort e;
     ssrc := ssrc e; sequenceNumber := sequenceNumber e;
     timestamp := timestamp e; payloadType := payloadType e;
     sendInterval := sendInterval e; active := active e;
     muted := m; micBuffer := if m then [] else micBuffer e |}.

Definition setRemote (e : RtpEngine) (addr : option string) (port : option Z)
    : RtpEngine :=
  {| socket := socket e; localPort := localPort e;
     remoteAddress := addr; remotePort := port;
     ssrc := ssrc e; sequenceNumber := sequenceNumber e;
     timestamp := timestamp e; payloadType := payloadType e;
     sendInterval := sendInterval e; active := active e;
     muted := muted e; micBuffer := micBuffer e |}.

Definition updateRemote (e : RtpEngine) (address : string) (port : Z)
    : RtpEngine * list Effect :=
  (setRemote e (Some address) (Some port),
   [Log ("RTP remote updated to " +:+ address +:+ ":" +:+ pretty port)]).

(** JavaScript truthiness of [this.remoteAddress]. *)
Definition truthy (o : option string) : bool :=
  match o with
  | None => false
  | Some s => negb (String.eqb s "")
  end.

(** [header.writeUInt16BE(v, off)] and [header.writeUInt32BE(v, off)]: the
    bytes written, or [None] when Node raises ERR_OUT_OF_RANGE. *)
Definition writeUInt16BE (v : Z) : option (list Z) :=
  if (0 <=? v) && (v <=? 0xFFFF) then Some [v / 256; v mod 256] else None.

Definition writeUInt32BE (v : Z) : option (list Z) :=
  if (0 <=? v) && (v <=? 0xFFFFFFFF)
  then Some [v / 2 ^ 24; (v / 2 ^ 16) mod 256; (v / 2 ^ 8) mod 256; v mod 256]
  else None.

(** [_buildRtpPacket(payload)]; [None] when one of the writes throws. *)
Definition _buildRtpPacket (e : RtpEngine) (payload : list Z)
    : option (list Z) :=
  match writeUInt16BE (sequenceNumber e),
        writeUInt32BE (timestamp e),
        writeUInt32BE (ssrc e) with
  | Some sq, Some ts, Some ss =>
      Some ([0x80; Z.land (toInt32 (payloadType e)) 0x7F]
            ++ sq ++ ts ++ ss ++ payload)
  | _, _, _ => None
  end.

(** [socket.send] checks the port before it sends, and raises
    ERR_SOCKET_BAD_PORT unless it is an integer from 1 to 65535. *)
Definition validPort (port : option Z) : bool :=
  match port with
  | Some p => (0 <? p) && (p <? 65536)
  | None => false
  end.

Definition silencePayload (e : RtpEngine) : list Z :=
  repeat (if payloadType e =? 8 then Codec.ALAW_SILENCE
          else Codec.MULAW_SILENCE) (Z.to_nat SAMPLES_PER_PACKET).

(** [_sendPacket()], the body of the 20 ms interval.  An exception leaves
    the counters as they are; a block taken from the queue is lost. *)
Definition _sendPacket (e : RtpEngine) : RtpEngine * list Effect :=
  if negb (active e) || negb (socket e) || negb (truthy (remoteAddress e))
  then (e, [])
  else
    let '(e1, payload) :=
      match muted e, micBuffer e with
      | false, pcmData :: rest =>
          (setMicBuffer e rest,
           if payloadType e =? 8 then Codec.encodeAlaw pcmData
           else Codec.encodeMulaw pcmData)
      | _, _ => (e, silencePayload e)
      end in
    match _buildRtpPacket e1 payload with
    | None => (e1, [Uncaught])
    | Some packet =>
        if negb (validPort (remotePort e1)) then (e1, [Uncaught])
        else
        ({| socket := socket e1; localPort := localPort e1;
            remoteAddress := remoteAddress e1; remotePort := remotePort e1;
            ssrc := ssrc e1;
            sequenceNumber := Z.land (toInt32 (sequenceNumber e1 + 1)) 0xFFFF;
            timestamp := toInt32 (timestamp e1 + SAMPLES_PER_PACKET);
            payloadType := payloadType e1;
            sendInterval := sendInterval e1; active := active e1;
            muted := muted e1; micBuffer := micBuffer e1 |},
         [Datagram (remotePort e1) (tplStr (remoteAddress e1)) packet])
    end.

Definition learnedLog (address : string) (port : Z) : Effect :=
  Log ("RTP symmetric: learned remote " +:+ address +:+ ":" +:+ pretty port).

(** The checks at the head of [_handleIncoming]: at least a header, version
    2, a payload. *)
Definition validRtp (msg : list Z) : bool :=
  negb (Z.of_nat (length msg) <? RTP_HEADER_SIZE)
  && (Z.land (Z.shiftr (nth 0 msg 0) 6) 0x03 =? 2)
  && negb (Nat.eqb (length (skipn (Z.to_nat RTP_HEADER_SIZE) msg)) 0).

Definition unsetRemote (e : RtpEngine) : bool :=
  negb (truthy (remoteAddress e))
  || match remoteAddress e with
     | Some a => String.eqb a "0.0.0.0"
     | None => false
     end.

(** [_handleIncoming(msg, rinfo)]. *)
Definition _handleIncoming (e : RtpEngine) (msg : list Z)
    (address : string) (port : Z) : RtpEngine * list Effect :=
  if Z.of_nat (length msg) <? RTP_HEADER_SIZE then (e, [])
  else
    let version := Z.land (Z.shiftr (nth 0 msg 0) 6) 0x03 in
    if negb (version =? 2) then (e, [])
    else
      let pt := Z.land (nth 1 msg 0) 0x7F in
      let payload := skipn (Z.to_nat RTP_HEADER_SIZE) msg in
      if Nat.eqb (length payload) 0 then (e, [])
      else
        let '(e1, learned) :=
          if unsetRemote e
          then (setRemote e (Some address) (Some port),
                [learnedLog address port])
          else (e, []) in
        if pt =? 0 then (e1, learned ++ [Audio (Codec.decodeMulaw payload)])
        else if pt =? 8 then (e1, learned ++ [Audio (Codec.decodeAlaw payload)])
        else (e1, learned).

(** The calls made on an engine, and their effect in sequence.  [Tick] is
    the interval armed by [start] and cleared by [stop]. *)
Inductive Call :=
| Bind (port : Z)
| Start (addr : option string) (port : option Z) (pt : Z)
| Stop
| Close
| FeedMicAudio (pcmData : Codec.PcmBuf)
| SetMuted (m : bool)
| UpdateRemote (address : string) (port : Z)
| Tick
| Incoming (msg : list Z) (address : string) (port : Z).

Definition step (e : RtpEngine) (c : Call) : RtpEngine * list Effect :=
  match c with
  | Bind p => bind e p
  | Start a p pt => start e a p pt
  | Stop => (stop e, [])
  | Close => (close e, [])
  | FeedMicAudio pcm => (feedMicAudio e pcm, [])
  | SetMuted m => (setMuted e m, [])
  | UpdateRemote a p => updateRemote e a p
  | Tick => if sendInterval e then _sendPacket e else (e, [])
  | Incoming msg a p => _handleIncoming e msg a p
  end.

Fixpoint run (e : RtpEngine) (cs : list Call) : RtpEngine * list Effect :=
  match cs with
  | [] => (e, [])
  | c :: cs' =>
      let '(e1, out1) := step e c in
      let '(e2, out2) := run e1 cs' in
      (e2, out1 ++ out2)
  end.

(** The packets handed to the socket, in order. *)
Fixpoint packetsOf (out : list Effect) : list (list Z) :=
  match out with
  | [] => []
  | Datagram _ _ p :: out' => p :: packetsOf out'
  | _ :: out' => packetsOf out'
  end.

(** The destinations of the packets handed to the socket, in order. *)
Fixpoint targetsOf (out : list Effect) : list (string * option Z) :=
  match out with
  | [] => []
  | Datagram port a _ :: out' => (a, port) :: targetsOf out'
  | _ :: out' => targetsOf out'
  end.

(** Header fields of a packet, read back from its bytes. *)
Definition be16 (b : list Z) (off : nat) : Z :=
  nth off b 0 * 256 + nth (off + 1) b 0.
Definition be32 (b : list Z) (off : nat) : Z :=
  nth off b 0 * 2 ^ 24 + nth (off + 1) b 0 * 2 ^ 16
  + nth (off + 2) b 0 * 2 ^ 8 + nth (off + 3) b 0.
Definition pktSeq (p : list Z) : Z := be16 p 2.
Definition pktTimestamp (p : list Z) : Z := be32 p 4.
Definition pktSsrc (p : list Z) : Z := be32 p 8.

(** *** The microphone queue *)

Definition isFeed (c : Call) : bool :=
  match c with FeedMicAudio _ => true | _ => false end.

Definition isUnmute (c : Call) : bool :=
  match c with SetMuted false => true | _ => false end.

(** A trace with the [feedMicAudio] calls taken out. *)
Definition dropFeeds (cs : list Call) : list Call :=
  List.filter (fun c => negb (isFeed c)) cs.

(** Two engines that differ at most in their queue. *)
Definition sameButQueue (e1 e2 : RtpEngine) : Prop :=
  setMicBuffer e1 [] = setMicBuffer e2 [].

Lemma sameButQueue_refl (e : RtpEngine) : sameButQueue e e.
Proof. reflexivity. Qed.

Lemma sameButQueue_feed (e1 e2 : RtpEngine) (pcm : Codec.PcmBuf) :
  sameButQueue e1 e2 -> sameButQueue (feedMicAudio e1 pcm) e2.
Proof.
  unfold sameButQueue, feedMicAudio. intros H.
  destruct (negb (active e1) || muted e1); [exact H|].
  rewrite <- H. reflexivity.
Qed.

Lemma sameButQueue_sendPacket (e1 e2 : RtpEngine) :
  sameButQueue e1 e2 ->
  sameButQueue (fst (_sendPacket e1)) (fst (_sendPacket e2)).
Proof.
  unfold sameButQueue. intros H.
  destruct e1 as [so1 lp1 ra1 rp1 ss1 sq1 ts1 pt1 si1 ac1 mu1 q1].
  destruct e2 as [so2 lp2 ra2 rp2 ss2 sq2 ts2 pt2 si2 ac2 mu2 q2].
  unfold setMicBuffer in H. cbn in H. inversion H; subst.
  unfold _sendPacket, _buildRtpPacket. cbn.
  destruct (negb ac2 || negb so2 || negb (truthy ra2)); [reflexivity|].
  destruct mu2, q1, q2; cbn;
    destruct (writeUInt16BE sq2), (writeUInt32BE ts2), (writeUInt32BE ss2);
    cbn; try reflexivity;
    destruct (validPort rp2); reflexivity.
Qed.

Lemma sameButQueue_step (e1 e2 : RtpEngine) (c : Call) :
  isFeed c = false ->
  sameButQueue e1 e2 ->
  sameButQueue (fst (step e1 c)) (fst (step e2 c)).
Proof.
  intros Hc H. destruct c; try discriminate Hc; cbn [step fst].
  - unfold sameButQueue in *. unfold bind. cbn.
    unfold setMicBuffer in *. cbn in *. inversion H. reflexivity.
  - unfold sameButQueue in *. unfold start. cbn.
    unfold setMicBuffer in *. cbn in *. inversion H. reflexivity.
  - unfold sameButQueue in *. unfold stop.
    unfold setMicBuffer in *. cbn in *. inversion H. reflexivity.
  - unfold sameButQueue in *. unfold close, stop.
    unfold setMicBuffer in *. cbn in *. inversion H. reflexivity.
  - unfold sameButQueue in *. unfold setMuted.
    unfold setMicBuffer in *. cbn in *. inversion H. reflexivity.
  - unfold sameButQueue in *. unfold updateRemote, setRemote.
    unfold setMicBuffer in *. cbn in *. inversion H. reflexivity.
  - assert (Hs : sendInterval e1 = sendInterval e2).
    { exact (f_equal sendInterval H). }
    rewrite Hs. destruct (sendInterval e2); [|exact H].
    apply sameButQueue_sendPacket, H.
  - assert (Hu : unsetRemote e1 = unsetRemote e2).
    { pose proof (f_equal remoteAddress H) as Hra. cbn in Hra.
      unfold unsetRemote. rewrite Hra. reflexivity. }
    unfold _handleIncoming. rewrite Hu.
    destruct (Z.of_nat (length msg) <? RTP_HEADER_SIZE); [exact H|].
    destruct (negb _); [exact H|].
    destruct (Nat.eqb _ _); [exact H|].
    assert (Hr : sameButQueue (setRemote e1 (Some address) (Some port))
                              (setRemote e2 (Some address) (Some port))).
    { unfold sameButQueue, setRemote, setMicBuffer in *. cbn.
      inversion H. reflexivity. }
    destruct (unsetRemote e2); repeat destruct (_ =? _); cbn; assumption.
Qed.

Lemma run_app (e : RtpEngine) (cs ds : list Call) :
  run e (cs ++ ds) =
  (fst (run (fst (run e cs)) ds), snd (run e cs) ++ snd (run (fst (run e cs)) ds)).
Proof.
  revert e. induction cs as [|c cs IH]; intros e; cbn [run app].
  - cbn. destruct (run e ds); reflexivity.
  - destruct (step e c) as [e1 out1]. rewrite IH.
    destruct (run e1 cs) as [e2 out2]. cbn [fst snd].
    destruct (run e2 ds) as [e3 out3]. cbn [fst snd].
    rewrite <- app_assoc. reflexivity.
Qed.

Lemma run_dropFeeds (cs : list Call) :
  forall e1 e2, sameButQueue e1 e2 ->
  sameButQueue (fst (run e1 cs)) (fst (run e2 (dropFeeds cs))).
Proof.
  induction cs as [|c cs IH]; intros e1 e2 H; [exact H|].
  cbn [dropFeeds List.filter]. fold (dropFeeds cs).
  destruct (isFeed c) eqn:Hc; cbn [negb].
  - destruct c; try discriminate Hc. cbn [run step].
    destruct (run (feedMicAudio e1 pcmData) cs) as [e3 out3] eqn:Hr.
    cbn [fst]. change e3 with (fst (e3, out3)). rewrite <- Hr.
    apply IH, sameButQueue_feed, H.
  - cbn [run].
    pose proof (sameButQueue_step e1 e2 c Hc H) as Hs.
    destruct (step e1 c) as [a1 o1], (step e2 c) as [a2 o2]. cbn [fst] in Hs.
    specialize (IH a1 a2 Hs).
    destruct (run a1 cs), (run a2 (dropFeeds cs)). exact IH.
Qed.

Lemma step_keeps_muted (e : RtpEngine) (c : Call) :
  isUnmute c = false -> muted e = true ->
  muted (fst (step e c)) = true /\
  (micBuffer e = [] -> micBuffer (fst (step e c)) = []).
Proof.
  intros Hc Hm. destruct c; cbn [step fst]; cbn; auto.
  - unfold feedMicAudio. rewrite Hm, orb_true_r. auto.
  - destruct m; [cbn; auto | discriminate Hc].
  - destruct (sendInterval e); [|auto].
    unfold _sendPacket.
    destruct (negb (active e) || negb (socket e) || negb (truthy (remoteAddress e)));
      [auto|].
    rewrite Hm. destruct (_buildRtpPacket e (silencePayload e)); cbn; auto.
    destruct (validPort (remotePort e)); cbn; auto.
  - unfold _handleIncoming.
    destruct (Z.of_nat (length msg) <? RTP_HEADER_SIZE); [auto|].
    destruct (negb _); [auto|].
    destruct (Nat.eqb _ _); [auto|].
    destruct (unsetRemote e); repeat destruct (_ =? _); cbn; auto.
Qed.

Lemma run_muted_dropFeeds (cs : list Call) :
  forall e, forallb (fun c => negb (isUnmute c)) cs = true ->
  muted e = true ->
  fst (run e cs) = fst (run e (dropFeeds cs)) /\ muted (fst (run e cs)) = true.
Proof.
  induction cs as [|c cs IH]; intros e Hcs Hm; [split; [reflexivity | exact Hm]|].
  cbn [forallb] in Hcs. apply andb_prop in Hcs as [Hc Hcs].
  apply negb_true_iff in Hc.
  destruct (step_keeps_muted e c Hc Hm) as [Hm1 _].
  cbn [dropFeeds List.filter]. fold (dropFeeds cs).
  destruct (isFeed c) eqn:Hf; cbn [negb].
  - destruct c; try discriminate Hf. cbn [run step].
    assert (He : feedMicAudio e pcmData = e).
    { unfold feedMicAudio. rewrite Hm, orb_true_r. reflexivity. }
    rewrite He. destruct (IH e Hcs Hm) as [H1 H2].
    destruct (run e cs); cbn [fst] in *. auto.
  - cbn [run]. destruct (step e c) as [e1 o1]. cbn [fst] in Hm1.
    destruct (IH e1 Hcs Hm1) as [H1 H2].
    destruct (run e1 cs), (run e1 (dropFeeds cs)); cbn [fst] in *. auto.
Qed.

(** C10: [feedMicAudio] queues a block only on an active, unmuted engine
    and is otherwise the identity; [setMuted(true)] empties the queue; and
    the engine that comes out of a mute interval is the one obtained when
    no block had been fed before or during the interval, so nothing fed
    then can be sent later. *)
Theorem mic_queue_gating :
  (forall e pcm, active e = true -> muted e = false ->
     micBuffer (feedMicAudio e pcm) = micBuffer e ++ [pcm]) /\
  (forall e pcm, active e = false \/ muted e = true ->
     feedMicAudio e pcm = e) /\
  (forall e, micBuffer (setMuted e true) = []) /\
  (forall e before during,
     forallb (fun c => negb (isUnmute c)) during = true ->
     fst (run e (before ++ SetMuted true :: during ++ [SetMuted false])) =
     fst (run e (dropFeeds before ++ SetMuted true
                 :: dropFeeds during ++ [SetMuted false]))).
Proof.
  repeat split.
  - intros e pcm Ha Hm. unfold feedMicAudio. rewrite Ha, Hm. reflexivity.
  - intros e pcm [Ha|Hm]; unfold feedMicAudio.
    + rewrite Ha. reflexivity.
    + rewrite Hm, orb_true_r. reflexivity.
  - intros e before during Hd.
    rewrite !run_app. cbn [fst].
    pose proof (run_dropFeeds before e e (sameButQueue_refl e)) as Hq.
    set (a := fst (run e before)) in *.
    set (b := fst (run e (dropFeeds before))) in *.
    assert (Hab : setMuted a true = setMuted b true).
    { unfold sameButQueue, setMicBuffer in Hq. unfold setMuted.
      inversion Hq. reflexivity. }
    change (SetMuted true :: during ++ [SetMuted false])
      with ([SetMuted true] ++ during ++ [SetMuted false]).
    change (SetMuted true :: dropFeeds during ++ [SetMuted false])
      with ([SetMuted true] ++ dropFeeds during ++ [SetMuted false]).
    rewrite !run_app. cbn [fst run step]. rewrite Hab.
    destruct (run_muted_dropFeeds during (setMuted b true) Hd eq_refl) as [H1 _].
    rewrite H1. reflexivity.
Qed.

Definition engine0 : RtpEngine :=
  fst (start (fst (bind (constructor 7 100 5000) 40002))
             (Some "203.0.113.5") (Some 40000) 0).

Lemma mic_queue_gating_witness :
  micBuffer (feedMicAudio engine0 (Codec.Int16Samples [0; 1]))
    = micBuffer engine0 ++ [Codec.Int16Samples [0; 1]] /\
  feedMicAudio (setMuted engine0 true) (Codec.Int16Samples [0; 1])
    = setMuted engine0 true /\
  fst (run engine0 ([FeedMicAudio (Codec.Int16Samples [5])]
                    ++ SetMuted true
                    :: [FeedMicAudio (Codec.Int16Samples [6]); Tick]
                    ++ [SetMuted false])) =
  fst (run engine0 (dropFeeds [FeedMicAudio (Codec.Int16Samples [5])]
                    ++ SetMuted true
                    :: dropFeeds [FeedMicAudio (Codec.Int16Samples [6]); Tick]
                    ++ [SetMuted false])).
Proof.
  destruct mic_queue_gating as (Hfeed & Hdrop & _ & Hmute).
  split; [|split].
  - apply Hfeed; reflexivity.
  - apply Hdrop. right. reflexivity.
  - apply Hmute. reflexivity.
Defined.

(** *** Sequence number, timestamp and SSRC of the packets sent *)

(** What holds of the counters of every reachable engine. *)
Definition counters_ok (e : RtpEngine) : Prop :=
  0 <= ssrc e <= 0xFFFFFFFF /\
  0 <= sequenceNumber e <= 0xFFFF /\
  - 2 ^ 31 <= timestamp e <= 0xFFFFFFFF.

(** [linked s t ss ps]: the packets [ps] carry the SSRC [ss], and sequence
    numbers and timestamps that start at [s] and [t] (modulo 2^32) and
    advance by 1 and 160. *)
Fixpoint linked (s t ss : Z) (ps : list (list Z)) : Prop :=
  match ps with
  | [] => True
  | p :: ps' =>
      pktSeq p = s /\ pktTimestamp p = t mod 2 ^ 32 /\ pktSsrc p = ss /\
      linked ((s + 1) mod 2 ^ 16) (t + 160) ss ps'
  end.

(** [p] is directly followed by [q] in [l]. *)
Definition consecutive {A : Type} (l : list A) (p q : A) : Prop :=
  exists l1 l2, l = l1 ++ p :: q :: l2.

Lemma packetsOf_app (o1 o2 : list Effect) :
  packetsOf (o1 ++ o2) = packetsOf o1 ++ packetsOf o2.
Proof.
  induction o1 as [|x o1 IH]; [reflexivity|].
  destruct x; cbn; rewrite ?IH; reflexivity.
Qed.

Lemma linked_mod (ps : list (list Z)) :
  forall s t t' ss, t mod 2 ^ 32 = t' mod 2 ^ 32 ->
  linked s t ss ps -> linked s t' ss ps.
Proof.
  induction ps as [|p ps IH]; intros s t t' ss Ht H; [exact I|].
  cbn [linked] in *. destruct H as (H1 & H2 & H3 & H4).
  repeat split; [exact H1 | congruence | exact H3 |].
  apply (IH _ (t + 160)); [|exact H4].
  rewrite <- (Zplus_mod_idemp_l t), <- (Zplus_mod_idemp_l t'), Ht.
  reflexivity.
Qed.

Lemma linked_In (ps : list (list Z)) :
  forall s t ss p, linked s t ss ps -> In p ps -> pktSsrc p = ss.
Proof.
  induction ps as [|x ps IH]; intros s t ss p H Hin; [destruct Hin|].
  cbn [linked] in H. destruct H as (_ & _ & H3 & H4).
  destruct Hin as [->|Hin]; [exact H3|]. exact (IH _ _ _ _ H4 Hin).
Qed.

Lemma linked_consecutive (l1 : list (list Z)) :
  forall s t ss p q l2, linked s t ss (l1 ++ p :: q :: l2) ->
  pktSeq q = (pktSeq p + 1) mod 2 ^ 16 /\
  pktTimestamp q = (pktTimestamp p + 160) mod 2 ^ 32.
Proof.
  induction l1 as [|x l1 IH]; intros s t ss p q l2 H.
  - cbn [app linked] in H.
    destruct H as (Hs & Ht & _ & Hs' & Ht' & _).
    rewrite Hs, Ht, Hs', Ht'. split; [reflexivity|].
    rewrite Zplus_mod_idemp_l. reflexivity.
  - cbn [app linked] in H. destruct H as (_ & _ & _ & H).
    exact (IH _ _ _ _ _ _ H).
Qed.

Lemma be16_read (a b v : Z) (rest : list Z) :
  0 <= v <= 0xFFFF ->
  be16 (a :: b :: v / 256 :: v mod 256 :: rest) 2 = v.
Proof.
  intros Hv. unfold be16. cbn [nth Nat.add].
  pose proof (Z.div_mod v 256 ltac:(lia)). lia.
Qed.

Lemma be32_bytes (v : Z) :
  0 <= v <= 0xFFFFFFFF ->
  v / 2 ^ 24 * 2 ^ 24 + (v / 2 ^ 16) mod 256 * 2 ^ 16
  + (v / 2 ^ 8) mod 256 * 2 ^ 8 + v mod 256 = v.
Proof.
  intros Hv.
  change (2 ^ 24) with (2 ^ 16 * 256). change (2 ^ 16) with (2 ^ 8 * 256).
  change (2 ^ 8) with 256.
  rewrite <- !Z.div_div by lia.
  pose proof (Z.div_mod v 256 ltac:(lia)).
  pose proof (Z.div_mod (v / 256) 256 ltac:(lia)).
  pose proof (Z.div_mod (v / 256 / 256) 256 ltac:(lia)).
  lia.
Qed.

Lemma land_0xFFFF (x : Z) : Z.land x 0xFFFF = x mod 2 ^ 16.
Proof. change 0xFFFF with (Z.ones 16). apply Z.land_ones. lia. Qed.

(** One call: the counters stay in range and the SSRC is kept; either no
    packet is sent and the counters are as before, or one packet is sent
    that carries the counters, which then advance. *)
Lemma step_counters (e : RtpEngine) (c : Call) :
  counters_ok e ->
  counters_ok (fst (step e c)) /\
  ssrc (fst (step e c)) = ssrc e /\
  ((packetsOf (snd (step e c)) = [] /\
    sequenceNumber (fst (step e c)) = sequenceNumber e /\
    timestamp (fst (step e c)) = timestamp e) \/
   (exists p, packetsOf (snd (step e c)) = [p] /\
      pktSeq p = sequenceNumber e /\
      pktTimestamp p = timestamp e mod 2 ^ 32 /\
      pktSsrc p = ssrc e /\
      sequenceNumber (fst (step e c)) = (sequenceNumber e + 1) mod 2 ^ 16 /\
      timestamp (fst (step e c)) mod 2 ^ 32 = (timestamp e + 160) mod 2 ^ 32)).
Proof.
  intros Hok.
  assert (Hsame : forall o : RtpEngine * list Effect,
    packetsOf (snd o) = [] -> ssrc (fst o) = ssrc e ->
    sequenceNumber (fst o) = sequenceNumber e ->
    timestamp (fst o) = timestamp e ->
    counters_ok (fst o) /\ ssrc (fst o) = ssrc e /\
    ((packetsOf (snd o) = [] /\
      sequenceNumber (fst o) = sequenceNumber e /\
      timestamp (fst o) = timestamp e) \/
     (exists p, packetsOf (snd o) = [p] /\
        pktSeq p = sequenceNumber e /\
        pktTimestamp p = timestamp e mod 2 ^ 32 /\
        pktSsrc p = ssrc e /\
        sequenceNumber (fst o) = (sequenceNumber e + 1) mod 2 ^ 16 /\
        timestamp (fst o) mod 2 ^ 32 = (timestamp e + 160) mod 2 ^ 32))).
  { intros o Hp Hss Hsq Hts. split; [|split; [exact Hss | left; auto]].
    unfold counters_ok. rewrite Hss, Hsq, Hts. exact Hok. }
  destruct c; cbn [step]; try (apply Hsame; reflexivity).
  - unfold feedMicAudio.
    destruct (negb (active e) || muted e); apply Hsame; reflexivity.
  - destruct (sendInterval e); [|apply Hsame; reflexivity].
    unfold _sendPacket.
    destruct (negb (active e) || negb (socket e)
              || negb (truthy (remoteAddress e))); [apply Hsame; reflexivity|].
    set (ep := match muted e, micBuffer e with
               | false, pcmData :: rest =>
                   (setMicBuffer e rest,
                    if payloadType e =? 8 then Codec.encodeAlaw pcmData
                    else Codec.encodeMulaw pcmData)
               | _, _ => (e, silencePayload e)
               end).
    assert (Hep : ssrc (fst ep) = ssrc e /\
                  sequenceNumber (fst ep) = sequenceNumber e /\
                  timestamp (fst ep) = timestamp e).
    { subst ep. destruct (muted e), (micBuffer e); cbn; auto. }
    destruct ep as [e1 payload]. cbn [fst] in Hep.
    destruct Hep as (Hss & Hsq & Hts).
    unfold _buildRtpPacket, writeUInt16BE, writeUInt32BE.
    rewrite Hss, Hsq, Hts.
    destruct Hok as (Hk1 & Hk2 & Hk3).
    destruct ((0 <=? sequenceNumber e) && (sequenceNumber e <=? 0xFFFF)) eqn:Eq;
      [|apply Hsame; cbn; auto].
    destruct ((0 <=? timestamp e) && (timestamp e <=? 0xFFFFFFFF)) eqn:Et;
      [|apply Hsame; cbn; auto].
    destruct ((0 <=? ssrc e) && (ssrc e <=? 0xFFFFFFFF)) eqn:Es;
      [|apply Hsame; cbn; auto].
    apply andb_prop in Et as [Et0 Et1]. apply Z.leb_le in Et0, Et1.
    destruct (validPort (remotePort e1)); cbn [negb];
      [|apply Hsame; cbn; auto].
    cbn [fst snd packetsOf app ssrc sequenceNumber timestamp].
    assert (Hsq' : Z.land (toInt32 (sequenceNumber e + 1)) 0xFFFF
                   = (sequenceNumber e + 1) mod 2 ^ 16).
    { rewrite toInt32_small by lia. apply land_0xFFFF. }
    split; [|split; [reflexivity|right]].
    + unfold counters_ok. cbn [ssrc sequenceNumber timestamp].
      rewrite Hsq'.
      pose proof (Z.mod_pos_bound (sequenceNumber e + 1) (2 ^ 16) ltac:(lia)).
      pose proof (toInt32_range (timestamp e + SAMPLES_PER_PACKET)).
      repeat split; lia.
    + eexists. split; [reflexivity|].
      split; [apply be16_read; lia|].
      split; [rewrite (Z.mod_small (timestamp e) (2 ^ 32)) by lia;
              unfold pktTimestamp, be32; cbn [nth Nat.add];
              apply be32_bytes; lia|].
      split; [unfold pktSsrc, be32; cbn [nth Nat.add]; apply be32_bytes; lia|].
      split; [exact Hsq'|].
      apply toInt32_mod.
  - unfold _handleIncoming.
    destruct (Z.of_nat (length msg) <? RTP_HEADER_SIZE); [apply Hsame; reflexivity|].
    destruct (negb _); [apply Hsame; reflexivity|].
    destruct (Nat.eqb _ _); [apply Hsame; reflexivity|].
    destruct (unsetRemote e); repeat destruct (_ =? _);
      apply Hsame; reflexivity.
Qed.

Lemma run_linked (cs : list Call) :
  forall e, counters_ok e ->
  linked (sequenceNumber e) (timestamp e) (ssrc e)
         (packetsOf (snd (run e cs))).
Proof.
  induction cs as [|c cs IH]; intros e Hok; [exact I|].
  cbn [run].
  destruct (step_counters e c Hok) as (Hok1 & Hss & Hcase).
  destruct (step e c) as [e1 o1]. cbn [fst snd] in *.
  specialize (IH e1 Hok1).
  destruct (run e1 cs) as [e2 o2]. cbn [snd] in *.
  rewrite packetsOf_app.
  destruct Hcase as [(Hp & Hsq & Hts) | (p & Hp & H1 & H2 & H3 & Hsq & Hts)];
    rewrite Hp; cbn [app].
  - rewrite <- Hsq, <- Hts, <- Hss. exact IH.
  - cbn [linked]. repeat split; try assumption.
    rewrite <- Hsq, <- Hss.
    apply (linked_mod _ _ (timestamp e1)); [exact Hts | exact IH].
Qed.

(** C6: in any run of an engine, every packet sent carries the SSRC chosen
    at construction, and each packet sent follows its predecessor with the
    sequence number advanced by 1 modulo 2^16 and the timestamp by 160
    modulo 2^32, whether it carries microphone audio or silence. *)
Theorem sent_packets_advance (ssrc0 seq0 ts0 : Z) (cs : list Call) :
  fresh ssrc0 seq0 ts0 ->
  let sent := packetsOf (snd (run (constructor ssrc0 seq0 ts0) cs)) in
  (forall p, In p sent -> pktSsrc p = ssrc0) /\
  (forall p q, consecutive sent p q ->
     pktSeq q = (pktSeq p + 1) mod 2 ^ 16 /\
     pktTimestamp q = (pktTimestamp p + 160) mod 2 ^ 32).
Proof.
  intros (H1 & H2 & H3) sent.
  assert (Hl : linked seq0 ts0 ssrc0 sent).
  { apply (run_linked cs (constructor ssrc0 seq0 ts0)).
    unfold counters_ok. cbn. lia. }
  split.
  - intros p Hin. exact (linked_In _ _ _ _ _ Hl Hin).
  - intros p q (l1 & l2 & Heq). rewrite Heq in Hl.
    exact (linked_consecutive _ _ _ _ _ _ _ Hl).
Qed.

Definition trace0 : list Call :=
  [Bind 40002; Start (Some "203.0.113.5") (Some 40000) 0;
   Tick; FeedMicAudio (Codec.Int16Samples [0; 1000; -1000]); Tick; Tick].

Lemma sent_packets_advance_witness :
  let sent := packetsOf (snd (run (constructor 7 65534 5000) trace0)) in
  (map pktSeq sent = [65534; 65535; 0] /\
   map pktTimestamp sent = [5000; 5160; 5320]) /\
  (forall p, In p sent -> pktSsrc p = 7) /\
  (forall p q, consecutive sent p q ->
     pktSeq q = (pktSeq p + 1) mod 2 ^ 16 /\
     pktTimestamp q = (pktTimestamp p + 160) mod 2 ^ 32).
Proof.
  cbv zeta. split.
  - split; vm_compute; reflexivity.
  - apply (sent_packets_advance 7 65534 5000 trace0). unfold fresh. lia.
Defined.

(** The run of [trace0] does send: three packets, the sequence number
    wrapping from 65535 to 0. *)
Example trace0_sequence :
  map pktSeq (packetsOf (snd (run (constructor 7 65534 5000) trace0)))
  = [65534; 65535; 0].
Proof. vm_compute. reflexivity. Qed.

(** A tick of a started engine with a bound socket, a target and a
    timestamp that is not negative does send a packet. *)
Lemma tick_sends (e : RtpEngine) :
  counters_ok e -> 0 <= timestamp e ->
  active e = true -> socket e = true -> truthy (remoteAddress e) = true ->
  validPort (remotePort e) = true ->
  exists p, packetsOf (snd (_sendPacket e)) = [p].
Proof.
  intros (Hk1 & Hk2 & Hk3) Ht Ha Hs Hr Hp.
  unfold _sendPacket. rewrite Ha, Hs, Hr. cbn [negb orb].
  set (ep := match muted e, micBuffer e with
             | false, pcmData :: rest =>
                 (setMicBuffer e rest,
                  if payloadType e =? 8 then Codec.encodeAlaw pcmData
                  else Codec.encodeMulaw pcmData)
             | _, _ => (e, silencePayload e)
             end).
  assert (Hep : ssrc (fst ep) = ssrc e /\
                sequenceNumber (fst ep) = sequenceNumber e /\
                timestamp (fst ep) = timestamp e /\
                remotePort (fst ep) = remotePort e).
  { subst ep. destruct (muted e), (micBuffer e); cbn; auto. }
  destruct ep as [e1 payload]. cbn [fst] in Hep.
  destruct Hep as (Hss & Hsq & Hts & Hrp).
  unfold _buildRtpPacket, writeUInt16BE, writeUInt32BE.
  rewrite Hss, Hsq, Hts, Hrp, Hp.
  replace ((0 <=? sequenceNumber e) && (sequenceNumber e <=? 0xFFFF))
    with true by (symmetry; apply andb_true_intro; split; apply Z.leb_le; lia).
  replace ((0 <=? timestamp e) && (timestamp e <=? 0xFFFFFFFF))
    with true by (symmetry; apply andb_true_intro; split; apply Z.leb_le; lia).
  replace ((0 <=? ssrc e) && (ssrc e <=? 0xFFFFFFFF))
    with true by (symmetry; apply andb_true_intro; split; apply Z.leb_le; lia).
  eexists. reflexivity.
Qed.

(** The masking [& 0xFFFFFFFF] yields a signed 32-bit value: once the
    timestamp passes 2^31, [writeUInt32BE] raises and the interval sends
    nothing more. *)
Example timestamp_past_2_31 :
  snd (run (constructor 7 100 (2 ^ 31 - 100))
           [Bind 40002; Start (Some "203.0.113.5") (Some 40000) 0;
            Tick; Tick; Tick])
  = [Log "RTP socket bound on port 40002";
     Log "RTP streaming to 203.0.113.5:40000 (PT=0)";
     Datagram (Some 40000) "203.0.113.5"
       ([0x80; 0; 0; 100; 0x7F; 0xFF; 0xFF; 0x9C; 0; 0; 0; 7]
        ++ repeat 0xFF 160);
     Uncaught; Uncaught].
Proof. vm_compute. reflexivity. Qed.

(** *** Symmetric RTP *)

(** The engine adopts [(address, port)] on receiving [msg] from there: the
    learned endpoint is logged and becomes the target. *)
Definition retargets (e : RtpEngine) (msg : list Z) (address : string)
    (port : Z) : Prop :=
  In (learnedLog address port) (snd (_handleIncoming e msg address port)) /\
  remoteAddress (fst (_handleIncoming e msg address port)) = Some address /\
  remotePort (fst (_handleIncoming e msg address port)) = Some port.

(** A minimal RTP packet: version 2, payload type 0, one byte of payload. *)
Definition rtpPacket0 : list Z :=
  [0x80; 0; 0; 1; 0; 0; 0; 160; 0; 0; 0; 9; 0xFF].

Definition retarget (c : Call) : bool :=
  match c with Start _ _ _ | UpdateRemote _ _ => true | _ => false end.

Lemma unsetRemote_spec (e : RtpEngine) :
  unsetRemote e = true <->
  remoteAddress e = None \/ remoteAddress e = Some "" \/
  remoteAddress e = Some "0.0.0.0".
Proof.
  unfold unsetRemote, truthy. destruct (remoteAddress e) as [a|].
  - rewrite negb_involutive. rewrite orb_true_iff, !String.eqb_eq.
    split.
    + intros [->| ->]; auto.
    + intros [H|[H|H]]; [discriminate | left | right]; congruence.
  - cbn. split; auto.
Qed.

Lemma handleIncoming_valid (e : RtpEngine) (msg : list Z) (address : string)
    (port : Z) :
  validRtp msg = true ->
  exists audio,
    targetsOf audio = [] /\
    ~ In (learnedLog address port) audio /\
    _handleIncoming e msg address port =
    if unsetRemote e
    then (setRemote e (Some address) (Some port),
          learnedLog address port :: audio)
    else (e, audio).
Proof.
  unfold validRtp, _handleIncoming. intros H.
  apply andb_prop in H as [H H3]. apply andb_prop in H as [H1 H2].
  apply negb_true_iff in H1, H3. rewrite H1, H2, H3. cbn [negb].
  destruct (unsetRemote e); repeat destruct (_ =? _); cbn [app];
    eexists; (split; [|split; [|reflexivity]]);
    first [reflexivity | intros [F|[]]; discriminate F | intros []].
Qed.

Lemma handleIncoming_invalid (e : RtpEngine) (msg : list Z) (address : string)
    (port : Z) :
  validRtp msg = false -> _handleIncoming e msg address port = (e, []).
Proof.
  unfold validRtp, _handleIncoming. intros H.
  destruct (Z.of_nat (length msg) <? RTP_HEADER_SIZE); [reflexivity|].
  destruct (_ =? 2); [|reflexivity]. cbn [negb andb] in *.
  apply negb_false_iff in H. rewrite H. reflexivity.
Qed.

(** As long as neither [start] nor [updateRemote] is called, an engine
    whose target is a proper address keeps it, and sends only there. *)
Lemma run_targets (cs : list Call) :
  forall e a p,
  remoteAddress e = Some a -> remotePort e = Some p ->
  a <> "" -> a <> "0.0.0.0" ->
  forallb (fun c => negb (retarget c)) cs = true ->
  Forall (fun t => t = (a, Some p)) (targetsOf (snd (run e cs))).
Proof.
  induction cs as [|c cs IH]; intros e a p Ha Hp Hne Hnz Hcs; [constructor|].
  cbn [forallb] in Hcs. apply andb_prop in Hcs as [Hc Hcs].
  apply negb_true_iff in Hc. cbn [run].
  assert (Hun : unsetRemote e = false).
  { destruct (unsetRemote e) eqn:E; [|reflexivity].
    apply unsetRemote_spec in E. rewrite Ha in E.
    destruct E as [E|[E|E]]; congruence. }
  assert (Hstep : remoteAddress (fst (step e c)) = Some a /\
                  remotePort (fst (step e c)) = Some p /\
                  Forall (fun t => t = (a, Some p)) (targetsOf (snd (step e c)))).
  { destruct c as [bp|sa sp spt| | |pcm|m|ua up| |msg address port];
      try discriminate Hc; cbn [step fst snd].
    - cbn. auto.
    - cbn. auto.
    - cbn. auto.
    - unfold feedMicAudio. destruct (negb (active e) || muted e); cbn; auto.
    - destruct m; cbn; auto.
    - destruct (sendInterval e); [|cbn; auto].
      unfold _sendPacket.
      destruct (negb (active e) || negb (socket e)
                || negb (truthy (remoteAddress e))); [cbn; auto|].
      destruct (muted e), (micBuffer e);
        match goal with
        | |- context [_buildRtpPacket ?x ?y] =>
            destruct (_buildRtpPacket x y)
        end; cbn; rewrite ?Ha, ?Hp; cbn;
        repeat match goal with
               | |- context [if ?b then _ else _] => destruct b; cbn
               end;
        repeat split; auto; repeat constructor.
    - destruct (validRtp msg) eqn:Hv.
      + destruct (handleIncoming_valid e msg address port Hv)
          as (audio & Hnone & _ & ->).
        rewrite Hun. cbn [fst snd]. rewrite Hnone.
        repeat split; [assumption .. | constructor].
      + rewrite (handleIncoming_invalid e msg address port Hv). cbn. auto. }
  destruct (step e c) as [e1 o1]. cbn [fst snd] in Hstep.
  destruct Hstep as (Ha1 & Hp1 & Ho1).
  specialize (IH e1 a p Ha1 Hp1 Hne Hnz Hcs).
  destruct (run e1 cs) as [e2 o2]. cbn [snd] in *.
  clear - Ho1 IH. induction o1 as [|x o1 IHo]; [exact IH|].
  destruct x; cbn in *; auto.
  inversion Ho1; subst. constructor; auto.
Qed.

(** C4 as stated fails: [engine0] was started toward 203.0.113.5:40000; a
    valid packet from 198.51.100.9:54321 is decoded, but the endpoint is
    neither logged nor adopted, and the next packet still goes to
    203.0.113.5:40000. *)
Lemma started_engine_not_retargeted :
  remoteAddress engine0 = Some "203.0.113.5" /\
  remotePort engine0 = Some 40000 /\
  validRtp rtpPacket0 = true /\
  ~ retargets engine0 rtpPacket0 "198.51.100.9" 54321 /\
  targetsOf (snd (run engine0 [Incoming rtpPacket0 "198.51.100.9" 54321; Tick]))
  = [("203.0.113.5", Some 40000)].
Proof.
  repeat split.
  - intros (_ & H & _). vm_compute in H. discriminate H.
Qed.

(** C4, amended: a valid inbound packet makes the engine log and adopt its
    source exactly when the remote address is unset, empty or 0.0.0.0, and
    the packets sent afterwards go to the adopted endpoint until [start] or
    [updateRemote] is called; an engine that has any other remote address
    keeps its target and logs nothing. *)
Theorem symmetric_rtp_learning (e : RtpEngine) (msg : list Z)
    (address : string) (port : Z) :
  validRtp msg = true ->
  (remoteAddress e = None \/ remoteAddress e = Some "" \/
   remoteAddress e = Some "0.0.0.0" ->
     retargets e msg address port /\
     (address <> "" -> address <> "0.0.0.0" ->
      forall cs, forallb (fun c => negb (retarget c)) cs = true ->
      Forall (fun t => t = (address, Some port))
        (targetsOf (snd (run (fst (_handleIncoming e msg address port)) cs))))) /\
  (forall a, remoteAddress e = Some a -> a <> "" -> a <> "0.0.0.0" ->
     remoteAddress (fst (_handleIncoming e msg address port)) = Some a /\
     remotePort (fst (_handleIncoming e msg address port)) = remotePort e /\
     ~ In (learnedLog address port)
          (snd (_handleIncoming e msg address port))).
Proof.
  intros Hv.
  destruct (handleIncoming_valid e msg address port Hv)
    as (audio & Hnone & Hnolog & Heq).
  split.
  - intros Hun. apply unsetRemote_spec in Hun. rewrite Hun in Heq.
    unfold retargets. rewrite Heq. cbn [fst snd].
    split; [repeat split; left; reflexivity|].
    intros Hne Hnz cs Hcs.
    apply run_targets; auto.
  - intros a Ha Hne Hnz.
    assert (Hun : unsetRemote e = false).
    { destruct (unsetRemote e) eqn:E; [|reflexivity].
      apply unsetRemote_spec in E. rewrite Ha in E.
      destruct E as [E|[E|E]]; congruence. }
    rewrite Hun in Heq. rewrite Heq. cbn [fst snd]. auto.
Qed.

Definition engineHeld : RtpEngine :=
  fst (start (fst (bind (constructor 7 100 5000) 40002))
             (Some "0.0.0.0") (Some 40000) 0).

Lemma symmetric_rtp_learning_witness :
  retargets engineHeld rtpPacket0 "198.51.100.9" 54321 /\
  Forall (fun t => t = ("198.51.100.9", Some 54321))
    (targetsOf (snd (run
       (fst (_handleIncoming engineHeld rtpPacket0 "198.51.100.9" 54321))
       [Tick; Tick]))) /\
  remoteAddress (fst (_handleIncoming engine0 rtpPacket0 "198.51.100.9" 54321))
  = Some "203.0.113.5".
Proof.
  destruct (symmetric_rtp_learning engineHeld rtpPacket0 "198.51.100.9" 54321
              eq_refl) as [Hlearn _].
  destruct (symmetric_rtp_learning engine0 rtpPacket0 "198.51.100.9" 54321
              eq_refl) as [_ Hkeep].
  destruct (Hlearn (or_intror (or_intror eq_refl))) as [Hr Ht].
  split; [exact Hr|]. split.
  - apply Ht; [discriminate | discriminate | reflexivity].
  - apply (Hkeep "203.0.113.5" eq_refl); discriminate.
Defined.

(** Two ticks after the packet of 198.51.100.9 are sent to that endpoint. *)
Example learned_target_used :
  targetsOf (snd (run
    (fst (_handleIncoming engineHeld rtpPacket0 "198.51.100.9" 54321))
    [Tick; Tick]))
  = [("198.51.100.9", Some 54321); ("198.51.100.9", Some 54321)].
Proof. vm_compute. reflexivity. Qed.

(** *** When an engine sends, and what *)

Definition isStart (c : Call) : bool :=
  match c with Start _ _ _ => true | _ => false end.

Definition isBind (c : Call) : bool :=
  match c with Bind _ => true | _ => false end.

(** The payload of a packet: what follows the header. *)
Definition payloadOf (p : list Z) : list Z :=
  skipn (Z.to_nat RTP_HEADER_SIZE) p.

(** A packet as RFC 3550 lays it out: version 2 without padding, extension
    or CSRC, the marker bit clear, a full header, bytes throughout. *)
Definition wellFormed (p : list Z) : Prop :=
  nth 0 p 0 = 0x80 /\ 0 <= nth 1 p 0 <= 0x7F /\
  (12 <= length p)%nat /\ Forall Codec.byte p.

Definition silenceBlock (payload : list Z) : Prop :=
  payload = repeat Codec.MULAW_SILENCE 160 \/
  payload = repeat Codec.ALAW_SILENCE 160.

Lemma step_inactive (e : RtpEngine) (c : Call) :
  active e = false -> isStart c = false ->
  active (fst (step e c)) = false /\ packetsOf (snd (step e c)) = [].
Proof.
  intros Ha Hc. destruct c; try discriminate Hc; cbn [step fst snd];
    try (cbn; auto; fail).
  - unfold feedMicAudio. rewrite Ha. cbn. auto.
  - destruct (sendInterval e); [|cbn; auto].
    unfold _sendPacket. rewrite Ha. cbn. auto.
  - unfold _handleIncoming.
    repeat match goal with
           | |- context [if ?b then _ else _] => destruct b
           end; cbn; auto.
Qed.

Lemma step_unbound (e : RtpEngine) (c : Call) :
  socket e = false -> isBind c = false ->
  socket (fst (step e c)) = false /\ packetsOf (snd (step e c)) = [].
Proof.
  intros Hs Hc. destruct c; try discriminate Hc; cbn [step fst snd];
    try (cbn; auto; fail).
  - unfold feedMicAudio. destruct (negb (active e) || muted e); cbn; auto.
  - destruct (sendInterval e); [|cbn; auto].
    unfold _sendPacket. rewrite Hs. cbn. rewrite orb_true_r. cbn. auto.
  - unfold _handleIncoming.
    repeat match goal with
           | |- context [if ?b then _ else _] => destruct b
           end; cbn; auto.
Qed.

Lemma run_inactive (cs : list Call) :
  forall e, active e = false ->
  forallb (fun c => negb (isStart c)) cs = true ->
  packetsOf (snd (run e cs)) = [].
Proof.
  induction cs as [|c cs IH]; intros e Ha Hcs; [reflexivity|].
  cbn [forallb] in Hcs. apply andb_prop in Hcs as [Hc Hcs].
  apply negb_true_iff in Hc.
  destruct (step_inactive e c Ha Hc) as [Ha1 Hp1].
  cbn [run]. destruct (step e c) as [e1 o1]. cbn [fst snd] in *.
  specialize (IH e1 Ha1 Hcs). destruct (run e1 cs) as [e2 o2].
  cbn [snd] in *. rewrite packetsOf_app, Hp1, IH. reflexivity.
Qed.

Lemma run_unbound (cs : list Call) :
  forall e, socket e = false ->
  forallb (fun c => negb (isBind c)) cs = true ->
  packetsOf (snd (run e cs)) = [].
Proof.
  induction cs as [|c cs IH]; intros e Ha Hcs; [reflexivity|].
  cbn [forallb] in Hcs. apply andb_prop in Hcs as [Hc Hcs].
  apply negb_true_iff in Hc.
  destruct (step_unbound e c Ha Hc) as [Ha1 Hp1].
  cbn [run]. destruct (step e c) as [e1 o1]. cbn [fst snd] in *.
  specialize (IH e1 Ha1 Hcs). destruct (run e1 cs) as [e2 o2].
  cbn [snd] in *. rewrite packetsOf_app, Hp1, IH. reflexivity.
Qed.

(** X7: an engine sends nothing before [start] and nothing after [stop]
    until it is started again, whatever is fed, received or set and however
    often the interval fires; after [close] it sends nothing until it is
    bound again, even when started. *)
Theorem stopped_engine_is_silent (e : RtpEngine) (cs : list Call) :
  (forallb (fun c => negb (isStart c)) cs = true ->
     packetsOf (snd (run (stop e) cs)) = [] /\
     forall ssrc0 seq0 ts0,
       packetsOf (snd (run (constructor ssrc0 seq0 ts0) cs)) = []) /\
  (forallb (fun c => negb (isBind c)) cs = true ->
     packetsOf (snd (run (close e) cs)) = []).
Proof.
  split.
  - intros Hcs. split; [|intros ssrc0 seq0 ts0];
      apply run_inactive; auto.
  - intros Hcs. apply run_unbound; auto.
Qed.

Lemma stopped_engine_is_silent_witness :
  packetsOf (snd (run (stop engine0)
    [Tick; FeedMicAudio (Codec.Int16Samples [1; 2]); Tick;
     Incoming rtpPacket0 "198.51.100.9" 54321; Tick])) = [] /\
  packetsOf (snd (run (close engine0)
    [Start (Some "203.0.113.5") (Some 40000) 0; Tick; Tick])) = [].
Proof.
  destruct (stopped_engine_is_silent engine0
    [Tick; FeedMicAudio (Codec.Int16Samples [1; 2]); Tick;
     Incoming rtpPacket0 "198.51.100.9" 54321; Tick]) as [H1 _].
  destruct (stopped_engine_is_silent engine0
    [Start (Some "203.0.113.5") (Some 40000) 0; Tick; Tick]) as [_ H2].
  split.
  - apply H1. reflexivity.
  - apply H2. reflexivity.
Defined.

Definition encodeFor (e : RtpEngine) (pcmData : Codec.PcmBuf) : list Z :=
  if payloadType e =? 8 then Codec.encodeAlaw pcmData
  else Codec.encodeMulaw pcmData.

(** The payload that the next packet carries. *)
Definition nextPayload (e : RtpEngine) : list Z :=
  match muted e, micBuffer e with
  | false, pcmData :: _ => encodeFor e pcmData
  | _, _ => silencePayload e
  end.

Lemma land_0x7F (x : Z) : 0 <= Z.land x 0x7F <= 0x7F.
Proof.
  change 0x7F with (Z.ones 7) at 1 2. rewrite Z.land_ones by lia.
  pose proof (Z.mod_pos_bound x (2 ^ 7) ltac:(lia)). lia.
Qed.

Lemma div_byte (v k : Z) : 0 <= v < 256 * k -> 0 < k -> Codec.byte (v / k).
Proof.
  intros Hv Hk. unfold Codec.byte. split.
  - apply Z.div_pos; lia.
  - enough (v / k < 256) by lia. apply Z.div_lt_upper_bound; lia.
Qed.

Lemma mod_byte (v : Z) : Codec.byte (v mod 256).
Proof. unfold Codec.byte. pose proof (Z.mod_pos_bound v 256 ltac:(lia)). lia. Qed.

(** One call of [_sendPacket]: nothing is sent, or one packet made of a
    12-Codec.byte header and the next payload. *)
Lemma sendPacket_shape (e : RtpEngine) :
  packetsOf (snd (_sendPacket e)) = [] \/
  exists hdr,
    length hdr = 12%nat /\ nth 0 hdr 0 = 0x80 /\
    nth 1 hdr 0 = Z.land (toInt32 (payloadType e)) 0x7F /\
    (counters_ok e -> Forall Codec.byte hdr) /\
    snd (_sendPacket e)
      = [Datagram (remotePort e) (tplStr (remoteAddress e))
                  (hdr ++ nextPayload e)].
Proof.
  unfold _sendPacket.
  destruct (negb (active e) || negb (socket e)
            || negb (truthy (remoteAddress e))); [left; reflexivity|].
  set (ep := match muted e, micBuffer e with
             | false, pcmData :: rest =>
                 (setMicBuffer e rest,
                  if payloadType e =? 8 then Codec.encodeAlaw pcmData
                  else Codec.encodeMulaw pcmData)
             | _, _ => (e, silencePayload e)
             end).
  assert (Hep : ssrc (fst ep) = ssrc e /\
                sequenceNumber (fst ep) = sequenceNumber e /\
                timestamp (fst ep) = timestamp e /\
                remotePort (fst ep) = remotePort e /\
                remoteAddress (fst ep) = remoteAddress e /\
                payloadType (fst ep) = payloadType e /\
                snd ep = nextPayload e).
  { subst ep. unfold nextPayload, encodeFor.
    destruct (muted e), (micBuffer e); cbn; auto 10. }
  destruct ep as [e1 payload]. cbn [fst snd] in Hep.
  destruct Hep as (Hss & Hsq & Hts & Hrp & Hra & Hpt & Hpl).
  unfold _buildRtpPacket, writeUInt16BE, writeUInt32BE.
  rewrite Hss, Hsq, Hts, Hrp, Hra, Hpt, Hpl.
  destruct ((0 <=? sequenceNumber e) && (sequenceNumber e <=? 0xFFFF));
    [|left; reflexivity].
  destruct ((0 <=? timestamp e) && (timestamp e <=? 0xFFFFFFFF)) eqn:Et;
    [|left; reflexivity].
  destruct ((0 <=? ssrc e) && (ssrc e <=? 0xFFFFFFFF));
    [|left; reflexivity].
  destruct (validPort (remotePort e)); cbn [negb]; [|left; reflexivity].
  apply andb_prop in Et as [Et0 Et1]. apply Z.leb_le in Et0, Et1.
  right.
  exists ([0x80; Z.land (toInt32 (payloadType e)) 0x7F]
          ++ [sequenceNumber e / 256; sequenceNumber e mod 256]
          ++ [timestamp e / 2 ^ 24; (timestamp e / 2 ^ 16) mod 256;
              (timestamp e / 2 ^ 8) mod 256; timestamp e mod 256]
          ++ [ssrc e / 2 ^ 24; (ssrc e / 2 ^ 16) mod 256;
              (ssrc e / 2 ^ 8) mod 256; ssrc e mod 256]).
  split; [reflexivity|]. split; [reflexivity|]. split; [reflexivity|].
  split; [|cbn [snd app]; reflexivity].
  intros (Hk1 & Hk2 & Hk3).
  pose proof (land_0x7F (toInt32 (payloadType e))) as Hpt7.
  cbn [app].
  repeat (apply Forall_cons_2); try apply Forall_nil_2;
    try apply mod_byte.
  all: try (unfold Codec.byte; lia).
  all: try (apply div_byte; [lia | lia]).
  all: apply (div_byte _ (2 ^ 24)); lia.
Qed.

Lemma nextPayload_bytes (e : RtpEngine) : Forall Codec.byte (nextPayload e).
Proof.
  assert (Hs : Forall Codec.byte (silencePayload e)).
  { unfold silencePayload. apply Forall_forall. intros x Hx.
    apply list_elem_of_In, repeat_spec in Hx. subst x.
    destruct (payloadType e =? 8);
      unfold Codec.byte, Codec.ALAW_SILENCE, Codec.MULAW_SILENCE; lia. }
  assert (He : forall pcm, Forall Codec.byte (encodeFor e pcm)).
  { intros pcm. unfold encodeFor, Codec.encodeAlaw, Codec.encodeMulaw.
    destruct (payloadType e =? 8); apply Forall_forall; intros x Hx;
      apply list_elem_of_In, in_map_iff in Hx;
      destruct Hx as (s & <- & _); apply mod_byte. }
  unfold nextPayload. destruct (muted e), (micBuffer e); auto.
Qed.

Lemma nextPayload_muted (e : RtpEngine) :
  muted e = true -> silenceBlock (nextPayload e).
Proof.
  intros Hm. unfold nextPayload, silenceBlock, silencePayload. rewrite Hm.
  change (Z.to_nat SAMPLES_PER_PACKET) with 160%nat.
  destruct (payloadType e =? 8); auto.
Qed.

Lemma payloadOf_app (hdr payload : list Z) :
  length hdr = 12%nat -> payloadOf (hdr ++ payload) = payload.
Proof.
  intros H. unfold payloadOf. change (Z.to_nat RTP_HEADER_SIZE) with 12%nat.
  rewrite <- H. rewrite skipn_app, Nat.sub_diag, skipn_all. reflexivity.
Qed.

(** What one call hands to the socket: nothing, or the one packet of
    [_sendPacket]. *)
Lemma step_packets (e : RtpEngine) (c : Call) :
  packetsOf (snd (step e c)) = [] \/
  packetsOf (snd (step e c)) = packetsOf (snd (_sendPacket e)).
Proof.
  destruct c; cbn [step snd]; try (left; reflexivity).
  - destruct (sendInterval e); [right; reflexivity | left; reflexivity].
  - left. unfold _handleIncoming.
    repeat match goal with
           | |- context [if ?b then _ else _] => destruct b
           end; reflexivity.
Qed.

Lemma step_wellFormed (e : RtpEngine) (c : Call) :
  counters_ok e -> Forall wellFormed (packetsOf (snd (step e c))).
Proof.
  intros Hok. destruct (step_packets e c) as [-> | ->]; [constructor|].
  destruct (sendPacket_shape e) as [-> | (hdr & Hlen & H0 & H1 & Hb & ->)];
    [constructor|].
  cbn [packetsOf]. constructor; [|constructor].
  unfold wellFormed.
  do 12 (destruct hdr as [|? hdr]; [discriminate Hlen|]).
  destruct hdr; [|discriminate Hlen].
  cbn [nth] in H0, H1. cbn [app nth length].
  split; [exact H0|]. split; [rewrite H1; apply land_0x7F|]. split; [lia|].
  change (?a :: ?b :: ?c :: ?d :: ?f :: ?g :: ?h :: ?i :: ?j :: ?k :: ?l :: ?m :: nextPayload e)
    with ([a; b; c; d; f; g; h; i; j; k; l; m] ++ nextPayload e).
  apply Forall_app. split; [apply Hb, Hok | apply nextPayload_bytes].
Qed.

(** X8: every packet that an engine hands to the socket is a well-formed
    RTP packet: twelve bytes of header that start with the version Codec.byte
    0x80, a payload type with the marker bit clear, and bytes throughout. *)
Theorem sent_packets_well_formed (ssrc0 seq0 ts0 : Z) (cs : list Call) :
  fresh ssrc0 seq0 ts0 ->
  Forall wellFormed (packetsOf (snd (run (constructor ssrc0 seq0 ts0) cs))).
Proof.
  intros (H1 & H2 & H3).
  assert (Hok : counters_ok (constructor ssrc0 seq0 ts0))
    by (unfold counters_ok; cbn; lia).
  revert Hok. generalize (constructor ssrc0 seq0 ts0).
  induction cs as [|c cs IH]; intros e Hok; [constructor|].
  cbn [run].
  pose proof (step_wellFormed e c Hok) as Hw.
  destruct (step_counters e c Hok) as (Hok1 & _).
  destruct (step e c) as [e1 o1]. cbn [fst snd] in *.
  specialize (IH e1 Hok1). destruct (run e1 cs) as [e2 o2]. cbn [snd] in *.
  rewrite packetsOf_app. apply Forall_app. split; assumption.
Qed.

Lemma sent_packets_well_formed_witness :
  Forall wellFormed (packetsOf (snd (run (constructor 7 65534 5000) trace0))).
Proof.
  apply sent_packets_well_formed. unfold fresh. lia.
Defined.

Lemma step_muted_silence (e : RtpEngine) (c : Call) :
  muted e = true ->
  Forall (fun p => silenceBlock (payloadOf p)) (packetsOf (snd (step e c))).
Proof.
  intros Hm. destruct (step_packets e c) as [-> | ->]; [constructor|].
  destruct (sendPacket_shape e) as [-> | (hdr & Hlen & _ & _ & _ & ->)];
    [constructor|].
  cbn [packetsOf]. constructor; [|constructor].
  rewrite payloadOf_app by exact Hlen. apply nextPayload_muted, Hm.
Qed.

(** X9: a muted engine sends silence only: until [setMuted(false)] is
    called, every packet carries 160 bytes of 0xFF or 160 bytes of 0xD5,
    whatever audio is fed. *)
Theorem muted_engine_sends_silence (e : RtpEngine) (cs : list Call) :
  muted e = true ->
  forallb (fun c => negb (isUnmute c)) cs = true ->
  Forall (fun p => silenceBlock (payloadOf p)) (packetsOf (snd (run e cs))).
Proof.
  revert e. induction cs as [|c cs IH]; intros e Hm Hcs; [constructor|].
  cbn [forallb] in Hcs. apply andb_prop in Hcs as [Hc Hcs].
  apply negb_true_iff in Hc. cbn [run].
  pose proof (step_muted_silence e c Hm) as Hs.
  destruct (step_keeps_muted e c Hc Hm) as [Hm1 _].
  destruct (step e c) as [e1 o1]. cbn [fst snd] in *.
  specialize (IH e1 Hm1 Hcs). destruct (run e1 cs) as [e2 o2]. cbn [snd] in *.
  rewrite packetsOf_app. apply Forall_app. split; assumption.
Qed.

Lemma muted_engine_sends_silence_witness :
  Forall (fun p => silenceBlock (payloadOf p))
    (packetsOf (snd (run (setMuted engine0 true)
       [FeedMicAudio (Codec.Int16Samples [1000; -1000]); Tick;
        Start (Some "203.0.113.5") (Some 40000) 8; Tick]))).
Proof.
  apply muted_engine_sends_silence; reflexivity.
Defined.

(** An engine that is sending: started, bound, aimed at an address and a
    valid port, and not muted. *)
Definition sending (e : RtpEngine) : Prop :=
  sendInterval e = true /\ active e = true /\ socket e = true /\
  truthy (remoteAddress e) = true /\ validPort (remotePort e) = true /\
  muted e = false.

(** A tick of a sending engine: the packet carries the next payload, the
    queue loses its head, and the engine goes on sending. *)
Lemma sendPacket_sending (e : RtpEngine) :
  sending e -> counters_ok e -> 0 <= timestamp e ->
  timestamp e + 160 < 2 ^ 31 ->
  sending (fst (_sendPacket e)) /\ counters_ok (fst (_sendPacket e)) /\
  timestamp (fst (_sendPacket e)) = timestamp e + 160 /\
  micBuffer (fst (_sendPacket e)) = tl (micBuffer e) /\
  payloadType (fst (_sendPacket e)) = payloadType e /\
  map payloadOf (packetsOf (snd (_sendPacket e))) = [nextPayload e].
Proof.
  intros Hs Hok Ht0 Ht1.
  assert (Hpl : map payloadOf (packetsOf (snd (_sendPacket e))) = [nextPayload e]).
  { destruct Hs as (_ & Ha & Hso & Hr & Hp & _).
    destruct (tick_sends e Hok Ht0 Ha Hso Hr Hp) as [p Hp1].
    destruct (sendPacket_shape e) as [Hn | (hdr & Hlen & _ & _ & _ & Heq)].
    - rewrite Hn in Hp1. discriminate Hp1.
    - rewrite Heq. cbn [packetsOf map]. rewrite payloadOf_app by exact Hlen.
      reflexivity. }
  pose proof (step_counters e Tick Hok) as (Hok1 & _).
  destruct Hs as (Hi & Ha & Hso & Hr & Hp & Hm).
  cbn [step] in Hok1. rewrite Hi in Hok1.
  enough (Hrest : sending (fst (_sendPacket e)) /\
                  timestamp (fst (_sendPacket e)) = timestamp e + 160 /\
                  micBuffer (fst (_sendPacket e)) = tl (micBuffer e) /\
                  payloadType (fst (_sendPacket e)) = payloadType e)
    by (destruct Hrest as (R1 & R2 & R3 & R4); auto 10).
  clear Hok1 Hpl. destruct Hok as (Hk1 & Hk2 & Hk3).
  unfold _sendPacket, _buildRtpPacket, writeUInt16BE, writeUInt32BE.
  rewrite Ha, Hso, Hr, Hm. cbn [negb orb].
  assert (E1 : (0 <=? sequenceNumber e) && (sequenceNumber e <=? 0xFFFF) = true)
    by lia.
  assert (E2 : (0 <=? timestamp e) && (timestamp e <=? 0xFFFFFFFF) = true)
    by lia.
  assert (E3 : (0 <=? ssrc e) && (ssrc e <=? 0xFFFFFFFF) = true) by lia.
  destruct (micBuffer e) as [|b q] eqn:Hq;
    cbn [setMicBuffer sequenceNumber timestamp ssrc remotePort];
    rewrite E1, E2, E3, Hp; cbn [negb fst snd];
    (split; [unfold sending; cbn; auto 10|]);
    cbn [timestamp micBuffer payloadType tl];
    change SAMPLES_PER_PACKET with 160; rewrite toInt32_small by lia;
    rewrite ?Hq; auto.
Qed.

Lemma encodeFor_ext (e e' : RtpEngine) :
  payloadType e' = payloadType e ->
  encodeFor e' = encodeFor e /\ silencePayload e' = silencePayload e.
Proof.
  intros H. unfold encodeFor, silencePayload. rewrite H. auto.
Qed.

Lemma run_ticks (n : nat) :
  forall e, sending e -> counters_ok e -> 0 <= timestamp e ->
  timestamp e + 160 * Z.of_nat n < 2 ^ 31 ->
  map payloadOf (packetsOf (snd (run e (repeat Tick n))))
  = firstn n (map (encodeFor e) (micBuffer e))
    ++ repeat (silencePayload e) (n - length (micBuffer e)).
Proof.
  induction n as [|n IH]; intros e Hs Hok Ht0 Ht1; [reflexivity|].
  cbn [repeat run step].
  assert (Hi : sendInterval e = true) by (destruct Hs as (H & _); exact H).
  assert (Hm : muted e = false) by (destruct Hs as (_ & _ & _ & _ & _ & H); exact H).
  rewrite Hi.
  destruct (sendPacket_sending e Hs Hok Ht0 ltac:(lia))
    as (Hs1 & Hok1 & Hts1 & Hq1 & Hpt1 & Hpl).
  destruct (_sendPacket e) as [e1 o1]. cbn [fst snd] in *.
  specialize (IH e1 Hs1 Hok1 ltac:(lia) ltac:(lia)).
  destruct (run e1 (repeat Tick n)) as [e2 o2]. cbn [snd] in *.
  rewrite packetsOf_app, map_app, Hpl, IH, Hq1.
  destruct (encodeFor_ext e e1 Hpt1) as [-> ->].
  unfold nextPayload. rewrite Hm.
  destruct (micBuffer e) as [|b q]; cbn [tl map firstn length Nat.sub app].
  - rewrite firstn_nil, Nat.sub_0_r. reflexivity.
  - reflexivity.
Qed.

Lemma run_feeds (blocks : list Codec.PcmBuf) :
  forall e, sending e ->
  sending (fst (run e (map FeedMicAudio blocks))) /\
  (counters_ok e -> counters_ok (fst (run e (map FeedMicAudio blocks)))) /\
  timestamp (fst (run e (map FeedMicAudio blocks))) = timestamp e /\
  payloadType (fst (run e (map FeedMicAudio blocks))) = payloadType e /\
  micBuffer (fst (run e (map FeedMicAudio blocks))) = micBuffer e ++ blocks /\
  snd (run e (map FeedMicAudio blocks)) = [].
Proof.
  induction blocks as [|b blocks IH]; intros e Hs.
  - cbn. rewrite app_nil_r. auto 10.
  - cbn [map run step].
    assert (Hf : feedMicAudio e b = setMicBuffer e (micBuffer e ++ [b])).
    { destruct Hs as (_ & Ha & _ & _ & _ & Hm).
      unfold feedMicAudio. rewrite Ha, Hm. reflexivity. }
    rewrite Hf.
    destruct (IH (setMicBuffer e (micBuffer e ++ [b])) Hs)
      as (H1 & H2 & H3 & H4 & H5 & H6).
    destruct (run (setMicBuffer e (micBuffer e ++ [b])) (map FeedMicAudio blocks))
      as [e1 o1]. cbn [fst snd] in *.
    cbn [setMicBuffer timestamp payloadType micBuffer] in H3, H4, H5.
    rewrite <- app_assoc in H5. cbn [app] in H5.
    subst o1. auto 10.
Qed.

(** X10: the blocks fed to a sending engine leave in the order of their
    arrival, one in each packet, each encoded as a whole whatever its
    length; when the queue is empty the packets carry silence. *)
Theorem mic_blocks_sent_in_order (e : RtpEngine) (blocks : list Codec.PcmBuf)
    (k : nat) :
  sending e -> counters_ok e -> micBuffer e = [] ->
  0 <= timestamp e ->
  timestamp e + 160 * Z.of_nat (length blocks + k) < 2 ^ 31 ->
  map payloadOf
    (packetsOf (snd (run e (map FeedMicAudio blocks
                            ++ repeat Tick (length blocks + k)))))
  = map (encodeFor e) blocks ++ repeat (silencePayload e) k.
Proof.
  intros Hs Hok Hq Ht0 Ht1. rewrite run_app. cbn [snd].
  destruct (run_feeds blocks e Hs) as (H1 & H2 & H3 & H4 & H5 & H6).
  rewrite H6. cbn [app].
  rewrite run_ticks; [| exact H1 | exact (H2 Hok) | lia | lia].
  destruct (encodeFor_ext _ _ H4) as [-> ->].
  rewrite H5, Hq. cbn [app].
  rewrite firstn_all2 by (rewrite length_map; lia).
  replace (length blocks + k - length blocks)%nat with k by lia.
  reflexivity.
Qed.

Lemma mic_blocks_sent_in_order_witness :
  map payloadOf
    (packetsOf (snd (run engine0
       (map FeedMicAudio [Codec.Int16Samples [0; 1000];
                          Codec.ByteBuffer [0; 0; 0xE8; 0x03; 0x18]]
        ++ repeat Tick (length [Codec.Int16Samples [0; 1000];
                                Codec.ByteBuffer [0; 0; 0xE8; 0x03; 0x18]] + 1)))))
  = map (encodeFor engine0) [Codec.Int16Samples [0; 1000];
                             Codec.ByteBuffer [0; 0; 0xE8; 0x03; 0x18]]
    ++ repeat (silencePayload engine0) 1.
Proof.
  apply mic_blocks_sent_in_order.
  - repeat split.
  - unfold counters_ok. cbn. lia.
  - reflexivity.
  - cbn. lia.
  - cbn. lia.
Defined.

(** What a receiver logs before the audio. *)
Definition learnedBy (e : RtpEngine) (address : string) (port : Z)
    : list Effect :=
  if unsetRemote e then [learnedLog address port] else [].

(** The audio event for a payload type and a payload. *)
Definition heard (pt : Z) (payload : list Z) : list Effect :=
  if pt =? 0 then [Audio (Codec.decodeMulaw payload)]
  else if pt =? 8 then [Audio (Codec.decodeAlaw payload)]
  else [].

Lemma buildRtpPacket_shape (e : RtpEngine) (payload p : list Z) :
  _buildRtpPacket e payload = Some p ->
  exists hdr,
    length hdr = 12%nat /\ nth 0 hdr 0 = 0x80 /\
    nth 1 hdr 0 = Z.land (toInt32 (payloadType e)) 0x7F /\
    p = hdr ++ payload.
Proof.
  unfold _buildRtpPacket, writeUInt16BE, writeUInt32BE.
  destruct ((0 <=? sequenceNumber e) && (sequenceNumber e <=? 0xFFFF));
    [|discriminate].
  destruct ((0 <=? timestamp e) && (timestamp e <=? 0xFFFFFFFF));
    [|discriminate].
  destruct ((0 <=? ssrc e) && (ssrc e <=? 0xFFFFFFFF)); [|discriminate].
  intros [= <-].
  exists ([0x80; Z.land (toInt32 (payloadType e)) 0x7F]
          ++ [sequenceNumber e / 256; sequenceNumber e mod 256]
          ++ [timestamp e / 2 ^ 24; (timestamp e / 2 ^ 16) mod 256;
              (timestamp e / 2 ^ 8) mod 256; timestamp e mod 256]
          ++ [ssrc e / 2 ^ 24; (ssrc e / 2 ^ 16) mod 256;
              (ssrc e / 2 ^ 8) mod 256; ssrc e mod 256]).
  repeat split.
Qed.

Lemma handleIncoming_packet (receiver : RtpEngine) (hdr payload : list Z)
    (address : string) (port : Z) :
  length hdr = 12%nat -> nth 0 hdr 0 = 0x80 ->
  _handleIncoming receiver (hdr ++ payload) address port =
  match payload with
  | [] => (receiver, [])
  | _ :: _ =>
      ((if unsetRemote receiver
        then setRemote receiver (Some address) (Some port) else receiver),
       learnedBy receiver address port
       ++ heard (Z.land (nth 1 hdr 0) 0x7F) payload)
  end.
Proof.
  intros Hlen H0.
  do 12 (destruct hdr as [|? hdr]; [discriminate Hlen|]).
  destruct hdr; [|discriminate Hlen]. cbn [nth] in H0. subst.
  unfold _handleIncoming, learnedBy, heard.
  change (Z.to_nat RTP_HEADER_SIZE) with 12%nat.
  cbn [app skipn nth].
  replace (Z.of_nat (length (_ :: _)) <? RTP_HEADER_SIZE) with false.
  2:{ symmetry. apply Z.ltb_ge. cbn [length]. unfold RTP_HEADER_SIZE. lia. }
  change (Z.land (Z.shiftr 0x80 6) 0x03 =? 2) with true. cbn [negb].
  destruct payload as [|x payload]; [reflexivity|]. cbn [length Nat.eqb].
  destruct (unsetRemote receiver);
    destruct (Z.land z0 0x7F =? 0); try reflexivity;
    destruct (Z.land z0 0x7F =? 8); try reflexivity;
    cbn [app]; rewrite ?app_nil_r; reflexivity.
Qed.

(** X11: a packet built by one engine is accepted by another.  The
    receiver reads the payload type that the sender wrote and decodes the
    very payload, as mu-law for type 0 and as A-law for type 8; a payload
    of any other type is dropped after the source has been learned, and a
    packet without payload is ignored altogether. *)
Theorem built_packet_is_heard (e receiver : RtpEngine) (payload p : list Z)
    (address : string) (port : Z) :
  _buildRtpPacket e payload = Some p ->
  (payload = [] ->
     _handleIncoming receiver p address port = (receiver, [])) /\
  (payload <> [] ->
     snd (_handleIncoming receiver p address port)
     = learnedBy receiver address port
       ++ heard (Z.land (toInt32 (payloadType e)) 0x7F) payload).
Proof.
  intros Hb. destruct (buildRtpPacket_shape e payload p Hb)
    as (hdr & Hlen & H0 & H1 & ->).
  rewrite (handleIncoming_packet receiver hdr payload address port Hlen H0).
  rewrite H1. split.
  - intros ->. reflexivity.
  - intros Hne. destruct payload; [congruence|]. cbn [snd].
    f_equal. f_equal.
    change 0x7F with (Z.ones 7). rewrite !Z.land_ones by lia.
    apply Z.mod_mod. lia.
Qed.

Lemma built_packet_is_heard_witness :
  ([0xFF; 0x1B] = [] ->
     _handleIncoming engineHeld
       [0x80; 0; 0; 100; 0; 0; 0x13; 0x88; 0; 0; 0; 7; 0xFF; 0x1B]
       "198.51.100.9" 54321 = (engineHeld, [])) /\
  ([0xFF; 0x1B] <> [] ->
     snd (_handleIncoming engineHeld
            [0x80; 0; 0; 100; 0; 0; 0x13; 0x88; 0; 0; 0; 7; 0xFF; 0x1B]
            "198.51.100.9" 54321)
     = learnedBy engineHeld "198.51.100.9" 54321
       ++ heard (Z.land (toInt32 (payloadType engine0)) 0x7F) [0xFF; 0x1B]).
Proof.
  apply (built_packet_is_heard engine0). reflexivity.
Defined.

(** A block of two samples, sent by one engine and received by another:
    the receiver hears the samples as the codec rounds them. *)
Example block_sent_and_heard :
  let sent := packetsOf (snd (run engine0
                [FeedMicAudio (Codec.Int16Samples [0; 1000]); Tick])) in
  sent = [[0x80; 0; 0; 100; 0; 0; 0x13; 0x88; 0; 0; 0; 7; 0xFF; 0xCE]] /\
  snd (_handleIncoming engine0 (hd [] sent) "198.51.100.9" 54321)
  = [Audio [0; 0; 0xDC; 0x03]].
Proof. vm_compute. split; reflexivity. Qed.

End Rtp.

(** ** SipUA._handleTcpData: framing of SIP over TCP and TLS *)

Module Framer.

Definition CRLF : list Z := [13; 10].

(** *** [Buffer.toString('utf8')]

    The decoder replaces every maximal ill-formed part by U+FFFD and
    yields UTF-16 code units; a code point above U+FFFF takes two. *)

Definition codeUnits (cp : Z) : list Z :=
  if cp <? 0x10000 then [cp]
  else [0xD800 + Z.shiftr (cp - 0x10000) 10;
        0xDC00 + Z.land (cp - 0x10000) 0x3FF].

(** A sequence under way: code point so far, bytes still needed, and the
    bounds of the next byte. *)
Definition pending : Type := Z * nat * Z * Z.

(** A byte read when no sequence is under way. *)
Definition leadByte (b : Z) : list Z * option pending :=
  if b <=? 0x7F then ([b], None)
  else if (0xC2 <=? b) && (b <=? 0xDF)
       then ([], Some (Z.land b 0x1F, 1%nat, 0x80, 0xBF))
  else if (0xE0 <=? b) && (b <=? 0xEF)
       then ([], Some (Z.land b 0x0F, 2%nat,
                       (if b =? 0xE0 then 0xA0 else 0x80),
                       (if b =? 0xED then 0x9F else 0xBF)))
  else if (0xF0 <=? b) && (b <=? 0xF4)
       then ([], Some (Z.land b 0x07, 3%nat,
                       (if b =? 0xF0 then 0x90 else 0x80),
                       (if b =? 0xF4 then 0x8F else 0xBF)))
  else ([0xFFFD], None).

Fixpoint utf8DecodeFrom (p : option pending) (bytes : list Z) : list Z :=
  match bytes with
  | [] => match p with None => [] | Some _ => [0xFFFD] end
  | b :: rest =>
      match p with
      | None =>
          let '(out, p') := leadByte b in out ++ utf8DecodeFrom p' rest
      | Some (cp, needed, lower, upper) =>
          if (lower <=? b) && (b <=? upper) then
            let cp' := Z.lor (Z.shiftl cp 6) (Z.land b 0x3F) in
            match needed with
            | S (S k) => utf8DecodeFrom (Some (cp', S k, 0x80, 0xBF)) rest
            | _ => codeUnits cp' ++ utf8DecodeFrom None rest
            end
          else
            let '(out, p') := leadByte b in
            0xFFFD :: out ++ utf8DecodeFrom p' rest
      end
  end.

Definition toStringUtf8 (bytes : list Z) : list Z := utf8DecodeFrom None bytes.

(** *** [Buffer.byteLength(str, 'utf8')]: a surrogate pair takes 4 bytes, a
    lone surrogate is written as U+FFFD. *)

Definition isHigh (u : Z) : bool := (0xD800 <=? u) && (u <=? 0xDBFF).
Definition isLow (u : Z) : bool := (0xDC00 <=? u) && (u <=? 0xDFFF).

Definition unitBytes (u : Z) : nat :=
  if u <? 0x80 then 1 else if u <? 0x800 then 2 else 3.

Fixpoint byteLength (str : list Z) : nat :=
  match str with
  | [] => 0
  | u :: tl =>
      match tl with
      | v :: rest =>
          if isHigh u && isLow v then (4 + byteLength rest)%nat
          else (unitBytes u + byteLength tl)%nat
      | [] => unitBytes u
      end
  end.

(** *** String primitives *)

Fixpoint startsWith (needle str : list Z) : bool :=
  match needle, str with
  | [], _ => true
  | _ :: _, [] => false
  | n :: needle', c :: str' => (n =? c) && startsWith needle' str'
  end.

(** [str.indexOf(needle)]; [None] is the result -1. *)
Fixpoint indexOf (needle str : list Z) : option nat :=
  match str with
  | [] => if startsWith needle [] then Some O else None
  | _ :: str' =>
      if startsWith needle str then Some O
      else option_map S (indexOf needle str')
  end.

(** [str.substring(0, n)]. *)
Definition substring0 (str : list Z) (n : Z) : list Z :=
  firstn (Z.to_nat (Z.min n (Z.of_nat (length str)))) str.

(** *** The regular expression [/Content-Length:\s*(\d+)/i] *)

Definition upperAscii (c : Z) : Z :=
  if (97 <=? c) && (c <=? 122) then c - 32 else c.

Fixpoint startsWithCI (pat str : list Z) : bool :=
  match pat, str with
  | [], _ => true
  | _ :: _, [] => false
  | p :: pat', c :: str' => (p =? upperAscii c) && startsWithCI pat' str'
  end.

(** The class [\s] of ECMAScript. *)
Definition isSpace (c : Z) : bool :=
  existsb (Z.eqb c)
    [9; 10; 11; 12; 13; 32; 0xA0; 0x1680; 0x2028; 0x2029; 0x202F; 0x205F;
     0x3000; 0xFEFF]
  || (0x2000 <=? c) && (c <=? 0x200A).

Definition isDigit (c : Z) : bool := (48 <=? c) && (c <=? 57).

Fixpoint dropWhile (f : Z -> bool) (l : list Z) : list Z :=
  match l with
  | [] => []
  | x :: l' => if f x then dropWhile f l' else l
  end.

Fixpoint takeWhile (f : Z -> bool) (l : list Z) : list Z :=
  match l with
  | [] => []
  | x :: l' => if f x then x :: takeWhile f l' else []
  end.

(** [parseInt] of a non-empty run of decimal digits. *)
Definition parseDigits (ds : list Z) : Z :=
  fold_left (fun acc d => acc * 10 + (d - 48)) ds 0.

Definition CONTENT_LENGTH_COLON : list Z := bytesOf "CONTENT-LENGTH:".

(** A match that starts at the head of [str]: the captured number. *)
Definition matchHere (str : list Z) : option Z :=
  if startsWithCI CONTENT_LENGTH_COLON str then
    match takeWhile isDigit
            (dropWhile isSpace (skipn (length CONTENT_LENGTH_COLON) str)) with
    | [] => None
    | ds => Some (parseDigits ds)
    end
  else None.

(** [headerSection.match(...)]: the leftmost match. *)
Fixpoint clMatch (str : list Z) : option Z :=
  match str with
  | [] => None
  | _ :: str' =>
      match matchHere str with
      | Some n => Some n
      | None => clMatch str'
      end
  end.

(** *** The loop of [_handleTcpData]

    One pass either stops (no end of headers yet, or fewer bytes than the
    computed length) or cuts one message off the buffer and hands it to
    [_handleMessage].  [frameLoop] is the cutting alone: the messages cut
    off, in order, and the buffer that remains, when every call of
    [_handleMessage] returns; [frameLoopWith] below is the loop with the
    handler.  [None] only when the fuel is used up. *)

Definition CRLFCRLF : list Z := CRLF ++ CRLF.

Fixpoint frameLoop (fuel : nat) (tcpBuffer : list Z)
    : option (list (list Z) * list Z) :=
  match tcpBuffer with
  | [] => Some ([], [])
  | _ :: _ =>
      match fuel with
      | O => None
      | S fuel' =>
          let str := toStringUtf8 tcpBuffer in
          match indexOf CRLFCRLF str with
          | None => Some ([], tcpBuffer)
          | Some headerEnd =>
              let headerSection := substring0 str (Z.of_nat headerEnd) in
              let contentLength :=
                match clMatch headerSection with
                | Some n => n
                | None => 0
                end in
              let totalLength := Z.of_nat headerEnd + 4 + contentLength in
              let totalBytes := byteLength (substring0 str totalLength) in
              if (length tcpBuffer <? totalBytes)%nat then Some ([], tcpBuffer)
              else
                match frameLoop fuel' (skipn totalBytes tcpBuffer) with
                | Some (msgs, rest) =>
                    Some (firstn totalBytes tcpBuffer :: msgs, rest)
                | None => None
                end
          end
      end
  end.

(** [_handleTcpData(data)] on the accumulation buffer, as far as the
    cutting goes: the messages cut off, in order, and the buffer that
    remains when every call of [_handleMessage] returns. *)
Definition _handleTcpData (tcpBuffer data : list Z)
    : option (list (list Z) * list Z) :=
  let tcpBuffer := tcpBuffer ++ data in
  frameLoop (length tcpBuffer) tcpBuffer.

(** *** The loop with its handler

    [_handleMessage] is called inside the loop, once the message is cut
    off the buffer, and nothing in [_handleTcpData] catches what it throws:
    an exception ends the loop and the method, and the bytes not yet
    looked at stay in [tcpBuffer].  [handler msg s] is the state of the
    agent after the call on [msg] in state [s], and whether the call
    returned. *)
Section Handler.

Variable State : Type.
Variable handler : list Z -> State -> State * bool.

(** The messages handed to the handler, the buffer that remains, the
    state, and whether the method returned. *)
Fixpoint frameLoopWith (fuel : nat) (tcpBuffer : list Z) (s : State)
    : option (list (list Z) * list Z * State * bool) :=
  match tcpBuffer with
  | [] => Some ([], [], s, true)
  | _ :: _ =>
      match fuel with
      | O => None
      | S fuel' =>
          let str := toStringUtf8 tcpBuffer in
          match indexOf CRLFCRLF str with
          | None => Some ([], tcpBuffer, s, true)
          | Some headerEnd =>
              let headerSection := substring0 str (Z.of_nat headerEnd) in
              let contentLength :=
                match clMatch headerSection with
                | Some n => n
                | None => 0
                end in
              let totalLength := Z.of_nat headerEnd + 4 + contentLength in
              let totalBytes := byteLength (substring0 str totalLength) in
              if (length tcpBuffer <? totalBytes)%nat
              then Some ([], tcpBuffer, s, true)
              else
                let msgBuf := firstn totalBytes tcpBuffer in
                let tcpBuffer' := skipn totalBytes tcpBuffer in
                let '(s1, returned) := handler msgBuf s in
                if returned then
                  match frameLoopWith fuel' tcpBuffer' s1 with
                  | Some (msgs, rest, s2, ok) =>
                      Some (msgBuf :: msgs, rest, s2, ok)
                  | None => None
                  end
                else Some ([msgBuf], tcpBuffer', s1, false)
          end
      end
  end.

(** [_handleTcpData(data)] in state [s]. *)
Definition _handleTcpDataWith (tcpBuffer data : list Z) (s : State)
    : option (list (list Z) * list Z * State * bool) :=
  let tcpBuffer := tcpBuffer ++ data in
  frameLoopWith (length tcpBuffer) tcpBuffer s.

(** The handler on the messages [msgs] one after the other, as long as it
    returns: the messages it was called on, those it was not called on,
    the state, and whether every call returned. *)
Fixpoint deliver (msgs : list (list Z)) (s : State)
    : list (list Z) * list (list Z) * State * bool :=
  match msgs with
  | [] => ([], [], s, true)
  | m :: msgs' =>
      let '(s1, returned) := handler m s in
      if returned then
        let '(handed, kept, s2, ok) := deliver msgs' s1 in
        (m :: handed, kept, s2, ok)
      else ([m], msgs', s1, false)
  end.

End Handler.

Arguments frameLoopWith {State} handler fuel tcpBuffer s.
Arguments _handleTcpDataWith {State} handler tcpBuffer data s.
Arguments deliver {State} handler msgs s.

(** *** Framed messages *)

Definition line (s : string) : list Z := bytesOf s ++ CRLF.

(** A message on a stream: start line, header lines, a Content-Length
    header that gives the number of bytes of the body, an empty line, the
    body. *)
Definition framed (startLine : string) (headers : list string)
    (body : list Z) : list Z :=
  line startLine ++ concat (map line headers)
  ++ line ("Content-Length: " +:+ pretty (Z.of_nat (length body)))
  ++ CRLF ++ body.

(** A 200 answer whose SDP names the session Cafe, with an e-acute, which
    takes the two bytes 0xC3 0xA9. *)
Definition answer200 : list Z :=
  framed "SIP/2.0 200 OK"
    ["Via: SIP/2.0/TCP 192.0.2.1:5060;branch=z9hG4bK1";
     "From: <sip:100@pbx>;tag=a"; "To: <sip:200@pbx>;tag=b";
     "Call-ID: c1"; "CSeq: 1 INVITE"; "Content-Type: application/sdp"]
    (line "v=0" ++ bytesOf "s=Caf" ++ [0xC3; 0xA9] ++ CRLF
     ++ line "c=IN IP4 203.0.113.5" ++ line "m=audio 40000 RTP/AVP 0").

Definition bye : list Z :=
  framed "BYE sip:100@192.0.2.1:5060 SIP/2.0"
    ["Via: SIP/2.0/TCP 203.0.113.5:5060;branch=z9hG4bK2";
     "From: <sip:200@pbx>;tag=b"; "To: <sip:100@pbx>;tag=a";
     "Call-ID: c1"; "CSeq: 2 BYE"] [].

Definition options : list Z :=
  framed "OPTIONS sip:100@192.0.2.1:5060 SIP/2.0"
    ["Via: SIP/2.0/TCP 203.0.113.5:5060;branch=z9hG4bK3";
     "From: <sip:pbx>;tag=p"; "To: <sip:100@pbx>";
     "Call-ID: c2"; "CSeq: 7 OPTIONS"] [].

(** *** The loop terminates: the fuel given by [_handleTcpData] suffices *)

Lemma byteLength_pos (u : Z) (str : list Z) : (1 <= byteLength (u :: str))%nat.
Proof.
  cbn [byteLength]. destruct str as [|v rest].
  - unfold unitBytes. repeat destruct (_ <? _); lia.
  - destruct (isHigh u && isLow v); [lia|].
    unfold unitBytes. repeat destruct (_ <? _); lia.
Qed.

Lemma startsWith_length (needle : list Z) :
  forall str, startsWith needle str = true ->
  (length needle <= length str)%nat.
Proof.
  induction needle as [|n needle IH]; intros str H; [cbn; lia|].
  destruct str as [|c str]; [discriminate H|].
  cbn in H. apply andb_prop in H as [_ H]. apply IH in H. cbn. lia.
Qed.

Lemma indexOf_bound (needle : list Z) (str : list Z) :
  forall i, indexOf needle str = Some i ->
  (i + length needle <= length str)%nat.
Proof.
  induction str as [|c str IH]; intros i H.
  - cbn [indexOf] in H. destruct (startsWith needle []) eqn:E; [|discriminate H].
    injection H as <-. apply startsWith_length in E. lia.
  - cbn [indexOf] in H. destruct (startsWith needle (c :: str)) eqn:E.
    + injection H as <-. apply startsWith_length in E. lia.
    + destruct (indexOf needle str) as [j|]; [|discriminate H].
      injection H as <-. specialize (IH j eq_refl). cbn [length]. lia.
Qed.

Lemma takeWhile_Forall (f : Z -> bool) (l : list Z) :
  Forall (fun x => f x = true) (takeWhile f l).
Proof.
  induction l as [|x l IH]; cbn; [constructor|].
  destruct (f x) eqn:E; constructor; assumption.
Qed.

Lemma parseDigits_nonneg (ds : list Z) :
  Forall (fun d => isDigit d = true) ds -> 0 <= parseDigits ds.
Proof.
  unfold parseDigits. intros H.
  enough (Hgen : forall acc, 0 <= acc ->
            0 <= fold_left (fun a d => a * 10 + (d - 48)) ds acc)
    by (apply Hgen; lia).
  induction H as [|d ds Hd _ IH]; intros acc Hacc; cbn [fold_left]; [exact Hacc|].
  apply IH. unfold isDigit in Hd. lia.
Qed.

Lemma clMatch_nonneg (str : list Z) (n : Z) : clMatch str = Some n -> 0 <= n.
Proof.
  induction str as [|c str IH]; cbn [clMatch]; [discriminate|].
  destruct (matchHere (c :: str)) as [m|] eqn:Hm; [|exact IH].
  intros [= <-]. unfold matchHere in Hm.
  destruct (startsWithCI _ _); [|discriminate Hm].
  pose proof (takeWhile_Forall isDigit
    (dropWhile isSpace (skipn (length CONTENT_LENGTH_COLON) (c :: str)))) as Hf.
  destruct (takeWhile _ _) as [|d ds]; [discriminate Hm|].
  injection Hm as <-. apply parseDigits_nonneg, Hf.
Qed.

Lemma frameLoop_total (fuel : nat) :
  forall tcpBuffer, (length tcpBuffer <= fuel)%nat ->
  exists r, frameLoop fuel tcpBuffer = Some r.
Proof.
  induction fuel as [|fuel IH]; intros buf Hlen.
  - destruct buf; [eexists; reflexivity | cbn in Hlen; lia].
  - destruct buf as [|b buf]; [eexists; reflexivity|].
    cbn [frameLoop].
    set (str := toStringUtf8 (b :: buf)).
    destruct (indexOf CRLFCRLF str) as [headerEnd|] eqn:Hidx;
      [|eexists; reflexivity].
    set (total := Z.of_nat headerEnd + 4 + _).
    destruct (length (b :: buf) <? byteLength (substring0 str total))%nat eqn:Hlt;
      [eexists; reflexivity|].
    apply Nat.ltb_ge in Hlt.
    assert (Hpos : (1 <= byteLength (substring0 str total))%nat).
    { apply indexOf_bound in Hidx. cbn [CRLFCRLF CRLF app length] in Hidx.
      unfold substring0.
      assert (Hcl : 0 <= total - (Z.of_nat headerEnd + 4)).
      { subst total. destruct (clMatch _) as [n|] eqn:Hm; [|lia].
        apply clMatch_nonneg in Hm. lia. }
      destruct str as [|u str']; [cbn in Hidx; lia|].
      destruct (Z.to_nat (Z.min total (Z.of_nat (length (u :: str'))))) eqn:En;
        [cbn [length] in *; lia|].
      cbn [firstn]. apply byteLength_pos. }
    destruct (IH (skipn (byteLength (substring0 str total)) (b :: buf)))
      as [[msgs rest] Hr].
    { rewrite length_skipn. cbn [length] in *. lia. }
    rewrite Hr. eexists; reflexivity.
Qed.

Lemma handleTcpData_total (tcpBuffer data : list Z) :
  exists r, _handleTcpData tcpBuffer data = Some r.
Proof. unfold _handleTcpData. apply frameLoop_total. lia. Qed.

(** Two ASCII messages in one read are delivered as they are. *)
Example options_then_bye :
  _handleTcpData [] (options ++ bye) = Some ([options; bye], []).
Proof. vm_compute. reflexivity. Qed.

(** *** ASCII messages are framed as they should be *)

Definition asciiBytes (bytes : list Z) : Prop :=
  Forall (fun b => 0 <= b <= 0x7F) bytes.

(** The number that the framer reads in a header section. *)
Definition contentLengthOf (headerSection : list Z) : Z :=
  match clMatch headerSection with
  | Some n => n
  | None => 0
  end.

(** An ASCII message whose header section ends at its first empty line and
    whose body has the length that the framer reads in that section. *)
Definition wellFramed (m : list Z) : Prop :=
  exists h body,
    m = h ++ CRLFCRLF ++ body /\
    indexOf CRLFCRLF (h ++ CRLFCRLF) = Some (length h) /\
    contentLengthOf h = Z.of_nat (length body) /\
    asciiBytes m.

Lemma toStringUtf8_ascii (bytes : list Z) :
  asciiBytes bytes -> toStringUtf8 bytes = bytes.
Proof.
  unfold toStringUtf8. induction 1 as [|b bytes Hb _ IH]; [reflexivity|].
  cbn [utf8DecodeFrom]. unfold leadByte.
  replace (b <=? 0x7F) with true by (symmetry; apply Z.leb_le; lia).
  cbn [app]. rewrite IH. reflexivity.
Qed.

Lemma byteLength_ascii (str : list Z) :
  asciiBytes str -> byteLength str = length str.
Proof.
  induction 1 as [|u str Hu Hs IH]; [reflexivity|].
  assert (Hone : unitBytes u = 1%nat).
  { unfold unitBytes. replace (u <? 0x80) with true; [reflexivity|].
    symmetry. apply Z.ltb_lt. lia. }
  cbn [byteLength length]. destruct str as [|v rest]; [exact Hone|].
  replace (isHigh u) with false
    by (symmetry; unfold isHigh; apply andb_false_intro1, Z.leb_gt; lia).
  cbn [andb]. rewrite Hone, IH. reflexivity.
Qed.

Lemma startsWith_app_long (needle : list Z) :
  forall str more, (length needle <= length str)%nat ->
  startsWith needle (str ++ more) = startsWith needle str.
Proof.
  induction needle as [|n needle IH]; intros str more Hlen; [reflexivity|].
  destruct str as [|c str]; [cbn in Hlen; lia|].
  cbn [app startsWith]. rewrite IH by (cbn in Hlen; lia). reflexivity.
Qed.

Lemma indexOf_app (needle str more : list Z) (i : nat) :
  indexOf needle str = Some i -> indexOf needle (str ++ more) = Some i.
Proof.
  revert i. induction str as [|c str IH]; intros i H.
  - cbn [indexOf] in H. destruct (startsWith needle []) eqn:E; [|discriminate H].
    injection H as <-. apply startsWith_length in E.
    destruct needle; [|cbn in E; lia].
    destruct more; reflexivity.
  - pose proof (indexOf_bound _ _ _ H) as Hb.
    cbn [indexOf] in H. cbn [app indexOf].
    change (c :: str ++ more) with ((c :: str) ++ more).
    rewrite startsWith_app_long by lia.
    destruct (startsWith needle (c :: str)); [exact H|].
    destruct (indexOf needle str) as [j|]; [|discriminate H].
    rewrite (IH j eq_refl). exact H.
Qed.

Lemma substring0_app (a b : list Z) :
  substring0 (a ++ b) (Z.of_nat (length a)) = a.
Proof.
  unfold substring0. rewrite length_app.
  replace (Z.to_nat _) with (length a) by lia.
  rewrite firstn_app, Nat.sub_diag, firstn_all. cbn. apply app_nil_r.
Qed.

(** One pass on a buffer that starts with a well-framed message delivers
    that message and goes on with what follows it. *)
Lemma frameLoop_wellFramed (fuel : nat) (m more : list Z) :
  wellFramed m -> asciiBytes more ->
  frameLoop (S fuel) (m ++ more) =
  match frameLoop fuel more with
  | Some (msgs, rest) => Some (m :: msgs, rest)
  | None => None
  end.
Proof.
  intros (h & body & -> & Hidx & Hcl & Hascii) Hmore.
  assert (Hall : asciiBytes ((h ++ CRLFCRLF ++ body) ++ more))
    by (apply Forall_app; auto).
  set (m := h ++ CRLFCRLF ++ body) in *.
  assert (Hne : exists b bs, m ++ more = b :: bs).
  { subst m. destruct h; cbn; eauto. }
  destruct Hne as (b & bs & Hbuf). rewrite Hbuf. cbn [frameLoop].
  rewrite <- Hbuf. rewrite (toStringUtf8_ascii _ Hall).
  assert (Hidx' : indexOf CRLFCRLF (m ++ more) = Some (length h)).
  { subst m. replace ((h ++ CRLFCRLF ++ body) ++ more)
      with ((h ++ CRLFCRLF) ++ (body ++ more))
      by (rewrite <- !app_assoc; reflexivity).
    apply indexOf_app, Hidx. }
  rewrite Hidx'.
  assert (Hhead : substring0 (m ++ more) (Z.of_nat (length h)) = h).
  { subst m. rewrite <- app_assoc. apply substring0_app. }
  rewrite Hhead. fold (contentLengthOf h). rewrite Hcl.
  assert (Htotal : Z.of_nat (length h) + 4 + Z.of_nat (length body)
                   = Z.of_nat (length m)).
  { subst m. rewrite !length_app. cbn [CRLFCRLF CRLF app length]. lia. }
  rewrite Htotal, substring0_app, (byteLength_ascii _ Hascii).
  replace (length (m ++ more) <? length m)%nat with false
    by (symmetry; apply Nat.ltb_ge; rewrite length_app; lia).
  rewrite skipn_app, Nat.sub_diag, skipn_all. cbn [app skipn].
  rewrite firstn_app, Nat.sub_diag, firstn_all. cbn [firstn].
  rewrite app_nil_r. reflexivity.
Qed.

(** Two well-framed ASCII messages in one data event, on an empty buffer,
    are delivered as they are, and nothing remains. *)
Lemma framer_ascii_pair (m1 m2 : list Z) :
  wellFramed m1 -> wellFramed m2 ->
  _handleTcpData [] (m1 ++ m2) = Some ([m1; m2], []).
Proof.
  intros H1 H2. unfold _handleTcpData. cbn [app].
  assert (Ha2 : asciiBytes m2) by (destruct H2 as (? & ? & _ & _ & _ & H); exact H).
  assert (Hlen : (2 <= length (m1 ++ m2))%nat).
  { destruct H1 as (h1 & b1 & -> & _), H2 as (h2 & b2 & -> & _).
    rewrite !length_app. cbn [CRLFCRLF CRLF app length]. lia. }
  destruct (length (m1 ++ m2)) as [|[|fuel]]; try lia.
  rewrite (frameLoop_wellFramed _ m1 m2 H1 Ha2).
  rewrite <- (app_nil_r m2) at 1.
  rewrite (frameLoop_wellFramed _ m2 [] H2 ltac:(constructor)).
  destruct fuel; reflexivity.
Qed.

Lemma asciiBytes_check (bytes : list Z) :
  forallb (fun b => (0 <=? b) && (b <=? 0x7F)) bytes = true -> asciiBytes bytes.
Proof.
  induction bytes as [|b bytes IH]; intros H; constructor;
    cbn [forallb] in H; apply andb_prop in H as [Hb H].
  - apply andb_prop in Hb as [H0 H1]. lia.
  - exact (IH H).
Qed.



(** C7, evaluated on the code: [answer200] has a body of 61 bytes and says
    so, but the body is 60 UTF-16 code units long.  The framer adds the 61
    to a character index, so the first message delivered is [answer200]
    with the first byte of [bye] appended, and the second is [bye] without
    its first byte. *)
Theorem framer_counts_characters :
  _handleTcpData [] (answer200 ++ bye)
    = Some ([answer200 ++ [66]; tl bye], []) /\
  _handleTcpData [] (answer200 ++ bye) <> Some ([answer200; bye], []).
Proof. split; vm_compute; [reflexivity | discriminate]. Qed.

(** *** What the framer keeps, and when it waits *)

Lemma frameLoop_keeps (fuel : nat) :
  forall tcpBuffer msgs rest,
  frameLoop fuel tcpBuffer = Some (msgs, rest) ->
  concat msgs ++ rest = tcpBuffer /\ Forall (fun m => m <> []) msgs.
Proof.
  induction fuel as [|fuel IH]; intros buf msgs rest H.
  - destruct buf; [|discriminate H]. injection H as <- <-. split; [reflexivity|constructor].
  - destruct buf as [|b buf]; [injection H as <- <-; split; [reflexivity|constructor]|].
    cbn [frameLoop] in H.
    set (str := toStringUtf8 (b :: buf)) in *.
    destruct (indexOf CRLFCRLF str) as [headerEnd|] eqn:Hidx;
      [|injection H as <- <-; split; [reflexivity|constructor]].
    set (total := Z.of_nat headerEnd + 4 + _) in *.
    destruct (length (b :: buf) <? byteLength (substring0 str total))%nat eqn:Hlt;
      [injection H as <- <-; split; [reflexivity|constructor]|].
    apply Nat.ltb_ge in Hlt.
    destruct (frameLoop fuel (skipn (byteLength (substring0 str total)) (b :: buf)))
      as [[msgs' rest']|] eqn:Hr; [|discriminate H].
    injection H as <- <-.
    destruct (IH _ _ _ Hr) as [Hc Hne].
    split.
    + cbn [concat]. rewrite <- app_assoc, Hc. apply firstn_skipn.
    + constructor; [|exact Hne].
      assert (Hpos : (1 <= byteLength (substring0 str total))%nat).
      { apply indexOf_bound in Hidx. cbn [CRLFCRLF CRLF app length] in Hidx.
        unfold substring0.
        assert (Hcl : 0 <= total - (Z.of_nat headerEnd + 4)).
        { subst total. destruct (clMatch _) as [n|] eqn:Hm; [|lia].
          apply clMatch_nonneg in Hm. lia. }
        destruct str as [|u str']; [cbn in Hidx; lia|].
        destruct (Z.to_nat (Z.min total (Z.of_nat (length (u :: str'))))) eqn:En;
          [cbn [length] in *; lia|].
        cbn [firstn]. apply byteLength_pos. }
      intros Hnil. apply (f_equal (@length Z)) in Hnil.
      rewrite length_firstn in Hnil. cbn [length] in *. lia.
Qed.

(** X12: the framer terminates on every input, and it neither loses nor
    invents a byte: the messages it delivers, put end to end and followed
    by the buffer that it keeps, are the buffer it had followed by the data
    that came; no message delivered is empty. *)
Theorem framer_keeps_every_byte (tcpBuffer data : list Z) :
  exists msgs rest,
    _handleTcpData tcpBuffer data = Some (msgs, rest) /\
    concat msgs ++ rest = tcpBuffer ++ data /\
    Forall (fun m => m <> []) msgs.
Proof.
  destruct (handleTcpData_total tcpBuffer data) as [[msgs rest] H].
  exists msgs, rest. split; [exact H|].
  unfold _handleTcpData in H. exact (frameLoop_keeps _ _ _ _ H).
Qed.



Lemma deliver_keeps {State : Type}
    (handler : list Z -> State -> State * bool) (msgs : list (list Z)) :
  forall s handed kept s' ok,
  deliver handler msgs s = (handed, kept, s', ok) ->
  handed ++ kept = msgs /\ (ok = true -> kept = []).
Proof.
  induction msgs as [|m msgs IH]; intros s handed kept s' ok H.
  - injection H as <- <- _ <-. auto.
  - cbn [deliver] in H. destruct (handler m s) as [s1 [|]].
    + destruct (deliver handler msgs s1) as [[[h k] s2] o] eqn:E.
      injection H as <- <- _ <-. destruct (IH _ _ _ _ _ E) as [<- Hk].
      auto.
    + injection H as <- <- _ <-. split; [reflexivity|discriminate].
Qed.








(** A handler that counts its calls and throws on a BYE. *)
Definition countingHandler (m : list Z) (n : nat) : nat * bool :=
  (S n, match m with 66 :: _ => false | _ => true end).


(** The message kept is handed over on the next data event. *)
Example kept_message_is_delayed :
  _handleTcpDataWith countingHandler [] (concat [options; bye; options]) O
    = Some ([options; bye], options, 2%nat, false)
  /\ _handleTcpDataWith countingHandler options options 2%nat
     = Some ([options; options], [], 4%nat, true).
Proof. split; vm_compute; reflexivity. Qed.





(** X15: once the empty line has arrived the framer does not wait for the
    body.  An ASCII message whose Content-Length announces more than has
    arrived is delivered as it stands, cut short, and the buffer is left
    empty, so that the rest of the body will be read as the start of
    another message. *)
Theorem framer_does_not_wait_for_body (h part : list Z) :
  asciiBytes (h ++ CRLFCRLF ++ part) ->
  indexOf CRLFCRLF (h ++ CRLFCRLF) = Some (length h) ->
  Z.of_nat (length part) < contentLengthOf h ->
  _handleTcpData [] (h ++ CRLFCRLF ++ part)
    = Some ([h ++ CRLFCRLF ++ part], []).
Proof.
  intros Hascii Hidx Hcl. unfold _handleTcpData. cbn [app].
  set (m := h ++ CRLFCRLF ++ part) in *.
  assert (Hlen : length m = S (length h + 3 + length part)).
  { subst m. rewrite !length_app. cbn [CRLFCRLF CRLF app length]. lia. }
  assert (Hne : exists x m', m = x :: m').
  { destruct m as [|x m']; [discriminate Hlen | eauto]. }
  destruct Hne as (x & m' & Hbuf).
  rewrite Hlen. rewrite Hbuf at 1. cbn [frameLoop]. rewrite <- Hbuf.
  rewrite (toStringUtf8_ascii _ Hascii).
  assert (Hidx' : indexOf CRLFCRLF m = Some (length h)).
  { subst m.
    replace (h ++ CRLFCRLF ++ part) with ((h ++ CRLFCRLF) ++ part)
      by (rewrite <- app_assoc; reflexivity).
    apply indexOf_app, Hidx. }
  rewrite Hidx'.
  assert (Hhead : substring0 m (Z.of_nat (length h)) = h).
  { subst m. apply substring0_app. }
  rewrite Hhead. fold (contentLengthOf h).
  assert (Hall : substring0 m (Z.of_nat (length h) + 4 + contentLengthOf h) = m).
  { unfold substring0. rewrite Z.min_r by lia.
    rewrite Nat2Z.id. apply firstn_all. }
  rewrite Hall, (byteLength_ascii _ Hascii), Nat.ltb_irrefl.
  rewrite skipn_all, firstn_all.
  destruct (length h + 3 + length part)%nat; reflexivity.
Qed.

(** A request that announces a body of ten bytes, of which five have
    arrived. *)
Definition cutShort : list Z :=
  line "MESSAGE sip:100@192.0.2.1 SIP/2.0" ++ bytesOf "Content-Length: 10"
  ++ CRLFCRLF ++ bytesOf "hello".

Lemma framer_does_not_wait_for_body_witness :
  _handleTcpData [] cutShort = Some ([cutShort], []).
Proof.
  apply (framer_does_not_wait_for_body
           (line "MESSAGE sip:100@192.0.2.1 SIP/2.0"
            ++ bytesOf "Content-Length: 10") (bytesOf "hello")).
  - apply asciiBytes_check. vm_compute. reflexivity.
  - vm_compute. reflexivity.
  - vm_compute. reflexivity.
Defined.

(** The five bytes that follow are then kept as the start of a message. *)
Example rest_of_body_is_kept :
  _handleTcpData [] (bytesOf "world") = Some ([], bytesOf "world").
Proof. vm_compute. reflexivity. Qed.

End Framer.

(** ** Text helpers

    Header text is taken to be ASCII; the classes [\w] and [\s] of the
    regular expressions are their ASCII parts. *)

Module Text.

Definition code (c : Ascii.ascii) : Z := Z.of_N (Ascii.N_of_ascii c).

Definition isWord (c : Ascii.ascii) : bool :=
  let n := code c in
  (48 <=? n) && (n <=? 57) || (65 <=? n) && (n <=? 90)
  || (97 <=? n) && (n <=? 122) || (n =? 95).

Definition isSpace (c : Ascii.ascii) : bool :=
  let n := code c in (9 <=? n) && (n <=? 13) || (n =? 32).

(** The line terminators that [.] does not match. *)
Definition isNewline (c : Ascii.ascii) : bool :=
  let n := code c in (n =? 10) || (n =? 13).

Definition dquote : Ascii.ascii := Ascii.ascii_of_nat 34.
Definition isQuote (c : Ascii.ascii) : bool := code c =? 34.
Definition isComma (c : Ascii.ascii) : bool := code c =? 44.

(** The longest prefix whose characters satisfy [f], and what follows. *)
Fixpoint span (f : Ascii.ascii -> bool) (s : string) : string * string :=
  match s with
  | EmptyString => ("", "")
  | String c s' =>
      if f c then let '(a, b) := span f s' in (String c a, b)
      else ("", s)
  end.

Fixpoint existsChar (f : Ascii.ascii -> bool) (s : string) : bool :=
  match s with
  | EmptyString => false
  | String c s' => f c || existsChar f s'
  end.

(** [s.startsWith(p)]. *)
Fixpoint startsWith (p s : string) : bool :=
  match p, s with
  | EmptyString, _ => true
  | String _ _, EmptyString => false
  | String a p', String b s' => (code a =? code b) && startsWith p' s'
  end.

(** [s] without its first [n] characters. *)
Fixpoint drop (n : nat) (s : string) : string :=
  match n, s with
  | O, _ => s
  | S _, EmptyString => ""
  | S k, String _ s' => drop k s'
  end.

(** The capture of the leftmost match of [prefix([^...]+)], where the
    class is given by [inClass]. *)
Fixpoint captureAfter (prefix : string) (inClass : Ascii.ascii -> bool)
    (s : string) : option string :=
  match s with
  | EmptyString => None
  | String _ s' =>
      if startsWith prefix s then
        match fst (span inClass (drop (String.length prefix) s)) with
        | EmptyString => captureAfter prefix inClass s'
        | v => Some v
        end
      else captureAfter prefix inClass s'
  end.

(** [s] between double quotes. *)
Definition quoted (s : string) : string :=
  String dquote (s +:+ String dquote "").

Definition CRLF : string :=
  String (Ascii.ascii_of_nat 13) (String (Ascii.ascii_of_nat 10) "").

Lemma length_append (s t : string) :
  String.length (s +:+ t) = (String.length s + String.length t)%nat.
Proof.
  induction s as [|c s IH]; [reflexivity|].
  change (String c s +:+ t) with (String c (s +:+ t)).
  cbn [String.length Nat.add]. f_equal. exact IH.
Qed.

(** Text is determined by what precedes a given ending. *)
Lemma append_inj_r (t : string) :
  forall s1 s2, s1 +:+ t = s2 +:+ t -> s1 = s2.
Proof.
  induction s1 as [|a s1 IH]; intros [|b s2] H.
  - reflexivity.
  - apply (f_equal String.length) in H.
    rewrite (length_append (String b s2)) in H.
    change ("" +:+ t) with t in H. cbn [String.length] in H. lia.
  - apply (f_equal String.length) in H.
    rewrite (length_append (String a s1)) in H.
    change ("" +:+ t) with t in H. cbn [String.length] in H. lia.
  - change (String a (s1 +:+ t) = String b (s2 +:+ t)) in H.
    injection H as -> H. rewrite (IH _ H). reflexivity.
Qed.

End Text.

(** ** Digest authentication: parseAuthHeader, computeDigestResponse,
    buildAuthorizationHeader *)

(** [crypto.createHash('md5').update(s).digest('hex')], after RFC 1321. *)
Module MD5.

Definition w32 (x : Z) : Z := x mod 2 ^ 32.

Definition rotl (x c : Z) : Z :=
  w32 (Z.lor (Z.shiftl x c) (Z.shiftr x (32 - c))).

Definition shifts : list Z :=
  concat (map (fun r => r ++ r ++ r ++ r)
    [[7; 12; 17; 22]; [5; 9; 14; 20]; [4; 11; 16; 23]; [6; 10; 15; 21]]).

Definition sines : list Z :=
  [0xd76aa478; 0xe8c7b756; 0x242070db; 0xc1bdceee;
   0xf57c0faf; 0x4787c62a; 0xa8304613; 0xfd469501;
   0x698098d8; 0x8b44f7af; 0xffff5bb1; 0x895cd7be;
   0x6b901122; 0xfd987193; 0xa679438e; 0x49b40821;
   0xf61e2562; 0xc040b340; 0x265e5a51; 0xe9b6c7aa;
   0xd62f105d; 0x02441453; 0xd8a1e681; 0xe7d3fbc8;
   0x21e1cde6; 0xc33707d6; 0xf4d50d87; 0x455a14ed;
   0xa9e3e905; 0xfcefa3f8; 0x676f02d9; 0x8d2a4c8a;
   0xfffa3942; 0x8771f681; 0x6d9d6122; 0xfde5380c;
   0xa4beea44; 0x4bdecfa9; 0xf6bb4b60; 0xbebfbc70;
   0x289b7ec6; 0xeaa127fa; 0xd4ef3085; 0x04881d05;
   0xd9d4d039; 0xe6db99e5; 0x1fa27cf8; 0xc4ac5665;
   0xf4292244; 0x432aff97; 0xab9423a7; 0xfc93a039;
   0x655b59c3; 0x8f0ccc92; 0xffeff47d; 0x85845dd1;
   0x6fa87e4f; 0xfe2ce6e0; 0xa3014314; 0x4e0811a1;
   0xf7537e82; 0xbd3af235; 0x2ad7d2bb; 0xeb86d391].

Definition state : Type := Z * Z * Z * Z.

Definition operation (M : list Z) (st : state) (i : nat) : state :=
  let '(a, b, c, d) := st in
  let iz := Z.of_nat i in
  let '(f, g) :=
    if iz <? 16 then
      (Z.lor (Z.land b c) (Z.land (w32 (Z.lnot b)) d), iz)
    else if iz <? 32 then
      (Z.lor (Z.land d b) (Z.land (w32 (Z.lnot d)) c), (5 * iz + 1) mod 16)
    else if iz <? 48 then
      (Z.lxor (Z.lxor b c) d, (3 * iz + 5) mod 16)
    else
      (Z.lxor c (Z.lor b (w32 (Z.lnot d))), (7 * iz) mod 16) in
  let f := w32 (f + a + nth i sines 0 + nth (Z.to_nat g) M 0) in
  (d, w32 (b + rotl f (nth i shifts 0)), b, c).

(** Little-endian 32-bit words of a block. *)
Fixpoint words (bytes : list Z) : list Z :=
  match bytes with
  | b0 :: b1 :: b2 :: b3 :: rest =>
      (b0 + 2 ^ 8 * b1 + 2 ^ 16 * b2 + 2 ^ 24 * b3) :: words rest
  | _ => []
  end.

Definition block (st : state) (bytes : list Z) : state :=
  let '(a0, b0, c0, d0) := st in
  let '(a, b, c, d) := fold_left (operation (words bytes)) (seq 0 64) st in
  (w32 (a0 + a), w32 (b0 + b), w32 (c0 + c), w32 (d0 + d)).

Fixpoint blocks (n : nat) (st : state) (bytes : list Z) : state :=
  match n with
  | O => st
  | S k => blocks k (block st (firstn 64 bytes)) (skipn 64 bytes)
  end.

Definition le (n : nat) (x : Z) : list Z :=
  map (fun k => (x / 2 ^ (8 * Z.of_nat k)) mod 256) (seq 0 n).

Definition pad (msg : list Z) : list Z :=
  let len := Z.of_nat (length msg) in
  msg ++ [0x80] ++ repeat 0 (Z.to_nat ((55 - len) mod 64)) ++ le 8 (8 * len).

Definition digest (msg : list Z) : list Z :=
  let padded := pad msg in
  let '(a, b, c, d) :=
    blocks (length padded / 64)
           (0x67452301, 0xefcdab89, 0x98badcfe, 0x10325476) padded in
  le 4 a ++ le 4 b ++ le 4 c ++ le 4 d.

Definition hexDigit (x : Z) : Ascii.ascii :=
  Ascii.ascii_of_N (Z.to_N (if x <? 10 then 48 + x else 87 + x)).

Fixpoint hex (bytes : list Z) : string :=
  match bytes with
  | [] => ""
  | b :: rest => String (hexDigit (b / 16)) (String (hexDigit (b mod 16)) (hex rest))
  end.

Definition md5hex (s : string) : string := hex (digest (bytesOf s)).

(** The test suite of RFC 1321, and inputs of one and two blocks. *)
Example md5_empty : md5hex "" = "d41d8cd98f00b204e9800998ecf8427e".
Proof. vm_compute. reflexivity. Qed.
Example md5_abc : md5hex "abc" = "900150983cd24fb0d6963f7d28e17f72".
Proof. vm_compute. reflexivity. Qed.
Example md5_message_digest :
  md5hex "message digest" = "f96b697d7cb7938d525a2f31aaf161d0".
Proof. vm_compute. reflexivity. Qed.
Example md5_two_blocks :
  md5hex ("1234567890123456789012345678901234567890"
          +:+ "1234567890123456789012345678901234567890")
  = "57edf4a22be3c955ac49da2e2107b67a".
Proof. vm_compute. reflexivity. Qed.

End MD5.

Module Digest.

Import Text.

(** One match, at the head of [s], of the expression of [parseAuthHeader]:
    a word, an equals sign, then either a non-empty text between double
    quotes or a non-empty run without space and comma.  The result is the
    key, the value ([m[2] || m[3]]) and the length of the match. *)
Definition matchParam (s : string) : option (string * string * nat) :=
  let '(key, r) := span isWord s in
  match key, r with
  | String _ _, String eq r' =>
      if code eq =? 61 then
        let quoted :=
          match r' with
          | String q r'' =>
              if isQuote q then
                let '(v, r3) := span (fun c => negb (isQuote c)) r'' in
                match v, r3 with
                | String _ _, String q' _ =>
                    if isQuote q' then Some v else None
                | _, _ => None
                end
              else None
          | EmptyString => None
          end in
        match quoted with
        | Some v =>
            Some (key, v, (String.length key + String.length v + 3)%nat)
        | None =>
            let '(v, _) :=
              span (fun c => negb (isSpace c || isComma c)) r' in
            match v with
            | String _ _ =>
                Some (key, v, (String.length key + String.length v + 1)%nat)
            | EmptyString => None
            end
        end
      else None
  | _, _ => None
  end.

(** The [while ((m = re.exec(params)))] loop: [skip] characters belong to
    the match found last. *)
Fixpoint scanParams (skip : nat) (s : string) (result : gmap string string)
    : gmap string string :=
  match s with
  | EmptyString => result
  | String _ s' =>
      match skip with
      | S k => scanParams k s' result
      | O =>
          match matchParam s with
          | Some (key, v, len) => scanParams (len - 1) s' (<[key := v]> result)
          | None => scanParams 0 s' result
          end
      end
  end.

(** [parseAuthHeader(header)]: a scheme word, white space, and parameters
    on one line.  [None] when the header does not have this form: the match
    is null and reading [match[1]] raises a TypeError. *)
Definition parseAuthHeader (header : string) : option (gmap string string) :=
  let '(scheme, r) := span isWord header in
  let '(ws, params) := span isSpace r in
  match scheme, ws with
  | String _ _, String _ _ =>
      if existsChar isNewline params then None
      else Some (scanParams 0 params (<["scheme" := scheme]> ∅))
  | _, _ => None
  end.

(** A property read in a template literal. *)
Definition prop (auth : gmap string string) (key : string) : string :=
  match auth !! key with
  | Some v => v
  | None => "undefined"
  end.

Section Hash.

(** The hash, as a function from text to hexadecimal text. *)
Variable md5 : string -> string.

Definition computeDigestResponse (auth : gmap string string)
    (method uri username password : string) : string :=
  let ha1 := md5 (username +:+ ":" +:+ prop auth "realm" +:+ ":" +:+ password) in
  let ha2 := md5 (method +:+ ":" +:+ uri) in
  let response := md5 (ha1 +:+ ":" +:+ prop auth "nonce" +:+ ":" +:+ ha2) in
  response.

Definition buildAuthorizationHeader (auth : gmap string string)
    (method uri username password : string) : string :=
  let response := computeDigestResponse auth method uri username password in
  "Digest username=" +:+ quoted username
  +:+ ", realm=" +:+ quoted (prop auth "realm")
  +:+ ", nonce=" +:+ quoted (prop auth "nonce")
  +:+ ", uri=" +:+ quoted uri
  +:+ ", response=" +:+ quoted response
  +:+ ", algorithm=MD5".

(** C8: the response is MD5(HA1:nonce:HA2) with HA1 = MD5(user:realm:
    password) and HA2 = MD5(method:uri), and the header quotes, as [uri],
    the very string hashed in HA2. *)
Theorem digest_response (auth : gmap string string)
    (username realm password nonce method uri : string) :
  auth !! "realm" = Some realm ->
  auth !! "nonce" = Some nonce ->
  let HA1 := md5 (username +:+ ":" +:+ realm +:+ ":" +:+ password) in
  let HA2 := md5 (method +:+ ":" +:+ uri) in
  computeDigestResponse auth method uri username password
    = md5 (HA1 +:+ ":" +:+ nonce +:+ ":" +:+ HA2) /\
  buildAuthorizationHeader auth method uri username password
    = "Digest username=" +:+ quoted username
      +:+ ", realm=" +:+ quoted realm
      +:+ ", nonce=" +:+ quoted nonce
      +:+ ", uri=" +:+ quoted uri
      +:+ ", response=" +:+ quoted (md5 (HA1 +:+ ":" +:+ nonce +:+ ":" +:+ HA2))
      +:+ ", algorithm=MD5".
Proof.
  intros Hr Hn HA1 HA2.
  unfold buildAuthorizationHeader, computeDigestResponse, prop.
  rewrite Hr, Hn. split; reflexivity.
Qed.

End Hash.

(** The challenge of a registrar, as received. *)
Definition challenge0 : string :=
  "Digest realm=" +:+ quoted "asterisk" +:+ ", nonce=" +:+ quoted "abc123".

Definition auth0 : gmap string string :=
  <["nonce" := "abc123"]> (<["realm" := "asterisk"]> (<["scheme" := "Digest"]> ∅)).

Example parse_challenge0 : parseAuthHeader challenge0 = Some auth0.
Proof. vm_compute. reflexivity. Qed.

Lemma digest_response_witness :
  let HA1 := MD5.md5hex ("u" +:+ ":" +:+ "asterisk" +:+ ":" +:+ "p") in
  let HA2 := MD5.md5hex ("REGISTER" +:+ ":" +:+ "sip:pbx") in
  computeDigestResponse MD5.md5hex auth0 "REGISTER" "sip:pbx" "u" "p"
    = MD5.md5hex (HA1 +:+ ":" +:+ "abc123" +:+ ":" +:+ HA2) /\
  buildAuthorizationHeader MD5.md5hex auth0 "REGISTER" "sip:pbx" "u" "p"
    = "Digest username=" +:+ quoted "u"
      +:+ ", realm=" +:+ quoted "asterisk"
      +:+ ", nonce=" +:+ quoted "abc123"
      +:+ ", uri=" +:+ quoted "sip:pbx"
      +:+ ", response="
      +:+ quoted (MD5.md5hex (HA1 +:+ ":" +:+ "abc123" +:+ ":" +:+ HA2))
      +:+ ", algorithm=MD5".
Proof.
  exact (digest_response MD5.md5hex auth0 "u" "asterisk" "p" "abc123"
           "REGISTER" "sip:pbx" eq_refl eq_refl).
Defined.

(** The first scenario of the specification, evaluated. *)
Example scenario_register_digest :
  computeDigestResponse MD5.md5hex auth0 "REGISTER" "sip:pbx" "u" "p"
  = "64a279d364e1736be1ea27f76fbc960b".
Proof. vm_compute. reflexivity. Qed.

End Digest.

(** ** SipUA: registration, calls and the handling of incoming messages

    The events emitted to the shell (log, status, callState, remoteAudio) do
    not feed back into the agent and are left out; what a method does to
    the outside is the list of messages it hands to the transport. *)

Module Sip.

Import Text.

Inductive Transport := UDP | TCP | TLS.

Record Config := mkConfig {
  server : string;
  port : Z;
  extension : string;
  password : string;
  displayName : string;
  transport : Transport;
}.

(** A header of a parsed message: one value, or the array that
    [parseSipMessage] builds when the name is repeated. *)
Inductive hval :=
| HStr (s : string)
| HArr (l : list string).

(** A value substituted in a template literal. *)
Definition tpl (v : option hval) : string :=
  match v with
  | None => "undefined"
  | Some (HStr s) => s
  | Some (HArr l) => String.concat "," l
  end.

Definition truthy (v : option hval) : bool :=
  match v with
  | None => false
  | Some (HStr s) => negb (String.eqb s "")
  | Some (HArr _) => true
  end.

(** [a || b]. *)
Definition orElse (a b : option hval) : option hval :=
  if truthy a then a else b.

(** The result of [parseSipMessage]: a response has a status code and a
    reason phrase, a request a method and a URI. *)
Record Message := mkMessage {
  statusCode : Z;
  reasonPhrase : string;
  method : string;
  uri : string;
  headers : gmap string hval;
  body : string;
}.

(** A message built by the agent: the start line, the header lines in
    order, each a name and the value that follows the colon and the
    space, and the body. *)
Record Wire := mkWire {
  startLine : string;
  lines : list (string * string);
  payload : string;
}.

(** The text handed to [_send]. *)
Definition render (w : Wire) : string :=
  startLine w +:+ CRLF
  +:+ String.concat "" (map (fun l => fst l +:+ ": " +:+ snd l +:+ CRLF) (lines w))
  +:+ CRLF +:+ payload w.

(** The value of the first header line called [name]. *)
Definition header (name : string) (w : Wire) : option string :=
  match List.filter (fun l => String.eqb (fst l) name) (lines w) with
  | l :: _ => Some (snd l)
  | [] => None
  end.

Definition isRegister (w : Wire) : bool := startsWith "REGISTER " (startLine w).

Inductive CallState := Calling | Ringing | RingingIn | Active.

(** [this.call]. *)
Module Call.
Record t := mk {
  callId : option hval;
  fromTag : option string;
  toTag : option string;
  localTag : option string;
  targetUri : option string;
  target : string;
  rtpEngine : option Rtp.RtpEngine;
  rtpPort : Z;
  state : CallState;
  cseq : Z;
  branch : option string;
  localSdp : option string;
  remoteSdp : option string;
  incomingVia : option hval;
  incomingFrom : option hval;
  incomingTo : option hval;
  incomingCSeq : option Z;
  sourceAddress : option string;
  sourcePort : option Z;
}.

Definition set_toTag (v : option string) (x : t) : t :=
  mk (callId x) (fromTag x) v (localTag x) (targetUri x) (target x) (rtpEngine x) (rtpPort x) (state x) (cseq x) (branch x) (localSdp x) (remoteSdp x) (incomingVia x) (incomingFrom x) (incomingTo x) (incomingCSeq x) (sourceAddress x) (sourcePort x).
Definition set_rtpEngine (v : option Rtp.RtpEngine) (x : t) : t :=
  mk (callId x) (fromTag x) (toTag x) (localTag x) (targetUri x) (target x) v (rtpPort x) (state x) (cseq x) (branch x) (localSdp x) (remoteSdp x) (incomingVia x) (incomingFrom x) (incomingTo x) (incomingCSeq x) (sourceAddress x) (sourcePort x).
Definition set_rtpPort (v : Z) (x : t) : t :=
  mk (callId x) (fromTag x) (toTag x) (localTag x) (targetUri x) (target x) (rtpEngine x) v (state x) (cseq x) (branch x) (localSdp x) (remoteSdp x) (incomingVia x) (incomingFrom x) (incomingTo x) (incomingCSeq x) (sourceAddress x) (sourcePort x).
Definition set_state (v : CallState) (x : t) : t :=
  mk (callId x) (fromTag x) (toTag x) (localTag x) (targetUri x) (target x) (rtpEngine x) (rtpPort x) v (cseq x) (branch x) (localSdp x) (remoteSdp x) (incomingVia x) (incomingFrom x) (incomingTo x) (incomingCSeq x) (sourceAddress x) (sourcePort x).
Definition set_cseq (v : Z) (x : t) : t :=
  mk (callId x) (fromTag x) (toTag x) (localTag x) (targetUri x) (target x) (rtpEngine x) (rtpPort x) (state x) v (branch x) (localSdp x) (remoteSdp x) (incomingVia x) (incomingFrom x) (incomingTo x) (incomingCSeq x) (sourceAddress x) (sourcePort x).
Definition set_branch (v : option string) (x : t) : t :=
  mk (callId x) (fromTag x) (toTag x) (localTag x) (targetUri x) (target x) (rtpEngine x) (rtpPort x) (state x) (cseq x) v (localSdp x) (remoteSdp x) (incomingVia x) (incomingFrom x) (incomingTo x) (incomingCSeq x) (sourceAddress x) (sourcePort x).
Definition set_localSdp (v : option string) (x : t) : t :=
  mk (callId x) (fromTag x) (toTag x) (localTag x) (targetUri x) (target x) (rtpEngine x) (rtpPort x) (state x) (cseq x) (branch x) v (remoteSdp x) (incomingVia x) (incomingFrom x) (incomingTo x) (incomingCSeq x) (sourceAddress x) (sourcePort x).
Definition set_remoteSdp (v : option string) (x : t) : t :=
  mk (callId x) (fromTag x) (toTag x) (localTag x) (targetUri x) (target x) (rtpEngine x) (rtpPort x) (state x) (cseq x) (branch x) (localSdp x) v (incomingVia x) (incomingFrom x) (incomingTo x) (incomingCSeq x) (sourceAddress x) (sourcePort x).
End Call.

(** The fields of the agent.  A socket or timer field records whether the
    handle is set ([registerRetryTimer]: whether a timeout is pending);
    [draws] counts the random strings drawn so far. *)
Record SipUA := mkSipUA {
  config : Config;
  udpSocket : bool;
  tcpSocket : bool;
  tcpConnected : bool;
  localIp : option string;
  localPort : Z;
  registered : bool;
  registerTimer : bool;
  localTag : string;
  registerCallId : string;
  registerCSeq : Z;
  registerRetryTimer : bool;
  registerRetryCount : Z;
  call : option Call.t;
  draws : nat;
}.

Definition set_udpSocket (v : bool) (x : SipUA) : SipUA :=
  mkSipUA (config x) v (tcpSocket x) (tcpConnected x) (localIp x) (localPort x) (registered x) (registerTimer x) (localTag x) (registerCallId x) (registerCSeq x) (registerRetryTimer x) (registerRetryCount x) (call x) (draws x).
Definition set_tcpSocket (v : bool) (x : SipUA) : SipUA :=
  mkSipUA (config x) (udpSocket x) v (tcpConnected x) (localIp x) (localPort x) (registered x) (registerTimer x) (localTag x) (registerCallId x) (registerCSeq x) (registerRetryTimer x) (registerRetryCount x) (call x) (draws x).
Definition set_tcpConnected (v : bool) (x : SipUA) : SipUA :=
  mkSipUA (config x) (udpSocket x) (tcpSocket x) v (localIp x) (localPort x) (registered x) (registerTimer x) (localTag x) (registerCallId x) (registerCSeq x) (registerRetryTimer x) (registerRetryCount x) (call x) (draws x).
Definition set_localIp (v : option string) (x : SipUA) : SipUA :=
  mkSipUA (config x) (udpSocket x) (tcpSocket x) (tcpConnected x) v (localPort x) (registered x) (registerTimer x) (localTag x) (registerCallId x) (registerCSeq x) (registerRetryTimer x) (registerRetryCount x) (call x) (draws x).
Definition set_localPort (v : Z) (x : SipUA) : SipUA :=
  mkSipUA (config x) (udpSocket x) (tcpSocket x) (tcpConnected x) (localIp x) v (registered x) (registerTimer x) (localTag x) (registerCallId x) (registerCSeq x) (registerRetryTimer x) (registerRetryCount x) (call x) (draws x).
Definition set_registered (v : bool) (x : SipUA) : SipUA :=
  mkSipUA (config x) (udpSocket x) (tcpSocket x) (tcpConnected x) (localIp x) (localPort x) v (registerTimer x) (localTag x) (registerCallId x) (registerCSeq x) (registerRetryTimer x) (registerRetryCount x) (call x) (draws x).
Definition set_registerTimer (v : bool) (x : SipUA) : SipUA :=
  mkSipUA (config x) (udpSocket x) (tcpSocket x) (tcpConnected x) (localIp x) (localPort x) (registered x) v (localTag x) (registerCallId x) (registerCSeq x) (registerRetryTimer x) (registerRetryCount x) (call x) (draws x).
Definition set_registerCSeq (v : Z) (x : SipUA) : SipUA :=
  mkSipUA (config x) (udpSocket x) (tcpSocket x) (tcpConnected x) (localIp x) (localPort x) (registered x) (registerTimer x) (localTag x) (registerCallId x) v (registerRetryTimer x) (registerRetryCount x) (call x) (draws x).
Definition set_registerRetryTimer (v : bool) (x : SipUA) : SipUA :=
  mkSipUA (config x) (udpSocket x) (tcpSocket x) (tcpConnected x) (localIp x) (localPort x) (registered x) (registerTimer x) (localTag x) (registerCallId x) (registerCSeq x) v (registerRetryCount x) (call x) (draws x).
Definition set_registerRetryCount (v : Z) (x : SipUA) : SipUA :=
  mkSipUA (config x) (udpSocket x) (tcpSocket x) (tcpConnected x) (localIp x) (localPort x) (registered x) (registerTimer x) (localTag x) (registerCallId x) (registerCSeq x) (registerRetryTimer x) v (call x) (draws x).
Definition set_call (v : option Call.t) (x : SipUA) : SipUA :=
  mkSipUA (config x) (udpSocket x) (tcpSocket x) (tcpConnected x) (localIp x) (localPort x) (registered x) (registerTimer x) (localTag x) (registerCallId x) (registerCSeq x) (registerRetryTimer x) (registerRetryCount x) v (draws x).
Definition set_draws (v : nat) (x : SipUA) : SipUA :=
  mkSipUA (config x) (udpSocket x) (tcpSocket x) (tcpConnected x) (localIp x) (localPort x) (registered x) (registerTimer x) (localTag x) (registerCallId x) (registerCSeq x) (registerRetryTimer x) (registerRetryCount x) (call x) v.

(** The result of [parseSdp]. *)
Record Media := mkMedia {
  mediaIp : option string;
  mediaPort : option Z;
  payloadTypes : list (option Z);
}.

Record Sdp := mkSdp {
  connectionIp : option string;
  media : list Media;
}.

Definition maxRegisterRetries : Z := 3.
Definition registerTimeoutMs : Z := 5000.

Definition ALLOW : string :=
  "INVITE, ACK, BYE, CANCEL, OPTIONS, INFO, NOTIFY, REFER".
Definition USER_AGENT : string := "SIPPhone/2.0".

(** A method of the agent: it may return a value or throw ([None]), it
    changes the agent, and it hands messages to the transport. *)
Definition M (A : Type) : Type := SipUA -> option A * SipUA * list Wire.

Definition ret {A : Type} (a : A) : M A := fun ua => (Some a, ua, []).

Definition bind {A B : Type} (m : M A) (k : A -> M B) : M B :=
  fun ua =>
    match m ua with
    | (Some a, ua1, out1) =>
        let '(r, ua2, out2) := k a ua1 in (r, ua2, out1 ++ out2)
    | (None, ua1, out1) => (None, ua1, out1)
    end.

Definition throw {A : Type} : M A := fun ua => (None, ua, []).
Definition get : M SipUA := fun ua => (Some ua, ua, []).
Definition modify (f : SipUA -> SipUA) : M unit := fun ua => (Some tt, f ua, []).
Definition transmit (w : Wire) : M unit := fun ua => (Some tt, ua, [w]).

Declare Scope sip_scope.
Delimit Scope sip_scope with sip.
Notation "x <- m ;; k" := (bind m (fun x => k))
  (at level 100, m at next level, right associativity) : sip_scope.
Notation "m ;; k" := (bind m (fun _ => k))
  (at level 100, right associativity) : sip_scope.
Local Open Scope sip_scope.

Definition when (b : bool) (m : M unit) : M unit := if b then m else ret tt.

(** [this.call.f = v], for a call that exists. *)
Definition modifyCall (f : Call.t -> Call.t) : M unit :=
  modify (fun ua => set_call (option_map f (call ua)) ua).

Section Environment.

(** [crypto.randomBytes(n).toString('hex')]: the text of the [i]-th draw. *)
Variable randomHex : nat -> nat -> string.
(** [parseInt(text)]; [None] is NaN. *)
Variable parseInt : string -> option Z.
Variable parseSdp : string -> Sdp.
Variable md5 : string -> string.

Definition randomBytesHex (n : nat) : M string :=
  fun ua => (Some (randomHex (draws ua) n), set_draws (S (draws ua)) ua, []).

Definition generateTag : M string := randomBytesHex 8.
Definition generateBranch : M string :=
  r <- randomBytesHex 8 ;; ret ("z9hG4bK" +:+ r).
Definition generateCallId : M string := randomBytesHex 12.

(** [new SipUA(config)], for a configuration with all its fields. *)
Definition constructor (cfg : Config) : SipUA :=
  let cfg :=
    match transport cfg with
    | TLS => if port cfg =? 5060
             then mkConfig (server cfg) 5061 (extension cfg) (password cfg)
                           (displayName cfg) TLS
             else cfg
    | _ => cfg
    end in
  {| config := cfg; udpSocket := false; tcpSocket := false;
     tcpConnected := false; localIp := None; localPort := 0;
     registered := false; registerTimer := false;
     localTag := randomHex 0 8; registerCallId := randomHex 1 12;
     registerCSeq := 0; registerRetryTimer := false;
     registerRetryCount := 0; call := None; draws := 2 |}.

Definition _viaTransport (ua : SipUA) : string :=
  match transport (config ua) with UDP => "UDP" | TCP => "TCP" | TLS => "TLS" end.

Definition _contactTransport (ua : SipUA) : string :=
  match transport (config ua) with UDP => "udp" | TCP => "tcp" | TLS => "tls" end.

Definition tplNull (o : option string) : string :=
  match o with Some s => s | None => "null" end.
Definition tplUndef (o : option string) : string :=
  match o with Some s => s | None => "undefined" end.
Definition tplNaN (o : option Z) : string :=
  match o with Some n => pretty n | None => "NaN" end.

(** The header values that all the requests share. *)
Definition viaLine (ua : SipUA) (branch : string) : string :=
  "SIP/2.0/" +:+ _viaTransport ua +:+ " " +:+ tplNull (localIp ua) +:+ ":"
  +:+ pretty (localPort ua) +:+ ";branch=" +:+ branch +:+ ";rport".

Definition fromLine (ua : SipUA) (tag : string) : string :=
  quoted (displayName (config ua)) +:+ " <sip:" +:+ extension (config ua)
  +:+ "@" +:+ server (config ua) +:+ ">;tag=" +:+ tag.

Definition contactLine (ua : SipUA) : string :=
  "<sip:" +:+ extension (config ua) +:+ "@" +:+ tplNull (localIp ua) +:+ ":"
  +:+ pretty (localPort ua) +:+ ";transport=" +:+ _contactTransport ua +:+ ">".

Definition byteLength (s : string) : Z := Z.of_nat (String.length s).

(** *** Message builders *)

Definition _buildRegister (expires : Z) : M Wire :=
  branch <- generateBranch ;;
  ua <- get ;;
  ret {| startLine := "REGISTER sip:" +:+ server (config ua) +:+ " SIP/2.0";
         lines :=
           [("Via", viaLine ua branch);
            ("Max-Forwards", "70");
            ("From", fromLine ua (localTag ua));
            ("To", "<sip:" +:+ extension (config ua) +:+ "@"
                   +:+ server (config ua) +:+ ">");
            ("Call-ID", registerCallId ua);
            ("CSeq", pretty (registerCSeq ua) +:+ " REGISTER");
            ("Contact", contactLine ua);
            ("Expires", pretty expires);
            ("Allow", ALLOW);
            ("User-Agent", USER_AGENT);
            ("Content-Length", "0")];
         payload := "" |}.

(** [parseAuthHeader(authHeader)] on a header value: an array has no
    [match] method. *)
Definition parseAuthHeader (authHeader : hval) : M (gmap string string) :=
  match authHeader with
  | HStr s =>
      match Digest.parseAuthHeader s with
      | Some auth => ret auth
      | None => throw
      end
  | HArr _ => throw
  end.

Definition _buildRegisterWithAuth (authHeader : hval) (expires : Z) : M Wire :=
  branch <- generateBranch ;;
  modify (fun ua => set_registerCSeq (registerCSeq ua + 1) ua) ;;
  auth <- parseAuthHeader authHeader ;;
  ua <- get ;;
  let uri := "sip:" +:+ server (config ua) in
  let authResponse :=
    Digest.buildAuthorizationHeader md5 auth "REGISTER" uri
      (extension (config ua)) (password (config ua)) in
  ret {| startLine := "REGISTER sip:" +:+ server (config ua) +:+ " SIP/2.0";
         lines :=
           [("Via", viaLine ua branch);
            ("Max-Forwards", "70");
            ("From", fromLine ua (localTag ua));
            ("To", "<sip:" +:+ extension (config ua) +:+ "@"
                   +:+ server (config ua) +:+ ">");
            ("Call-ID", registerCallId ua);
            ("CSeq", pretty (registerCSeq ua) +:+ " REGISTER");
            ("Contact", contactLine ua);
            ("Expires", pretty expires);
            ("Authorization", authResponse);
            ("Allow", ALLOW);
            ("User-Agent", USER_AGENT);
            ("Content-Length", "0")];
         payload := "" |}.

(** The builders below read [this.call]; they are called where it is
    set. *)
Definition _buildInvite (targetUri callId fromTag sdp : string) : M Wire :=
  ua <- get ;;
  match call ua with
  | None => throw
  | Some c =>
      ret {| startLine := "INVITE " +:+ targetUri +:+ " SIP/2.0";
             lines :=
               [("Via", viaLine ua (tplUndef (Call.branch c)));
                ("Max-Forwards", "70");
                ("From", fromLine ua fromTag);
                ("To", "<" +:+ targetUri +:+ ">");
                ("Call-ID", callId);
                ("CSeq", pretty (Call.cseq c) +:+ " INVITE");
                ("Contact", contactLine ua);
                ("Content-Type", "application/sdp");
                ("Allow", ALLOW);
                ("User-Agent", USER_AGENT);
                ("Content-Length", pretty (byteLength sdp))];
             payload := sdp |}
  end.

(** [_buildInviteWithAuth(authHeader)]; [Buffer.byteLength] raises a
    TypeError on a [localSdp] that is not set. *)
Definition _buildInviteWithAuth (authHeader : hval) : M Wire :=
  modifyCall (fun c => Call.set_cseq (Call.cseq c + 1) c) ;;
  branch <- generateBranch ;;
  modifyCall (Call.set_branch (Some branch)) ;;
  auth <- parseAuthHeader authHeader ;;
  ua <- get ;;
  match call ua with
  | None => throw
  | Some c =>
      let authResponse :=
        Digest.buildAuthorizationHeader md5 auth "INVITE"
          (tplUndef (Call.targetUri c))
          (extension (config ua)) (password (config ua)) in
      match Call.localSdp c with
      | None => throw
      | Some sdp =>
      ret {| startLine := "INVITE " +:+ tplUndef (Call.targetUri c) +:+ " SIP/2.0";
             lines :=
               [("Via", viaLine ua branch);
                ("Max-Forwards", "70");
                ("From", fromLine ua (tplNull (Call.fromTag c)));
                ("To", "<" +:+ tplUndef (Call.targetUri c) +:+ ">");
                ("Call-ID", tpl (Call.callId c));
                ("CSeq", pretty (Call.cseq c) +:+ " INVITE");
                ("Contact", contactLine ua);
                ("Authorization", authResponse);
                ("Content-Type", "application/sdp");
                ("Allow", ALLOW);
                ("User-Agent", USER_AGENT);
                ("Content-Length", pretty (byteLength sdp))];
             payload := sdp |}
      end
  end.

Definition _buildAck (toTag : option string) : M Wire :=
  branch <- generateBranch ;;
  ua <- get ;;
  match call ua with
  | None => throw
  | Some c =>
      ret {| startLine := "ACK " +:+ tplUndef (Call.targetUri c) +:+ " SIP/2.0";
             lines :=
               [("Via", viaLine ua branch);
                ("Max-Forwards", "70");
                ("From", fromLine ua (tplNull (Call.fromTag c)));
                ("To", "<" +:+ tplUndef (Call.targetUri c) +:+ ">;tag="
                       +:+ tplNull toTag);
                ("Call-ID", tpl (Call.callId c));
                ("CSeq", pretty (Call.cseq c) +:+ " ACK");
                ("Content-Length", "0")];
             payload := "" |}
  end.

Definition toTagParam (c : Call.t) : string :=
  match Call.toTag c with
  | Some t => if String.eqb t "" then "" else ";tag=" +:+ t
  | None => ""
  end.

Definition _buildBye : M Wire :=
  branch <- generateBranch ;;
  ua <- get ;;
  match call ua with
  | None => throw
  | Some c =>
      let toUri := tplUndef (Call.targetUri c) in
      ret {| startLine := "BYE " +:+ toUri +:+ " SIP/2.0";
             lines :=
               [("Via", viaLine ua branch);
                ("Max-Forwards", "70");
                ("From", fromLine ua (tplNull (Call.fromTag c)));
                ("To", "<" +:+ toUri +:+ ">" +:+ toTagParam c);
                ("Call-ID", tpl (Call.callId c));
                ("CSeq", pretty (Call.cseq c) +:+ " BYE");
                ("User-Agent", USER_AGENT);
                ("Content-Length", "0")];
             payload := "" |}
  end.

Definition _buildCancel : M Wire :=
  ua <- get ;;
  match call ua with
  | None => throw
  | Some c =>
      ret {| startLine := "CANCEL " +:+ tplUndef (Call.targetUri c) +:+ " SIP/2.0";
             lines :=
               [("Via", viaLine ua (tplUndef (Call.branch c)));
                ("Max-Forwards", "70");
                ("From", fromLine ua (tplNull (Call.fromTag c)));
                ("To", "<" +:+ tplUndef (Call.targetUri c) +:+ ">");
                ("Call-ID", tpl (Call.callId c));
                ("CSeq", "1 CANCEL");
                ("Content-Length", "0")];
             payload := "" |}
  end.

Definition _buildInfo (digit : string) : M Wire :=
  branch <- generateBranch ;;
  ua <- get ;;
  match call ua with
  | None => throw
  | Some c =>
      let body := "Signal=" +:+ digit +:+ CRLF +:+ "Duration=160" +:+ CRLF in
      ret {| startLine := "INFO " +:+ tplUndef (Call.targetUri c) +:+ " SIP/2.0";
             lines :=
               [("Via", viaLine ua branch);
                ("Max-Forwards", "70");
                ("From", fromLine ua (tplNull (Call.fromTag c)));
                ("To", "<" +:+ tplUndef (Call.targetUri c) +:+ ">" +:+ toTagParam c);
                ("Call-ID", tpl (Call.callId c));
                ("CSeq", pretty (Call.cseq c) +:+ " INFO");
                ("Content-Type", "application/dtmf-relay");
                ("Content-Length", pretty (byteLength body))];
             payload := body |}
  end.

Definition _build200ForInvite (sdp : string) : M Wire :=
  ua <- get ;;
  match call ua with
  | None => throw
  | Some c =>
      ret {| startLine := "SIP/2.0 200 OK";
             lines :=
               [("Via", tpl (Call.incomingVia c));
                ("From", tpl (Call.incomingFrom c));
                ("To", tpl (Call.incomingTo c) +:+ ";tag="
                       +:+ tplUndef (Call.localTag c));
                ("Call-ID", tpl (Call.callId c));
                ("CSeq", tplNaN (Call.incomingCSeq c) +:+ " INVITE");
                ("Contact", contactLine ua);
                ("Content-Type", "application/sdp");
                ("Allow", ALLOW);
                ("User-Agent", USER_AGENT);
                ("Content-Length", pretty (byteLength sdp))];
             payload := sdp |}
  end.

Definition _build486 : M Wire :=
  ua <- get ;;
  match call ua with
  | None => throw
  | Some c =>
      tag <- match Call.localTag c with
             | Some t => if String.eqb t "" then generateTag else ret t
             | None => generateTag
             end ;;
      ret {| startLine := "SIP/2.0 486 Busy Here";
             lines :=
               [("Via", tpl (Call.incomingVia c));
                ("From", tpl (Call.incomingFrom c));
                ("To", tpl (Call.incomingTo c) +:+ ";tag=" +:+ tag);
                ("Call-ID", tpl (Call.callId c));
                ("CSeq", tplNaN (Call.incomingCSeq c) +:+ " INVITE");
                ("Content-Length", "0")];
             payload := "" |}
  end.

(** [_buildSdp(rtpPort)]; [sessionId] is [Math.floor(Date.now() / 1000)]. *)
Definition _buildSdp (sessionId rtpPort : Z) : M string :=
  ua <- get ;;
  ret ("v=0" +:+ CRLF
       +:+ "o=SIPPhone " +:+ pretty sessionId +:+ " " +:+ pretty sessionId
       +:+ " IN IP4 " +:+ tplNull (localIp ua) +:+ CRLF
       +:+ "s=SIPPhone Call" +:+ CRLF
       +:+ "c=IN IP4 " +:+ tplNull (localIp ua) +:+ CRLF
       +:+ "t=0 0" +:+ CRLF
       +:+ "m=audio " +:+ pretty rtpPort +:+ " RTP/AVP 0 8 101" +:+ CRLF
       +:+ "a=rtpmap:0 PCMU/8000" +:+ CRLF
       +:+ "a=rtpmap:8 PCMA/8000" +:+ CRLF
       +:+ "a=rtpmap:101 telephone-event/8000" +:+ CRLF
       +:+ "a=fmtp:101 0-16" +:+ CRLF
       +:+ "a=ptime:20" +:+ CRLF
       +:+ "a=sendrecv" +:+ CRLF).

(** *** Transport *)

(** [_send(message)].  Without a socket nothing is sent; the datagram
    socket raises ERR_SOCKET_BAD_PORT when the configured port is not an
    integer from 1 to 65535. *)
Definition _send (message : Wire) : M unit :=
  ua <- get ;;
  match transport (config ua) with
  | UDP =>
      if udpSocket ua then
        if Rtp.validPort (Some (port (config ua))) then transmit message
        else throw
      else ret tt
  | _ => if tcpSocket ua && tcpConnected ua then transmit message else ret tt
  end.

(** [start()] is asynchronous.  Its call changes nothing in the agent: it
    first awaits the lookup of the server and [getLocalIp].  What it does
    to the agent comes in two steps, between which other calls and
    callbacks can run:
    - [startSocket ip], once [getLocalIp] has resolved with [ip]: the
      address is stored and the socket of the transport is created;
    - the callback of [bind] or [connect] with the local endpoint of the
      socket, after which the promise resolves.
    [start ip bound] is the two steps with nothing in between; [bound] is
    [None] when the socket never calls back, in which case the promise is
    not resolved. *)
Definition start (ip : string) (bound : option (string * Z)) : M unit :=
  modify (set_localIp (Some ip)) ;;
  ua <- get ;;
  match transport (config ua) with
  | UDP =>
      modify (set_udpSocket true) ;;
      match bound with
      | Some (_, p) => modify (set_localPort p)
      | None => throw
      end
  | _ =>
      modify (set_tcpSocket true) ;;
      modify (set_tcpConnected false) ;;
      match bound with
      | Some (a, p) =>
          modify (set_tcpConnected true) ;;
          modify (set_localPort p) ;;
          modify (set_localIp (Some a))
      | None => throw
      end
  end.

(** *** Registration *)

Definition _startRegisterRetryTimer : M unit :=
  modify (set_registerRetryTimer true).

Definition incrementRegisterCSeq : M unit :=
  modify (fun ua => set_registerCSeq (registerCSeq ua + 1) ua).

(** [register()], from the moment [getLocalIp] has resolved, when nothing
    else runs before the socket has called back. *)
Definition register (ip : string) (bound : option (string * Z)) : M unit :=
  start ip bound ;;
  incrementRegisterCSeq ;;
  modify (set_registerRetryCount 0) ;;
  request <- _buildRegister 300 ;;
  _send request ;;
  _startRegisterRetryTimer.

(** The first step of [start()]: the address is stored and the socket is
    created. *)
Definition startSocket (ip : string) : M unit :=
  modify (set_localIp (Some ip)) ;;
  ua <- get ;;
  match transport (config ua) with
  | UDP => modify (set_udpSocket true)
  | _ => modify (set_tcpSocket true) ;; modify (set_tcpConnected false)
  end.

(** The second step, as a turn of its own: the callback of [bind] or
    [connect] with the local endpoint, the promise of [start()] resolves
    and the rest of a [register()] that awaits it runs in the same turn.
    The callback is that of a socket that is there: [stop()] closes the
    socket, and a closed socket does not call back. *)
Definition registerResumed (endpoint : string * Z) : M unit :=
  ua <- get ;;
  let rest :=
    incrementRegisterCSeq ;;
    modify (set_registerRetryCount 0) ;;
    request <- _buildRegister 300 ;;
    _send request ;;
    _startRegisterRetryTimer in
  match transport (config ua) with
  | UDP =>
      if udpSocket ua then modify (set_localPort (snd endpoint)) ;; rest
      else ret tt
  | _ =>
      if tcpSocket ua then
        modify (set_tcpConnected true) ;;
        modify (set_localPort (snd endpoint)) ;;
        modify (set_localIp (Some (fst endpoint))) ;;
        rest
      else ret tt
  end.

(** The callback of the retry timeout. *)
Definition registerRetryTimeout : M unit :=
  ua <- get ;;
  if negb (registerRetryTimer ua) then ret tt
  else
    modify (set_registerRetryTimer false) ;;
    if registered ua then ret tt
    else
      modify (fun ua => set_registerRetryCount (registerRetryCount ua + 1) ua) ;;
      ua <- get ;;
      if registerRetryCount ua >? maxRegisterRetries then ret tt
      else
        incrementRegisterCSeq ;;
        request <- _buildRegister 300 ;;
        _send request ;;
        _startRegisterRetryTimer.

(** The callback of the re-registration interval. *)
Definition registerRefresh : M unit :=
  ua <- get ;;
  if registerTimer ua then
    incrementRegisterCSeq ;;
    request <- _buildRegister 300 ;;
    _send request
  else ret tt.

(** [unregister()]; the [stop()] it schedules comes as a later call. *)
Definition unregister : M unit :=
  ua <- get ;;
  if negb (udpSocket ua) && negb (tcpSocket ua) then ret tt
  else
    incrementRegisterCSeq ;;
    request <- _buildRegister 0 ;;
    _send request ;;
    modify (set_registerTimer false).

Definition _handleRegisterResponse (msg : Message) : M unit :=
  modify (set_registerRetryTimer false) ;;
  if (statusCode msg =? 401) || (statusCode msg =? 407) then
    match orElse (headers msg !! "www-authenticate")
                 (headers msg !! "proxy-authenticate") with
    | Some authHeader =>
        if truthy (Some authHeader) then
          authedRegister <- _buildRegisterWithAuth authHeader 300 ;;
          _send authedRegister ;;
          _startRegisterRetryTimer
        else ret tt
    | None => ret tt
    end
  else if statusCode msg =? 200 then
    modify (set_registered true) ;;
    modify (set_registerRetryCount 0) ;;
    modify (set_registerTimer true)
  else ret tt.

(** *** Calls *)

Definition _endCall : M unit := modify (set_call None).

Definition hangup : M unit :=
  ua <- get ;;
  match call ua with
  | None => ret tt
  | Some c =>
      match Call.state c with
      | Calling => cancel <- _buildCancel ;; _send cancel
      | RingingIn => reject <- _build486 ;; _send reject
      | _ =>
          modifyCall (fun c => Call.set_cseq (Call.cseq c + 1) c) ;;
          bye <- _buildBye ;;
          _send bye
      end ;;
      _endCall
  end.

Definition stop : M unit :=
  modify (set_registerTimer false) ;;
  modify (set_registerRetryTimer false) ;;
  hangup ;;
  modify (set_udpSocket false) ;;
  ua <- get ;;
  when (tcpSocket ua)
       (modify (set_tcpSocket false) ;; modify (set_tcpConnected false)) ;;
  modify (set_registered false).

Definition isAt (c : Ascii.ascii) : bool := code c =? 64.

Definition orStr (a b : option string) : option string :=
  match a with
  | Some s => if String.eqb s "" then b else a
  | None => b
  end.

(** The first payload type, [audio.payloadTypes[0] || 0]. *)
Definition firstPayloadType (m : Media) : Z :=
  match payloadTypes m with
  | Some pt :: _ => pt
  | _ => 0
  end.

(** [rtp.start(...)] toward the first media of a session description. *)
Definition startToward (rtp : Rtp.RtpEngine) (sdp : Sdp) : Rtp.RtpEngine :=
  match media sdp with
  | audio :: _ =>
      fst (Rtp.start rtp (orStr (mediaIp audio) (connectionIp sdp))
                     (mediaPort audio) (firstPayloadType audio))
  | [] => rtp
  end.

(** [invite(target)]; [rnd] are the draws of the engine's constructor,
    [rtpPort] the port its socket is bound to. *)
Definition invite (target : string) (rnd : Z * Z * Z) (rtpPort sessionId : Z)
    : M unit :=
  ua <- get ;;
  if negb (registered ua) then ret tt
  else match call ua with
  | Some _ => ret tt
  | None =>
      let targetUri :=
        if existsChar isAt target then "sip:" +:+ target
        else "sip:" +:+ target +:+ "@" +:+ server (config ua) in
      let '(r1, r2, r3) := rnd in
      let rtp := fst (Rtp.bind (Rtp.constructor r1 r2 r3) rtpPort) in
      callId <- generateCallId ;;
      fromTag <- generateTag ;;
      branch <- generateBranch ;;
      modify (set_call (Some
        {| Call.callId := Some (HStr callId); Call.fromTag := Some fromTag;
           Call.toTag := None; Call.localTag := None;
           Call.targetUri := Some targetUri; Call.target := target;
           Call.rtpEngine := Some rtp; Call.rtpPort := rtpPort;
           Call.state := Calling; Call.cseq := 1;
           Call.branch := Some branch;
           Call.localSdp := None; Call.remoteSdp := None;
           Call.incomingVia := None; Call.incomingFrom := None;
           Call.incomingTo := None; Call.incomingCSeq := None;
           Call.sourceAddress := None; Call.sourcePort := None |})) ;;
      sdp <- _buildSdp sessionId rtpPort ;;
      modifyCall (Call.set_localSdp (Some sdp)) ;;
      invite <- _buildInvite targetUri callId fromTag sdp ;;
      _send invite
  end.

Definition answerIncoming (rnd : Z * Z * Z) (rtpPort sessionId : Z) : M unit :=
  ua <- get ;;
  match call ua with
  | Some c =>
      match Call.state c with
      | RingingIn =>
          let '(r1, r2, r3) := rnd in
          let rtp := fst (Rtp.bind (Rtp.constructor r1 r2 r3) rtpPort) in
          modifyCall (Call.set_rtpEngine (Some rtp)) ;;
          modifyCall (Call.set_rtpPort rtpPort) ;;
          sdp <- _buildSdp sessionId rtpPort ;;
          modifyCall (Call.set_localSdp (Some sdp)) ;;
          match orStr (Call.remoteSdp c) None with
          | Some remote =>
              modifyCall (Call.set_rtpEngine
                (Some (startToward rtp (parseSdp remote))))
          | None => ret tt
          end ;;
          response <- _build200ForInvite sdp ;;
          _send response ;;
          modifyCall (Call.set_state Active)
      | _ => ret tt
      end
  | None => ret tt
  end.

Definition toggleMute : M bool :=
  ua <- get ;;
  match call ua with
  | Some c =>
      match Call.rtpEngine c with
      | Some rtp =>
          let muted := negb (Rtp.muted rtp) in
          modifyCall (Call.set_rtpEngine (Some (Rtp.setMuted rtp muted))) ;;
          ret muted
      | None => ret false
      end
  | None => ret false
  end.

Definition sendDtmf (digit : string) : M unit :=
  ua <- get ;;
  match call ua with
  | Some c =>
      match Call.state c with
      | Active =>
          modifyCall (fun c => Call.set_cseq (Call.cseq c + 1) c) ;;
          info <- _buildInfo digit ;;
          _send info
      | _ => ret tt
      end
  | None => ret tt
  end.

Definition feedMicAudio (pcmData : Codec.PcmBuf) : M unit :=
  modifyCall (fun c =>
    match Call.rtpEngine c with
    | Some rtp => Call.set_rtpEngine (Some (Rtp.feedMicAudio rtp pcmData)) c
    | None => c
    end).

(** *** Incoming messages *)

(** [value.match(re)] followed by the reading of the capture: an array has
    no [match] method. *)
Definition matchCapture (value : option hval) (capture : string -> option string)
    : M (option string) :=
  match value with
  | Some (HArr _) => throw
  | Some (HStr s) => ret (capture s)
  | None => throw
  end.

Definition isTagChar (c : Ascii.ascii) : bool :=
  negb (isSpace c || (code c =? 59)).

Definition isUserChar (c : Ascii.ascii) : bool :=
  negb ((code c =? 64) || (code c =? 62)).

Definition authChallenge (msg : Message) : option hval :=
  let h := orElse (headers msg !! "www-authenticate")
                  (headers msg !! "proxy-authenticate") in
  if truthy h then h else None.

(** [this.call.toTag], [null] when there is none. *)
Definition callToTag (ua : SipUA) : option string :=
  match call ua with
  | Some c => Call.toTag c
  | None => None
  end.

Definition _handleInviteResponse (msg : Message) : M unit :=
  ua <- get ;;
  match call ua with
  | None => ret tt
  | Some _ =>
      toTagMatch <- matchCapture (orElse (headers msg !! "to") (Some (HStr "")))
                                 (captureAfter ";tag=" isTagChar) ;;
      match toTagMatch with
      | Some t => modifyCall (Call.set_toTag (Some t))
      | None => ret tt
      end ;;
      if statusCode msg =? 100 then ret tt
      else if (statusCode msg =? 180) || (statusCode msg =? 183) then
        modifyCall (Call.set_state Ringing)
      else if (statusCode msg =? 401) || (statusCode msg =? 407) then
        match authChallenge msg with
        | Some authHeader =>
            ua <- get ;;
            ack <- _buildAck (orStr (callToTag ua) (Some "")) ;;
            _send ack ;;
            authedInvite <- _buildInviteWithAuth authHeader ;;
            _send authedInvite
        | None => ret tt
        end
      else if statusCode msg =? 200 then
        modifyCall (Call.set_state Active) ;;
        modifyCall (Call.set_remoteSdp (Some (body msg))) ;;
        ua <- get ;;
        ack <- _buildAck (callToTag ua) ;;
        _send ack ;;
        if String.eqb (body msg) "" then ret tt
        else
          let sdp := parseSdp (body msg) in
          match media sdp with
          | [] => ret tt
          | _ :: _ =>
              match call ua with
              | Some c =>
                  match Call.rtpEngine c with
                  | Some rtp =>
                      modifyCall (Call.set_rtpEngine (Some (startToward rtp sdp)))
                  | None => throw
                  end
              | None => throw
              end
          end
      else if statusCode msg >=? 400 then
        ua <- get ;;
        ack <- _buildAck (orStr (callToTag ua) (Some "")) ;;
        _send ack ;;
        _endCall
      else ret tt
  end.

(** The responses that echo the headers of a request. *)
Definition echo (status : string) (msg : Message) (from toValue : string)
    (more : list (string * string)) : Wire :=
  {| startLine := "SIP/2.0 " +:+ status;
     lines :=
       [("Via", tpl (headers msg !! "via"));
        ("From", from);
        ("To", toValue);
        ("Call-ID", tpl (headers msg !! "call-id"));
        ("CSeq", tpl (headers msg !! "cseq"))]
       ++ more ++ [("Content-Length", "0")];
     payload := "" |}.

Definition isActive (ua : SipUA) : bool :=
  match call ua with
  | Some c => match Call.state c with Active => true | _ => false end
  | None => false
  end.

Definition _handleIncomingInvite (msg : Message) (address : string) (port : Z)
    : M unit :=
  let fromHeader := orElse (headers msg !! "from") (Some (HStr "")) in
  fromMatch <- matchCapture fromHeader (captureAfter "<sip:" isUserChar) ;;
  let callerId := match fromMatch with Some s => s | None => "Unknown" end in
  let callId := headers msg !! "call-id" in
  let cseq := headers msg !! "cseq" in
  let cseqNum := parseInt (tpl cseq) in
  ua <- get ;;
  if isActive ua then
    tag <- generateTag ;;
    _send (echo "486 Busy Here" msg (tpl fromHeader)
                (tpl (headers msg !! "to") +:+ ";tag=" +:+ tag) [])
  else
    _send (echo "100 Trying" msg (tpl fromHeader) (tpl (headers msg !! "to")) []) ;;
    localTag <- generateTag ;;
    ua <- get ;;
    _send (echo "180 Ringing" msg (tpl fromHeader)
                (tpl (headers msg !! "to") +:+ ";tag=" +:+ localTag)
                [("Contact", contactLine ua)]) ;;
    modify (set_call (Some
      {| Call.callId := callId; Call.fromTag := None; Call.toTag := None;
         Call.localTag := Some localTag;
         Call.targetUri := None; Call.target := callerId;
         Call.rtpEngine := None; Call.rtpPort := 0;
         Call.state := RingingIn; Call.cseq := 1;
         Call.branch := None;
         Call.localSdp := None; Call.remoteSdp := Some (body msg);
         Call.incomingVia := headers msg !! "via";
         Call.incomingFrom := fromHeader;
         Call.incomingTo := headers msg !! "to";
         Call.incomingCSeq := cseqNum;
         Call.sourceAddress := Some address; Call.sourcePort := Some port |})).

Definition _reply200 (msg : Message) : M unit :=
  _send (echo "200 OK" msg (tpl (headers msg !! "from"))
              (tpl (headers msg !! "to")) []).

Definition _handleBye (msg : Message) : M unit :=
  _reply200 msg ;; _endCall.

Definition isRingingIn (ua : SipUA) : bool :=
  match call ua with
  | Some c => match Call.state c with RingingIn => true | _ => false end
  | None => false
  end.

Definition _handleIncomingCancel (msg : Message) : M unit :=
  _reply200 msg ;;
  ua <- get ;;
  match call ua with
  | Some c =>
      when (isRingingIn ua)
        (_send {| startLine := "SIP/2.0 487 Request Terminated";
                  lines :=
                    [("Via", tpl (Call.incomingVia c));
                     ("From", tpl (Call.incomingFrom c));
                     ("To", tpl (Call.incomingTo c) +:+ ";tag="
                            +:+ tplUndef (Call.localTag c));
                     ("Call-ID", tpl (Call.callId c));
                     ("CSeq", tplNaN (Call.incomingCSeq c) +:+ " INVITE");
                     ("Content-Length", "0")];
                  payload := "" |})
  | None => ret tt
  end ;;
  _endCall.

Definition _replyToOptions (msg : Message) : M unit :=
  tag <- generateTag ;;
  _send (echo "200 OK" msg (tpl (headers msg !! "from"))
              (tpl (headers msg !! "to") +:+ ";tag=" +:+ tag)
              [("Allow", ALLOW); ("Accept", "application/sdp");
               ("User-Agent", USER_AGENT)]).

(** *** The agent as a transition system *)

(** The calls of the shell, the timer callbacks, the messages dispatched by
    [_handleResponse] and [_handleRequest], the events of the stream socket
    and those of the engine of the call.  A [register()] is either
    [EvRegister], when nothing runs between the creation of its socket and
    the callback of that socket, or [EvStartSocket] followed, after
    whatever else runs, by [EvStartResolved]; the call of [register()]
    itself, which changes nothing before [getLocalIp] has resolved, is not
    an event, so that a [register()] called before a [stop()] can go on
    after it. *)
Inductive Event :=
| EvRegister (ip : string) (bound : option (string * Z))
| EvRegisterRetryTimeout
| EvRegisterRefresh
| EvUnregister
| EvStop
| EvInvite (target : string) (rnd : Z * Z * Z) (rtpPort sessionId : Z)
| EvAnswerIncoming (rnd : Z * Z * Z) (rtpPort sessionId : Z)
| EvHangup
| EvToggleMute
| EvSendDtmf (digit : string)
| EvFeedMicAudio (pcmData : Codec.PcmBuf)
| EvRegisterResponse (msg : Message)
| EvInviteResponse (msg : Message)
| EvIncomingInvite (msg : Message) (address : string) (port : Z)
| EvBye (msg : Message)
| EvCancel (msg : Message)
| EvOptions (msg : Message)
| EvNotify (msg : Message)
| EvSocketError
| EvSocketClose
| EvRtpTick
| EvRtpIncoming (packet : list Z) (address : string) (port : Z)
| EvStartSocket (ip : string)
| EvStartResolved (endpoint : string * Z).

Definition onEngine (f : Rtp.RtpEngine -> Rtp.RtpEngine) : M unit :=
  modifyCall (fun c =>
    match Call.rtpEngine c with
    | Some rtp => Call.set_rtpEngine (Some (f rtp)) c
    | None => c
    end).

(** The [error] and [close] listeners of the TCP or TLS socket. *)
Definition onSocketError : M unit := modify (set_tcpConnected false).

Definition onSocketClose : M unit :=
  modify (set_tcpConnected false) ;; modify (set_registered false).

Definition handle (ev : Event) : M unit :=
  match ev with
  | EvRegister ip bound => register ip bound
  | EvRegisterRetryTimeout => registerRetryTimeout
  | EvRegisterRefresh => registerRefresh
  | EvUnregister => unregister
  | EvStop => stop
  | EvInvite target rnd rtpPort sessionId => invite target rnd rtpPort sessionId
  | EvAnswerIncoming rnd rtpPort sessionId => answerIncoming rnd rtpPort sessionId
  | EvHangup => hangup
  | EvToggleMute => _ <- toggleMute ;; ret tt
  | EvSendDtmf digit => sendDtmf digit
  | EvFeedMicAudio pcmData => feedMicAudio pcmData
  | EvRegisterResponse msg => _handleRegisterResponse msg
  | EvInviteResponse msg => _handleInviteResponse msg
  | EvIncomingInvite msg address port => _handleIncomingInvite msg address port
  | EvBye msg => _handleBye msg
  | EvCancel msg => _handleIncomingCancel msg
  | EvOptions msg => _replyToOptions msg
  | EvNotify msg => _reply200 msg
  | EvSocketError =>
      ua <- get ;;
      match transport (config ua) with UDP => ret tt | _ => onSocketError end
  | EvSocketClose =>
      ua <- get ;;
      match transport (config ua) with UDP => ret tt | _ => onSocketClose end
  | EvRtpTick => onEngine (fun rtp => fst (Rtp.step rtp Rtp.Tick))
  | EvRtpIncoming packet address port =>
      onEngine (fun rtp => fst (Rtp.step rtp (Rtp.Incoming packet address port)))
  | EvStartSocket ip => startSocket ip
  | EvStartResolved endpoint => registerResumed endpoint
  end.

(** One event: the agent after it, whether or not the handler threw, and
    the messages sent. *)
Definition step (ua : SipUA) (ev : Event) : SipUA * list Wire :=
  let '(_, ua', out) := handle ev ua in (ua', out).

Fixpoint run (ua : SipUA) (evs : list Event) : SipUA * list Wire :=
  match evs with
  | [] => (ua, [])
  | ev :: evs' =>
      let '(ua1, out1) := step ua ev in
      let '(ua2, out2) := run ua1 evs' in
      (ua2, out1 ++ out2)
  end.

Definition registersOf (out : list Wire) : list Wire :=
  List.filter isRegister out.

(** *** Registration: what the REGISTER requests carry *)

(** The part of the agent that a REGISTER shows. *)
Definition regView (ua : SipUA) : Config * string * string * Z :=
  (config ua, localTag ua, registerCallId ua, registerCSeq ua).

(** A method that leaves [regView] as it is and sends no REGISTER. *)
Definition quiet {A : Type} (m : M A) : Prop :=
  forall ua, regView (snd (fst (m ua))) = regView ua /\
             registersOf (snd (m ua)) = [].

Lemma quiet_ret {A : Type} (a : A) : quiet (ret a).
Proof. intros ua. split; reflexivity. Qed.

Lemma quiet_throw {A : Type} : quiet (@throw A).
Proof. intros ua. split; reflexivity. Qed.

Lemma quiet_get : quiet get.
Proof. intros ua. split; reflexivity. Qed.

Lemma quiet_modify (f : SipUA -> SipUA) :
  (forall ua, regView (f ua) = regView ua) -> quiet (modify f).
Proof. intros H ua. split; [apply H | reflexivity]. Qed.

Lemma quiet_transmit (w : Wire) : isRegister w = false -> quiet (transmit w).
Proof.
  intros H ua. split; [reflexivity|].
  unfold registersOf, transmit. cbn [snd List.filter]. rewrite H. reflexivity.
Qed.

Lemma registersOf_app (o1 o2 : list Wire) :
  registersOf (o1 ++ o2) = registersOf o1 ++ registersOf o2.
Proof.
  unfold registersOf. induction o1 as [|w o1 IH]; [reflexivity|].
  cbn [app List.filter]. destruct (isRegister w); rewrite IH; reflexivity.
Qed.

Lemma quiet_bind {A B : Type} (m : M A) (k : A -> M B) :
  quiet m -> (forall a, quiet (k a)) -> quiet (bind m k).
Proof.
  intros Hm Hk ua. specialize (Hm ua). unfold bind.
  destruct (m ua) as [[[a|] ua1] out1]; cbn [fst snd] in *.
  - specialize (Hk a ua1). destruct (k a ua1) as [[r ua2] out2].
    cbn [fst snd] in *. destruct Hm as [Hv Ho], Hk as [Hv' Ho'].
    split; [congruence|]. rewrite registersOf_app, Ho, Ho'. reflexivity.
  - exact Hm.
Qed.

Lemma quiet_send (w : Wire) : isRegister w = false -> quiet (_send w).
Proof.
  intros H. unfold _send. apply quiet_bind; [apply quiet_get|].
  intros ua. destruct (transport (config ua));
    repeat match goal with
           | |- context [if ?b then _ else _] => destruct b
           end;
    auto using quiet_transmit, quiet_ret, quiet_throw.
Qed.

Lemma quiet_randomBytesHex (n : nat) : quiet (randomBytesHex n).
Proof. intros ua. split; reflexivity. Qed.

Lemma quiet_modifyCall (f : Call.t -> Call.t) : quiet (modifyCall f).
Proof. apply quiet_modify. reflexivity. Qed.

Create HintDb quiet.
#[local] Hint Resolve quiet_ret quiet_throw quiet_get quiet_transmit
  quiet_randomBytesHex quiet_modifyCall : quiet.

(** Decompose a method along its binds and case distinctions. *)
Ltac quiet_step :=
  match goal with
  | |- quiet (bind _ _) => apply quiet_bind; [|intros]
  | |- forall _, _ => intros
  | |- quiet (modify _) => apply quiet_modify; reflexivity
  | |- quiet (_send _) => apply quiet_send; reflexivity
  | |- quiet (when ?b _) => unfold when; destruct b
  | |- quiet (match ?x with _ => _ end) => destruct x
  | |- quiet (let '(_, _) := ?x in _) => destruct x
  | |- quiet _ => solve [auto with quiet]
  end.

Ltac quiet_tac := repeat quiet_step.

Lemma quiet_generateBranch : quiet generateBranch.
Proof. unfold generateBranch. quiet_tac. Qed.

Lemma quiet_generateTag : quiet generateTag.
Proof. apply quiet_randomBytesHex. Qed.

Lemma quiet_generateCallId : quiet generateCallId.
Proof. apply quiet_randomBytesHex. Qed.

#[local] Hint Resolve quiet_generateBranch quiet_generateTag
  quiet_generateCallId : quiet.

Lemma quiet_parseAuthHeader (h : hval) : quiet (parseAuthHeader h).
Proof. unfold parseAuthHeader. quiet_tac. Qed.

Lemma quiet_buildSdp (sessionId rtpPort : Z) : quiet (_buildSdp sessionId rtpPort).
Proof. unfold _buildSdp. quiet_tac. Qed.

Lemma quiet_endCall : quiet _endCall.
Proof. unfold _endCall. quiet_tac. Qed.

#[local] Hint Resolve quiet_parseAuthHeader quiet_buildSdp quiet_endCall : quiet.

(** A builder of messages other than REGISTER. *)
Definition nonRegister (m : M Wire) : Prop :=
  forall ua w ua' out, m ua = (Some w, ua', out) -> isRegister w = false.

Lemma quiet_bind_wire {B : Type} (m : M Wire) (k : Wire -> M B) :
  quiet m -> nonRegister m ->
  (forall w, isRegister w = false -> quiet (k w)) -> quiet (bind m k).
Proof.
  intros Hm Hn Hk ua. specialize (Hm ua). unfold bind.
  destruct (m ua) as [[[w|] ua1] out1] eqn:E; cbn [fst snd] in *.
  - specialize (Hk w (Hn _ _ _ _ E) ua1). destruct (k w ua1) as [[r ua2] out2].
    cbn [fst snd] in *. destruct Hm as [Hv Ho], Hk as [Hv' Ho'].
    split; [congruence|]. rewrite registersOf_app, Ho, Ho'. reflexivity.
  - exact Hm.
Qed.

(** The result of a bind, when it returns. *)
Lemma bind_Some {A B : Type} (m : M A) (k : A -> M B) ua b ua' out :
  bind m k ua = (Some b, ua', out) ->
  exists a ua1 out1 out2,
    m ua = (Some a, ua1, out1) /\ k a ua1 = (Some b, ua', out2).
Proof.
  unfold bind. destruct (m ua) as [[[a|] ua1] out1]; [|discriminate].
  destruct (k a ua1) as [[r ua2] out2] eqn:E. intros [= -> -> <-].
  exists a, ua1, out1, out2. auto.
Qed.

Ltac nonreg_tac :=
  intros ua w ua' out H;
  repeat match type of H with
         | bind _ _ _ = (Some _, _, _) =>
             let a := fresh "a" in let u := fresh "u" in
             let o1 := fresh "o" in let o2 := fresh "o" in
             let H1 := fresh "H" in
             apply bind_Some in H; destruct H as (a & u & o1 & o2 & H1 & H)
         | match ?x with _ => _ end _ = (Some _, _, _) => destruct x
         | throw _ = (Some _, _, _) => discriminate H
         | ret _ _ = (Some _, _, _) => injection H as <- _ _
         end;
  try discriminate; try reflexivity.

Lemma nonRegister_buildInvite (targetUri callId fromTag sdp : string) :
  nonRegister (_buildInvite targetUri callId fromTag sdp).
Proof. unfold _buildInvite. nonreg_tac. Qed.

Lemma nonRegister_buildInviteWithAuth (h : hval) :
  nonRegister (_buildInviteWithAuth h).
Proof. unfold _buildInviteWithAuth. nonreg_tac. Qed.

Lemma nonRegister_buildAck (toTag : option string) : nonRegister (_buildAck toTag).
Proof. unfold _buildAck. nonreg_tac. Qed.

Lemma nonRegister_buildBye : nonRegister _buildBye.
Proof. unfold _buildBye. nonreg_tac. Qed.

Lemma nonRegister_buildCancel : nonRegister _buildCancel.
Proof. unfold _buildCancel. nonreg_tac. Qed.

Lemma nonRegister_buildInfo (digit : string) : nonRegister (_buildInfo digit).
Proof. unfold _buildInfo. nonreg_tac. Qed.

Lemma nonRegister_build200ForInvite (sdp : string) :
  nonRegister (_build200ForInvite sdp).
Proof. unfold _build200ForInvite. nonreg_tac. Qed.

Lemma nonRegister_build486 : nonRegister _build486.
Proof. unfold _build486. nonreg_tac. Qed.

Create HintDb nonreg.
#[local] Hint Resolve nonRegister_buildInvite nonRegister_buildInviteWithAuth
  nonRegister_buildAck nonRegister_buildBye nonRegister_buildCancel
  nonRegister_buildInfo nonRegister_build200ForInvite nonRegister_build486
  : nonreg.

Ltac quiet_wire :=
  match goal with
  | |- quiet (bind _ _) =>
      apply quiet_bind_wire;
      [ | solve [auto with nonreg] | intros ? ? ]
  | |- quiet (_send _) => apply quiet_send; assumption
  end.

Ltac quiet_all := repeat first [quiet_wire | quiet_step].

Lemma quiet_buildInvite (targetUri callId fromTag sdp : string) :
  quiet (_buildInvite targetUri callId fromTag sdp).
Proof. unfold _buildInvite. quiet_tac. Qed.

Lemma quiet_buildInviteWithAuth (h : hval) : quiet (_buildInviteWithAuth h).
Proof. unfold _buildInviteWithAuth. quiet_tac. Qed.

Lemma quiet_buildAck (toTag : option string) : quiet (_buildAck toTag).
Proof. unfold _buildAck. quiet_tac. Qed.

Lemma quiet_buildBye : quiet _buildBye.
Proof. unfold _buildBye. quiet_tac. Qed.

Lemma quiet_buildCancel : quiet _buildCancel.
Proof. unfold _buildCancel. quiet_tac. Qed.

Lemma quiet_buildInfo (digit : string) : quiet (_buildInfo digit).
Proof. unfold _buildInfo. quiet_tac. Qed.

Lemma quiet_build200ForInvite (sdp : string) : quiet (_build200ForInvite sdp).
Proof. unfold _build200ForInvite. quiet_tac. Qed.

Lemma quiet_build486 : quiet _build486.
Proof. unfold _build486. quiet_tac. Qed.

#[local] Hint Resolve quiet_buildInvite quiet_buildInviteWithAuth
  quiet_buildAck quiet_buildBye quiet_buildCancel quiet_buildInfo
  quiet_build200ForInvite quiet_build486 : quiet.

Lemma quiet_hangup : quiet hangup.
Proof. unfold hangup. quiet_all. Qed.

#[local] Hint Resolve quiet_hangup : quiet.

Lemma quiet_stop : quiet stop.
Proof. unfold stop. quiet_all. Qed.

Lemma quiet_invite target rnd rtpPort sessionId :
  quiet (invite target rnd rtpPort sessionId).
Proof. unfold invite. quiet_all. Qed.

Lemma quiet_answerIncoming rnd rtpPort sessionId :
  quiet (answerIncoming rnd rtpPort sessionId).
Proof. unfold answerIncoming. quiet_all. Qed.

Lemma quiet_toggleMute : quiet toggleMute.
Proof. unfold toggleMute. quiet_all. Qed.

Lemma quiet_sendDtmf digit : quiet (sendDtmf digit).
Proof. unfold sendDtmf. quiet_all. Qed.

Lemma quiet_matchCapture v f : quiet (matchCapture v f).
Proof. unfold matchCapture. quiet_all. Qed.

#[local] Hint Resolve quiet_matchCapture : quiet.

Lemma quiet_handleInviteResponse msg : quiet (_handleInviteResponse msg).
Proof. unfold _handleInviteResponse. quiet_all. Qed.

Lemma quiet_handleIncomingInvite msg address port :
  quiet (_handleIncomingInvite msg address port).
Proof. unfold _handleIncomingInvite. quiet_all. Qed.

Lemma quiet_reply200 msg : quiet (_reply200 msg).
Proof. unfold _reply200. quiet_all. Qed.

#[local] Hint Resolve quiet_reply200 : quiet.

Lemma quiet_handleBye msg : quiet (_handleBye msg).
Proof. unfold _handleBye. quiet_all. Qed.

Lemma quiet_handleIncomingCancel msg : quiet (_handleIncomingCancel msg).
Proof. unfold _handleIncomingCancel. quiet_all. Qed.

Lemma quiet_replyToOptions msg : quiet (_replyToOptions msg).
Proof. unfold _replyToOptions. quiet_all. Qed.

(** [w] is a REGISTER of the registration of [ua] with CSeq number [n]. *)
Definition regWire (ua : SipUA) (n : Z) (w : Wire) : Prop :=
  header "CSeq" w = Some (pretty n +:+ " REGISTER") /\
  header "Call-ID" w = Some (registerCallId ua) /\
  header "From" w = Some (fromLine ua (localTag ua)).

(** A method that keeps Call-ID, tag and configuration, and either sends no
    REGISTER and does not lower the CSeq counter, or sends one REGISTER,
    whose CSeq number is the raised counter. *)
Definition announces {A : Type} (m : M A) : Prop :=
  forall ua,
    config (snd (fst (m ua))) = config ua /\
    localTag (snd (fst (m ua))) = localTag ua /\
    registerCallId (snd (fst (m ua))) = registerCallId ua /\
    ((registersOf (snd (m ua)) = [] /\
      registerCSeq ua <= registerCSeq (snd (fst (m ua)))) \/
     (exists w, registersOf (snd (m ua)) = [w] /\
        regWire ua (registerCSeq (snd (fst (m ua)))) w /\
        registerCSeq ua < registerCSeq (snd (fst (m ua))))).

Lemma quiet_announces {A : Type} (m : M A) : quiet m -> announces m.
Proof.
  intros H ua. destruct (H ua) as [Hv Ho]. unfold regView in Hv.
  injection Hv as H1 H2 H3 H4. repeat split; try assumption.
  left. split; [assumption | lia].
Qed.

Ltac case_all :=
  repeat match goal with
         | |- context [match ?x with _ => _ end] =>
             lazymatch x with
             | context [match _ with _ => _ end] => fail
             | _ => idtac
             end;
             match type of x with
             | Transport => destruct x
             | bool => destruct x eqn:?
             | option _ => destruct x as [?|] eqn:?
             | prod _ _ => is_var x; destruct x as [? ?]
             | hval => destruct x
             end; cbn
         end.

Ltac announce_tac :=
  intros ua; cbn; case_all;
  (split; [reflexivity|]); (split; [reflexivity|]); (split; [reflexivity|]);
  first [ left; split; [reflexivity | cbn; lia]
        | right; eexists; split; [reflexivity|];
          split; [repeat split | cbn; lia] ].

Lemma announces_register ip bound : announces (register ip bound).
Proof.
  unfold announces, register, start, incrementRegisterCSeq, _buildRegister,
    _startRegisterRetryTimer, _send, generateBranch, randomBytesHex,
    bind, get, modify, ret, throw, transmit.
  announce_tac.
Qed.

Lemma announces_registerRetryTimeout : announces registerRetryTimeout.
Proof.
  unfold announces, registerRetryTimeout, incrementRegisterCSeq, _buildRegister,
    _startRegisterRetryTimer, _send, generateBranch, randomBytesHex,
    bind, get, modify, ret, throw, transmit.
  announce_tac.
Qed.

Lemma announces_registerRefresh : announces registerRefresh.
Proof.
  unfold announces, registerRefresh, incrementRegisterCSeq, _buildRegister,
    _send, generateBranch, randomBytesHex,
    bind, get, modify, ret, throw, transmit.
  announce_tac.
Qed.

Lemma announces_unregister : announces unregister.
Proof.
  unfold announces, unregister, incrementRegisterCSeq, _buildRegister,
    _send, generateBranch, randomBytesHex,
    bind, get, modify, ret, throw, transmit.
  announce_tac.
Qed.

Lemma announces_handleRegisterResponse msg :
  announces (_handleRegisterResponse msg).
Proof.
  unfold announces, _handleRegisterResponse, _buildRegisterWithAuth,
    parseAuthHeader, _startRegisterRetryTimer, _send, generateBranch,
    randomBytesHex, bind, get, modify, ret, throw, transmit.
  announce_tac.
Qed.

Lemma announces_startSocket ip : announces (startSocket ip).
Proof.
  unfold announces, startSocket, bind, get, modify, ret, throw, transmit.
  announce_tac.
Qed.

Lemma announces_registerResumed endpoint : announces (registerResumed endpoint).
Proof.
  unfold announces, registerResumed, incrementRegisterCSeq, _buildRegister,
    _startRegisterRetryTimer, _send, generateBranch, randomBytesHex,
    bind, get, modify, ret, throw, transmit.
  announce_tac.
Qed.

Lemma announces_handle (ev : Event) : announces (handle ev).
Proof.
  destruct ev; cbn [handle];
    first [ apply announces_register
          | apply announces_registerRetryTimeout
          | apply announces_registerRefresh
          | apply announces_unregister
          | apply announces_handleRegisterResponse
          | apply announces_startSocket
          | apply announces_registerResumed
          | apply quiet_announces ].
  - apply quiet_stop.
  - apply quiet_invite.
  - apply quiet_answerIncoming.
  - apply quiet_hangup.
  - apply quiet_bind; [apply quiet_toggleMute | intros; apply quiet_ret].
  - apply quiet_sendDtmf.
  - apply quiet_modifyCall.
  - apply quiet_handleInviteResponse.
  - apply quiet_handleIncomingInvite.
  - apply quiet_handleBye.
  - apply quiet_handleIncomingCancel.
  - apply quiet_replyToOptions.
  - apply quiet_reply200.
  - unfold onSocketError. quiet_all.
  - unfold onSocketClose. quiet_all.
  - apply quiet_modifyCall.
  - apply quiet_modifyCall.
Qed.

(** [ascending lo ns hi]: [lo < n1 < n2 < ... <= hi]. *)
Fixpoint ascending (lo : Z) (ns : list Z) (hi : Z) : Prop :=
  match ns with
  | [] => lo <= hi
  | n :: ns' => lo < n /\ ascending n ns' hi
  end.

Lemma ascending_app (ns ms : list Z) :
  forall lo mid hi, ascending lo ns mid -> ascending mid ms hi ->
  ascending lo (ns ++ ms) hi.
Proof.
  induction ns as [|n ns IH]; intros lo mid hi H1 H2; cbn in *.
  - destruct ms as [|m ms]; cbn in *; [lia|]. split; [lia | tauto].
  - split; [tauto|]. apply (IH _ mid); tauto.
Qed.

Lemma ascending_above (ns : list Z) :
  forall lo hi, ascending lo ns hi -> Forall (fun n => lo < n) ns.
Proof.
  induction ns as [|n ns IH]; intros lo hi H; constructor; cbn in H.
  - tauto.
  - destruct H as [H1 H2]. apply IH in H2.
    eapply Forall_impl; [exact H2|]. cbn. intros; lia.
Qed.

Lemma ascending_sorted (ns : list Z) :
  forall lo hi, ascending lo ns hi -> StronglySorted Z.lt ns.
Proof.
  induction ns as [|n ns IH]; intros lo hi H; constructor; cbn in H.
  - exact (IH _ _ (proj2 H)).
  - exact (ascending_above _ _ _ (proj2 H)).
Qed.

(** Along a run, the REGISTER requests sent carry ascending CSeq numbers
    between the counter before and the counter after, and the Call-ID and
    From line of the registration. *)
Lemma run_registers (evs : list Event) :
  forall ua,
    config (fst (run ua evs)) = config ua /\
    localTag (fst (run ua evs)) = localTag ua /\
    registerCallId (fst (run ua evs)) = registerCallId ua /\
    exists ns,
      Forall2 (regWire ua) ns (registersOf (snd (run ua evs))) /\
      ascending (registerCSeq ua) ns (registerCSeq (fst (run ua evs))).
Proof.
  induction evs as [|ev evs IH]; intros ua.
  - cbn. repeat split. exists []. split; [constructor | cbn; lia].
  - cbn [run]. unfold step.
    pose proof (announces_handle ev ua) as (Hc & Ht & Hi & Hcase).
    destruct (handle ev ua) as [[r ua1] out1]. cbn [fst snd] in *.
    specialize (IH ua1). destruct (run ua1 evs) as [ua2 out2].
    cbn [fst snd] in *. destruct IH as (Hc2 & Ht2 & Hi2 & ns & Hf & Ha).
    split; [congruence|]. split; [congruence|]. split; [congruence|].
    assert (Hf' : Forall2 (regWire ua) ns (registersOf out2)).
    { eapply Forall2_impl; [exact Hf|]. unfold regWire, fromLine.
      intros n w. rewrite Hc, Ht, Hi. auto. }
    rewrite registersOf_app.
    destruct Hcase as [[Ho Hle] | (w & Ho & Hw & Hlt)]; rewrite Ho.
    + exists ns. split; [exact Hf'|].
      apply (ascending_app [] ns _ (registerCSeq ua1)); [cbn; lia | exact Ha].
    + exists (registerCSeq ua1 :: ns). split; [constructor; assumption|].
      cbn. split; [lia | exact Ha].
Qed.

(** The CSeq line of a REGISTER determines its number. *)
Lemma cseq_line_number (a b : Z) :
  pretty a +:+ " REGISTER" = pretty b +:+ " REGISTER" -> a = b.
Proof. intros H. apply append_inj_r in H. exact (pretty_Z_inj _ _ H). Qed.

(** C2: in any run of the agent, the REGISTER requests it sends -- from
    [register], the retry timer, the answer to a 401 or 407, the refresh
    interval and [unregister] -- carry CSeq numbers each greater than the
    ones before (and than the counter at the start), and all carry the
    Call-ID and the From line, with its tag, of the registration. *)
Theorem register_cseq_increasing (ua : SipUA) (evs : list Event) :
  exists ns : list Z,
    Forall2 (fun n w =>
               header "CSeq" w = Some (pretty n +:+ " REGISTER") /\
               header "Call-ID" w = Some (registerCallId ua) /\
               header "From" w = Some (fromLine ua (localTag ua)))
            ns (registersOf (snd (run ua evs))) /\
    StronglySorted Z.lt ns /\
    Forall (fun n => registerCSeq ua < n) ns.
Proof.
  destruct (run_registers evs ua) as (_ & _ & _ & ns & Hf & Ha).
  exists ns. split; [exact Hf|]. split.
  - exact (ascending_sorted _ _ _ Ha).
  - exact (ascending_above _ _ _ Ha).
Qed.

(** *** A second INVITE during a call *)

(** The transport can send: the socket is bound, or connected. *)
Definition canSend (ua : SipUA) : bool :=
  match transport (config ua) with
  | UDP => udpSocket ua && Rtp.validPort (Some (port (config ua)))
  | _ => tcpSocket ua && tcpConnected ua
  end.

Lemma send_canSend (w : Wire) (ua : SipUA) :
  canSend ua = true -> _send w ua = (Some tt, ua, [w]).
Proof.
  unfold canSend, _send, bind, get, transmit. cbn.
  destruct (transport (config ua)); intros H; rewrite ?H; [|reflexivity ..].
  apply andb_prop in H as [-> ->]. reflexivity.
Qed.

(** The 486 that answers [msg], with [tag] added to To. *)
Definition busyHere (msg : Message) (tag : string) : Wire :=
  {| startLine := "SIP/2.0 486 Busy Here";
     lines :=
       [("Via", tpl (headers msg !! "via"));
        ("From", tpl (orElse (headers msg !! "from") (Some (HStr ""))));
        ("To", tpl (headers msg !! "to") +:+ ";tag=" +:+ tag);
        ("Call-ID", tpl (headers msg !! "call-id"));
        ("CSeq", tpl (headers msg !! "cseq"));
        ("Content-Length", "0")];
     payload := "" |}.

(** C9, amended: an INVITE that arrives during an active call leaves the call
    record, with its engine, as it is, whatever the message and the state
    of the transport.  On a transport that can send, and with a From header
    that is not repeated, it is answered by one message, the 486 that
    echoes Via, From, To with a fresh tag, Call-ID and CSeq, and the whole
    agent is as before but for the count of random draws. *)
Theorem busy_invite_keeps_call (ua : SipUA) (c : Call.t) (msg : Message)
    (address : string) (port : Z) :
  call ua = Some c ->
  Call.state c = Active ->
  call (fst (step ua (EvIncomingInvite msg address port))) = Some c /\
  (canSend ua = true ->
   (forall l, headers msg !! "from" <> Some (HArr l)) ->
   step ua (EvIncomingInvite msg address port)
     = (set_draws (S (draws ua)) ua, [busyHere msg (randomHex (draws ua) 8)])).
Proof.
  intros Hc Hs. split.
  - unfold step, handle, _handleIncomingInvite.
    destruct (orElse (headers msg !! "from") (Some (HStr ""))) as [[s|l]|];
      cbn [matchCapture]; try exact Hc.
    unfold bind at 1. cbn [ret]. unfold bind at 1. cbn [get].
    unfold isActive. rewrite Hc, Hs.
    unfold bind, generateTag, randomBytesHex, _send, get, transmit, throw, ret.
    cbn. destruct (transport (config ua));
      repeat match goal with
             | |- context [if ?b then _ else _] => destruct b; cbn
             end; exact Hc.
  - intros Hsend Hfrom.
    unfold step, handle, _handleIncomingInvite.
    assert (Hm : exists s, orElse (headers msg !! "from") (Some (HStr ""))
                           = Some (HStr s)).
    { unfold orElse. destruct (headers msg !! "from") as [[s|l]|] eqn:E; cbn.
      - destruct (negb (String.eqb s "")); eauto.
      - exfalso. exact (Hfrom l eq_refl).
      - eauto. }
    destruct Hm as [s Hm]. unfold bind at 1. rewrite Hm.
    cbn [matchCapture ret]. unfold bind at 1. cbn [get].
    unfold isActive. rewrite Hc, Hs.
    unfold bind, generateTag, randomBytesHex.
    rewrite send_canSend by exact Hsend.
    unfold busyHere, echo. rewrite Hm. reflexivity.
Qed.

(** With a repeated From header the handler throws on [fromHeader.match]
    before it sends; the agent is untouched. *)
Lemma busy_invite_repeated_from (ua : SipUA) (msg : Message) (l : list string)
    (address : string) (port : Z) :
  headers msg !! "from" = Some (HArr l) ->
  _handleIncomingInvite msg address port ua = (None, ua, []).
Proof.
  intros H. unfold _handleIncomingInvite, orElse. rewrite H. reflexivity.
Qed.

(** *** A challenged INVITE *)

(** What the agent sends on a 401 or 407 to its INVITE, the description
    of the call being set: an ACK whose Via branch is a fresh draw, with
    the CSeq number of the INVITE and the To tag of the response, then the
    INVITE again with another fresh branch, the CSeq number raised by one,
    an Authorization header, and the Call-ID and From tag of the call. *)
Lemma invite_challenge_resend (ua : SipUA) (c : Call.t) (msg : Message)
    (h toHeader sdp : string) (auth : gmap string string) :
  call ua = Some c ->
  Call.localSdp c = Some sdp ->
  canSend ua = true ->
  statusCode msg = 401 \/ statusCode msg = 407 ->
  authChallenge msg = Some (HStr h) ->
  Digest.parseAuthHeader h = Some auth ->
  orElse (headers msg !! "to") (Some (HStr "")) = Some (HStr toHeader) ->
  let toTag :=
    match captureAfter ";tag=" isTagChar toHeader with
    | Some t => Some t
    | None => Call.toTag c
    end in
  exists ack authedInvite,
    snd (step ua (EvInviteResponse msg)) = [ack; authedInvite] /\
    header "Via" ack
      = Some (viaLine ua ("z9hG4bK" +:+ randomHex (draws ua) 8)) /\
    header "CSeq" ack = Some (pretty (Call.cseq c) +:+ " ACK") /\
    header "To" ack
      = Some ("<" +:+ tplUndef (Call.targetUri c) +:+ ">;tag="
              +:+ tplNull (orStr toTag (Some ""))) /\
    header "Via" authedInvite
      = Some (viaLine ua ("z9hG4bK" +:+ randomHex (S (draws ua)) 8)) /\
    header "CSeq" authedInvite
      = Some (pretty (Call.cseq c + 1) +:+ " INVITE") /\
    header "Authorization" authedInvite
      = Some (Digest.buildAuthorizationHeader md5 auth "INVITE"
                (tplUndef (Call.targetUri c))
                (extension (config ua)) (password (config ua))) /\
    header "Call-ID" authedInvite = Some (tpl (Call.callId c)) /\
    header "From" authedInvite
      = Some (fromLine ua (tplNull (Call.fromTag c))).
Proof.
  intros Hc Hsdp Hsend Hst Hauth Hparse Hto toTag.
  assert (Hbranch : (statusCode msg =? 100) = false /\
                    (statusCode msg =? 180) || (statusCode msg =? 183) = false /\
                    (statusCode msg =? 401) || (statusCode msg =? 407) = true).
  { destruct Hst as [-> | ->]; repeat split; reflexivity. }
  destruct Hbranch as (H100 & H18x & H40x).
  unfold step, handle, _handleInviteResponse.
  unfold bind at 1. cbn [get]. rewrite Hc.
  unfold bind at 1. rewrite Hto. cbn [matchCapture ret].
  rewrite H100, H18x, H40x, Hauth.
  subst toTag. unfold canSend in Hsend.
  destruct (captureAfter ";tag=" isTagChar toHeader) as [t|];
    unfold bind, modifyCall, modify, get, ret, _buildAck, _buildInviteWithAuth,
      generateBranch, randomBytesHex, parseAuthHeader, callToTag, _send,
      transmit;
    destruct (transport (config ua)) eqn:Et;
    try (apply andb_prop in Hsend as [Hsend Hport];
         unfold Rtp.validPort in Hport);
    repeat (progress (cbn; rewrite ?Hc, ?Hsdp, ?Hsend, ?Hport, ?Hparse, ?Et));
    do 2 eexists; (split; [reflexivity|]);
    repeat split; reflexivity.
Qed.

(** *** Invariants of the agent

    [hoare Inv Sent Q m]: started in a state that satisfies [Inv], the
    method [m] ends in such a state, hands to the transport only messages
    that satisfy [Sent], and returns, if it returns, a value that satisfies [Q]. *)

Definition hoare {A : Type} (Inv : SipUA -> Prop) (Sent : Wire -> Prop)
    (Q : A -> Prop) (m : M A) : Prop :=
  forall ua, Inv ua ->
    Inv (snd (fst (m ua))) /\ Forall Sent (snd (m ua)) /\
    match fst (fst (m ua)) with Some a => Q a | None => True end.

(** The invariant and the result that say nothing. *)
Definition always (_ : SipUA) : Prop := True.
Definition anything {A : Type} (_ : A) : Prop := True.

Section Hoare.

Variable Inv : SipUA -> Prop.
Variable Sent : Wire -> Prop.

Lemma hoare_weaken {A : Type} (Q Q' : A -> Prop) (m : M A) :
  (forall a, Q a -> Q' a) -> hoare Inv Sent Q m -> hoare Inv Sent Q' m.
Proof.
  intros HQ H ua Hi. destruct (H ua Hi) as (H1 & H2 & H3).
  split; [exact H1|]. split; [exact H2|].
  destruct (fst (fst (m ua))); auto.
Qed.

Lemma hoare_ret {A : Type} (Q : A -> Prop) (a : A) : Q a -> hoare Inv Sent Q (ret a).
Proof. intros Hq ua Hi. cbn. auto. Qed.

Lemma hoare_throw {A : Type} (Q : A -> Prop) : hoare Inv Sent Q (@throw A).
Proof. intros ua Hi. cbn. auto. Qed.

Lemma hoare_get : hoare Inv Sent Inv get.
Proof. intros ua Hi. cbn. auto. Qed.

Lemma hoare_modify (f : SipUA -> SipUA) :
  (forall ua, Inv ua -> Inv (f ua)) -> hoare Inv Sent (fun _ : unit => True) (modify f).
Proof. intros Hf ua Hi. cbn. auto. Qed.

Lemma hoare_transmit (w : Wire) : Sent w -> hoare Inv Sent (fun _ : unit => True) (transmit w).
Proof. intros Hw ua Hi. cbn. auto. Qed.

Lemma hoare_bind {A B : Type} (Q : A -> Prop) (R : B -> Prop) (m : M A)
    (k : A -> M B) :
  hoare Inv Sent Q m -> (forall a, Q a -> hoare Inv Sent R (k a)) ->
  hoare Inv Sent R (bind m k).
Proof.
  intros Hm Hk ua Hi. destruct (Hm ua Hi) as (H1 & H2 & H3). unfold bind.
  destruct (m ua) as [[[a|] ua1] out1]; cbn [fst snd] in *.
  - destruct (Hk a H3 ua1 H1) as (K1 & K2 & K3).
    destruct (k a ua1) as [[r ua2] out2]. cbn [fst snd] in *.
    split; [exact K1|]. split; [|exact K3]. apply Forall_app. auto.
  - auto.
Qed.

End Hoare.

(** A run keeps an invariant that every event keeps. *)
Lemma hoare_run (Inv : SipUA -> Prop) (Sent : Wire -> Prop)
    (allowed : Event -> bool) :
  (forall ev, allowed ev = true ->
     hoare Inv Sent anything (handle ev)) ->
  forall evs ua, forallb allowed evs = true -> Inv ua ->
  Inv (fst (run ua evs)) /\ Forall Sent (snd (run ua evs)).
Proof.
  intros Hh. induction evs as [|ev evs IH]; intros ua Hevs Hi.
  - cbn. auto.
  - cbn [forallb] in Hevs. apply andb_prop in Hevs as [Hev Hevs].
    cbn [run]. unfold step.
    destruct (Hh ev Hev ua Hi) as (H1 & H2 & _).
    destruct (handle ev ua) as [[r ua1] out1]. cbn [fst snd] in *.
    destruct (IH ua1 Hevs H1) as (K1 & K2).
    destruct (run ua1 evs) as [ua2 out2]. cbn [fst snd] in *.
    split; [exact K1|]. apply Forall_app. auto.
Qed.

(** *** Every message declares the length of its body *)

Definition declaresLength (w : Wire) : Prop :=
  header "Content-Length" w = Some (pretty (byteLength (payload w))).


Lemma hoare_any {A : Type} (Inv : SipUA -> Prop) (Sent : Wire -> Prop)
    (Q : A -> Prop) (m : M A) :
  hoare Inv Sent Q m -> hoare Inv Sent anything m.
Proof. apply hoare_weaken. intros; exact Logic.I. Qed.

Lemma length_random (n : nat) :
  hoare always declaresLength anything (randomBytesHex n).
Proof. intros ua _. cbn. unfold always, anything. auto. Qed.

Lemma length_send (w : Wire) :
  declaresLength w -> hoare always declaresLength anything (_send w).
Proof.
  intros Hw ua _. unfold _send, bind, get, transmit, throw, ret. cbn.
  destruct (transport (config ua));
    repeat match goal with
           | |- context [if ?b then _ else _] => destruct b
           end; cbn; unfold always, anything; auto.
Qed.

Create HintDb hoare.
#[local] Hint Resolve length_random : hoare.

Ltac hoare_leaf :=
  first [ exact Logic.I | reflexivity | assumption
        | (intros; exact Logic.I) ].

(** Decompose a method along its binds and case distinctions; [send]
    treats a call of [_send], [leaf] a side condition. *)
Ltac hoare_gen send leaf :=
  match goal with
  | |- forall _, _ => intros
  | |- hoare _ _ _ (bind get _) =>
      eapply hoare_bind; [apply hoare_get | intros ? ?]
  | |- hoare _ _ _ (bind _ _) =>
      eapply hoare_bind; [solve [eauto with hoare] | intros ? ?]
  | |- hoare _ _ _ (bind _ _) =>
      eapply (hoare_bind _ _ anything); [|intros ? ?]
  | |- hoare _ _ _ (when ?b _) => unfold when; destruct b
  | |- hoare _ _ _ (match ?x with _ => _ end) => destruct x
  | |- hoare _ _ _ (let '(_, _) := ?x in _) => destruct x
  | |- hoare _ _ _ (ret _) => apply hoare_ret; leaf
  | |- hoare _ _ _ throw => apply hoare_throw
  | |- hoare _ _ _ (modify _) => apply hoare_modify; leaf
  | |- hoare _ _ _ (modifyCall _) =>
      unfold modifyCall; apply hoare_modify; leaf
  | |- hoare _ _ _ (_send _) => send
  | |- hoare _ _ anything _ => solve [eauto using hoare_any with hoare]
  end.

Ltac hoare_tac :=
  repeat hoare_gen ltac:(apply length_send; hoare_leaf) ltac:(hoare_leaf).

Lemma length_generateBranch :
  hoare always declaresLength anything generateBranch.
Proof. unfold generateBranch. hoare_tac. Qed.

Lemma length_generateTag : hoare always declaresLength anything generateTag.
Proof. apply length_random. Qed.

Lemma length_generateCallId :
  hoare always declaresLength anything generateCallId.
Proof. apply length_random. Qed.

#[local] Hint Resolve length_generateBranch length_generateTag
  length_generateCallId : hoare.

Lemma length_parseAuthHeader (h : hval) :
  hoare always declaresLength anything (parseAuthHeader h).
Proof. unfold parseAuthHeader. hoare_tac. Qed.

#[local] Hint Resolve length_parseAuthHeader : hoare.

Lemma length_buildRegister (expires : Z) :
  hoare always declaresLength declaresLength (_buildRegister expires).
Proof. unfold _buildRegister. hoare_tac. Qed.

Lemma length_buildRegisterWithAuth (h : hval) (expires : Z) :
  hoare always declaresLength declaresLength (_buildRegisterWithAuth h expires).
Proof. unfold _buildRegisterWithAuth. hoare_tac. Qed.

Lemma length_buildInvite (targetUri callId fromTag sdp : string) :
  hoare always declaresLength declaresLength
        (_buildInvite targetUri callId fromTag sdp).
Proof. unfold _buildInvite. hoare_tac. Qed.

Lemma length_buildInviteWithAuth (h : hval) :
  hoare always declaresLength declaresLength (_buildInviteWithAuth h).
Proof. unfold _buildInviteWithAuth. hoare_tac. Qed.

Lemma length_buildAck (toTag : option string) :
  hoare always declaresLength declaresLength (_buildAck toTag).
Proof. unfold _buildAck. hoare_tac. Qed.

Lemma length_buildBye : hoare always declaresLength declaresLength _buildBye.
Proof. unfold _buildBye. hoare_tac. Qed.

Lemma length_buildCancel :
  hoare always declaresLength declaresLength _buildCancel.
Proof. unfold _buildCancel. hoare_tac. Qed.

Lemma length_buildInfo (digit : string) :
  hoare always declaresLength declaresLength (_buildInfo digit).
Proof. unfold _buildInfo. hoare_tac. Qed.

Lemma length_build200ForInvite (sdp : string) :
  hoare always declaresLength declaresLength (_build200ForInvite sdp).
Proof. unfold _build200ForInvite. hoare_tac. Qed.

Lemma length_build486 : hoare always declaresLength declaresLength _build486.
Proof. unfold _build486. hoare_tac. Qed.

Lemma length_buildSdp (sessionId rtpPort : Z) :
  hoare always declaresLength anything (_buildSdp sessionId rtpPort).
Proof. unfold _buildSdp. hoare_tac. Qed.

#[local] Hint Resolve length_buildRegister length_buildRegisterWithAuth
  length_buildInvite length_buildInviteWithAuth length_buildAck
  length_buildBye length_buildCancel length_buildInfo
  length_build200ForInvite length_build486 length_buildSdp : hoare.

Lemma length_start ip bound :
  hoare always declaresLength anything (start ip bound).
Proof. unfold start. hoare_tac. Qed.

Lemma length_endCall : hoare always declaresLength anything _endCall.
Proof. unfold _endCall. hoare_tac. Qed.

Lemma length_hangup : hoare always declaresLength anything hangup.
Proof. unfold hangup. pose proof length_endCall. hoare_tac. Qed.

#[local] Hint Resolve length_start length_endCall length_hangup : hoare.

Lemma length_matchCapture v f :
  hoare always declaresLength anything (matchCapture v f).
Proof. unfold matchCapture. hoare_tac. Qed.

Lemma length_reply200 msg : hoare always declaresLength anything (_reply200 msg).
Proof. unfold _reply200. hoare_tac. Qed.

Lemma length_toggleMute : hoare always declaresLength anything toggleMute.
Proof. unfold toggleMute. hoare_tac. Qed.

#[local] Hint Resolve length_matchCapture length_reply200 length_toggleMute
  : hoare.

Lemma length_handle (ev : Event) :
  hoare always declaresLength anything (handle ev).
Proof.
  destruct ev; cbn [handle].
  - unfold register, incrementRegisterCSeq, _startRegisterRetryTimer. hoare_tac.
  - unfold registerRetryTimeout, incrementRegisterCSeq,
      _startRegisterRetryTimer. hoare_tac.
  - unfold registerRefresh, incrementRegisterCSeq. hoare_tac.
  - unfold unregister, incrementRegisterCSeq. hoare_tac.
  - unfold stop. hoare_tac.
  - unfold invite. hoare_tac.
  - unfold answerIncoming. hoare_tac.
  - apply length_hangup.
  - hoare_tac.
  - unfold sendDtmf. hoare_tac.
  - unfold feedMicAudio. hoare_tac.
  - unfold _handleRegisterResponse, _startRegisterRetryTimer. hoare_tac.
  - unfold _handleInviteResponse, _endCall. hoare_tac.
  - unfold _handleIncomingInvite. hoare_tac.
  - unfold _handleBye, _endCall. hoare_tac.
  - unfold _handleIncomingCancel, _endCall. hoare_tac.
  - unfold _replyToOptions. hoare_tac.
  - apply length_reply200.
  - unfold onSocketError. hoare_tac.
  - unfold onSocketClose. hoare_tac.
  - unfold onEngine. hoare_tac.
  - unfold onEngine. hoare_tac.
  - unfold startSocket. hoare_tac.
  - unfold registerResumed, incrementRegisterCSeq, _startRegisterRetryTimer.
    hoare_tac.
Qed.

(** X16: every message that the agent hands to the transport, request or
    response, in any run, carries a Content-Length header that gives the
    length of its body. *)
Theorem sent_messages_declare_length (ua : SipUA) (evs : list Event) :
  Forall (fun w => header "Content-Length" w
                   = Some (pretty (byteLength (payload w))))
         (snd (run ua evs)).
Proof.
  apply (hoare_run always declaresLength (fun _ => true)).
  - intros ev _. apply length_handle.
  - clear. induction evs; [reflexivity | assumption].
  - exact Logic.I.
Qed.

(** *** Nothing is sent without a socket *)

(** Neither socket is there: the state before [start] and after [stop]. *)
Definition noSocket (ua : SipUA) : Prop :=
  udpSocket ua = false /\ tcpSocket ua = false.

Definition never (_ : Wire) : Prop := False.

(** The events in which [start()] creates a socket. *)
Definition opensSocket (ev : Event) : bool :=
  match ev with
  | EvRegister _ _ | EvStartSocket _ => true
  | _ => false
  end.

Lemma silent_random (n : nat) : hoare noSocket never anything (randomBytesHex n).
Proof. intros ua Hi. cbn. unfold anything. auto. Qed.

Lemma silent_send (w : Wire) : hoare noSocket never anything (_send w).
Proof.
  intros ua [Hu Ht]. unfold _send, bind, get, transmit, throw, ret. cbn.
  rewrite Hu, Ht. unfold noSocket, anything.
  destruct (transport (config ua)); cbn; auto.
Qed.

#[local] Hint Resolve silent_random : hoare.

Ltac silent_leaf :=
  first [ exact Logic.I
        | (intros; exact Logic.I)
        | (unfold noSocket; cbn; intros ? [? ?]; auto) ].

Ltac silent_tac := repeat hoare_gen ltac:(apply silent_send) ltac:(silent_leaf).

Lemma silent_generateBranch : hoare noSocket never anything generateBranch.
Proof. unfold generateBranch. silent_tac. Qed.

Lemma silent_generateTag : hoare noSocket never anything generateTag.
Proof. apply silent_random. Qed.

Lemma silent_generateCallId : hoare noSocket never anything generateCallId.
Proof. apply silent_random. Qed.

#[local] Hint Resolve silent_generateBranch silent_generateTag
  silent_generateCallId : hoare.

Lemma silent_parseAuthHeader (h : hval) :
  hoare noSocket never anything (parseAuthHeader h).
Proof. unfold parseAuthHeader. silent_tac. Qed.

#[local] Hint Resolve silent_parseAuthHeader : hoare.

Lemma silent_buildRegister (expires : Z) :
  hoare noSocket never anything (_buildRegister expires).
Proof. unfold _buildRegister. silent_tac. Qed.

Lemma silent_buildRegisterWithAuth (h : hval) (expires : Z) :
  hoare noSocket never anything (_buildRegisterWithAuth h expires).
Proof. unfold _buildRegisterWithAuth. silent_tac. Qed.

Lemma silent_buildInvite (targetUri callId fromTag sdp : string) :
  hoare noSocket never anything (_buildInvite targetUri callId fromTag sdp).
Proof. unfold _buildInvite. silent_tac. Qed.

Lemma silent_buildInviteWithAuth (h : hval) :
  hoare noSocket never anything (_buildInviteWithAuth h).
Proof. unfold _buildInviteWithAuth. silent_tac. Qed.

Lemma silent_buildAck (toTag : option string) :
  hoare noSocket never anything (_buildAck toTag).
Proof. unfold _buildAck. silent_tac. Qed.

Lemma silent_buildBye : hoare noSocket never anything _buildBye.
Proof. unfold _buildBye. silent_tac. Qed.

Lemma silent_buildCancel : hoare noSocket never anything _buildCancel.
Proof. unfold _buildCancel. silent_tac. Qed.

Lemma silent_buildInfo (digit : string) :
  hoare noSocket never anything (_buildInfo digit).
Proof. unfold _buildInfo. silent_tac. Qed.

Lemma silent_build200ForInvite (sdp : string) :
  hoare noSocket never anything (_build200ForInvite sdp).
Proof. unfold _build200ForInvite. silent_tac. Qed.

Lemma silent_build486 : hoare noSocket never anything _build486.
Proof. unfold _build486. silent_tac. Qed.

Lemma silent_buildSdp (sessionId rtpPort : Z) :
  hoare noSocket never anything (_buildSdp sessionId rtpPort).
Proof. unfold _buildSdp. silent_tac. Qed.

#[local] Hint Resolve silent_buildRegister silent_buildRegisterWithAuth
  silent_buildInvite silent_buildInviteWithAuth silent_buildAck
  silent_buildBye silent_buildCancel silent_buildInfo
  silent_build200ForInvite silent_build486 silent_buildSdp : hoare.

Lemma silent_endCall : hoare noSocket never anything _endCall.
Proof. unfold _endCall. silent_tac. Qed.

#[local] Hint Resolve silent_endCall : hoare.

Lemma silent_hangup : hoare noSocket never anything hangup.
Proof. unfold hangup. silent_tac. Qed.

Lemma silent_matchCapture v f :
  hoare noSocket never anything (matchCapture v f).
Proof. unfold matchCapture. silent_tac. Qed.

Lemma silent_reply200 msg : hoare noSocket never anything (_reply200 msg).
Proof. unfold _reply200. silent_tac. Qed.

Lemma silent_toggleMute : hoare noSocket never anything toggleMute.
Proof. unfold toggleMute. silent_tac. Qed.

#[local] Hint Resolve silent_hangup silent_matchCapture silent_reply200
  silent_toggleMute : hoare.

Lemma silent_handle (ev : Event) :
  opensSocket ev = false -> hoare noSocket never anything (handle ev).
Proof.
  intros Hev. destruct ev; try discriminate Hev; cbn [handle].
  - unfold registerRetryTimeout, incrementRegisterCSeq,
      _startRegisterRetryTimer. silent_tac.
  - unfold registerRefresh, incrementRegisterCSeq. silent_tac.
  - unfold unregister, incrementRegisterCSeq. silent_tac.
  - unfold stop. silent_tac.
  - unfold invite. silent_tac.
  - unfold answerIncoming. silent_tac.
  - apply silent_hangup.
  - silent_tac.
  - unfold sendDtmf. silent_tac.
  - unfold feedMicAudio. silent_tac.
  - unfold _handleRegisterResponse, _startRegisterRetryTimer. silent_tac.
  - unfold _handleInviteResponse, _endCall. silent_tac.
  - unfold _handleIncomingInvite. silent_tac.
  - unfold _handleBye, _endCall. silent_tac.
  - unfold _handleIncomingCancel, _endCall. silent_tac.
  - unfold _replyToOptions. silent_tac.
  - apply silent_reply200.
  - unfold onSocketError. silent_tac.
  - unfold onSocketClose. silent_tac.
  - unfold onEngine. silent_tac.
  - unfold onEngine. silent_tac.
  - unfold registerResumed, incrementRegisterCSeq, _startRegisterRetryTimer.
    silent_tac.
Qed.

Lemma never_nil (out : list Wire) : Forall never out -> out = [].
Proof. destruct 1 as [|w out Hw _]; [reflexivity | destruct Hw]. Qed.

Lemma run_noSocket (ua : SipUA) (evs : list Event) :
  forallb (fun ev => negb (opensSocket ev)) evs = true ->
  noSocket ua -> snd (run ua evs) = [].
Proof.
  intros Hevs Hi. apply never_nil.
  apply (hoare_run noSocket never (fun ev => negb (opensSocket ev)));
    [|exact Hevs|exact Hi].
  intros ev Hev. apply silent_handle. apply negb_true_iff, Hev.
Qed.

(** When [stop] returns, both sockets are gone. *)
Lemma stop_returns (ua ua' : SipUA) (out : list Wire) :
  stop ua = (Some tt, ua', out) -> noSocket ua'.
Proof.
  unfold stop. intros H.
  apply bind_Some in H as (a1 & u1 & o1 & p1 & _ & H).
  apply bind_Some in H as (a2 & u2 & o2 & p2 & _ & H).
  apply bind_Some in H as (a3 & u3 & o3 & p3 & _ & H).
  unfold bind, modify, get, when, ret in H. cbn in H.
  destruct (tcpSocket u3) eqn:E; cbn in H; injection H as <- _;
    split; cbn; auto.
Qed.

(** X17: without a socket the agent sends nothing.  Whatever is called and
    whatever arrives, late callbacks of closed sockets included, a new
    agent hands nothing to the transport as long as no [start()] has
    created a socket, and neither does an agent whose [stop()] has
    returned.  A [register()] that was called before [stop()] and still
    awaits its lookups is not cancelled: it is when it goes on and creates
    its socket that the silence ends. *)
Theorem nothing_sent_without_socket (evs : list Event) :
  forallb (fun ev => negb (opensSocket ev)) evs = true ->
  (forall cfg, snd (run (constructor cfg) evs) = []) /\
  (forall ua ua' out, handle EvStop ua = (Some tt, ua', out) ->
     snd (run ua' evs) = []).
Proof.
  intros Hevs. split.
  - intros cfg. apply run_noSocket; [exact Hevs | split; reflexivity].
  - intros ua ua' out H. apply run_noSocket; [exact Hevs|].
    exact (stop_returns ua ua' out H).
Qed.

(** The two steps of a [register()], with nothing in between, are the
    [register] of one event. *)
Lemma register_in_two_steps (ua : SipUA) (ip : string)
    (endpoint : string * Z) :
  run ua [EvStartSocket ip; EvStartResolved endpoint]
    = step ua (EvRegister ip (Some endpoint)).
Proof.
  destruct endpoint as [a p].
  unfold run, step, handle, register, start, startSocket, registerResumed,
    incrementRegisterCSeq, _buildRegister, _startRegisterRetryTimer, _send,
    generateBranch, randomBytesHex, bind, get, modify, ret, throw, transmit.
  destruct (transport (config ua)) eqn:Et;
    repeat (progress (cbn; rewrite ?Et));
    repeat match goal with
           | |- context [if ?b then _ else _] =>
               destruct b; repeat (progress (cbn; rewrite ?Et))
           end; rewrite ?app_nil_r; reflexivity.
Qed.

(** *** Registration without an answer *)

(** [k] expiries of the retry timeout. *)
Definition timeouts (k : nat) : list Event := repeat EvRegisterRetryTimeout k.

(** One expiry: the retry count does not go down, and a message is sent
    only as the count goes up to at most [maxRegisterRetries]. *)
Lemma timeout_step (ua : SipUA) :
  registerRetryCount ua
    <= registerRetryCount (fst (step ua EvRegisterRetryTimeout)) /\
  (snd (step ua EvRegisterRetryTimeout) = [] \/
   (exists w, snd (step ua EvRegisterRetryTimeout) = [w] /\ isRegister w = true) /\
   registerRetryCount (fst (step ua EvRegisterRetryTimeout))
     = registerRetryCount ua + 1 /\
   registerRetryCount ua + 1 <= maxRegisterRetries).
Proof.
  unfold step, handle, registerRetryTimeout, incrementRegisterCSeq,
    _buildRegister, _startRegisterRetryTimer, _send, generateBranch,
    randomBytesHex, bind, get, modify, ret, throw, transmit.
  cbn. case_all; (split; [cbn; lia|]);
    first [ left; reflexivity
          | right; split; [eexists; split; reflexivity|]; cbn; lia ].
Qed.

Lemma timeouts_bounded (k : nat) :
  forall ua,
  Z.of_nat (length (snd (run ua (timeouts k))))
    <= Z.max 0 (maxRegisterRetries - registerRetryCount ua) /\
  Forall (fun w => isRegister w = true) (snd (run ua (timeouts k))).
Proof.
  induction k as [|k IH]; intros ua; [cbn; split; [lia | constructor]|].
  cbn [timeouts repeat run]. fold (timeouts k).
  destruct (timeout_step ua) as [Hle Hcase].
  destruct (step ua EvRegisterRetryTimeout) as [ua1 out1]. cbn [fst snd] in *.
  destruct (IH ua1) as [IH1 IH2].
  destruct (run ua1 (timeouts k)) as [ua2 out2]. cbn [fst snd] in *.
  rewrite length_app.
  destruct Hcase as [-> | ((w & -> & Hw) & Hc & Hm)]; cbn [length app].
  - split; [lia | exact IH2].
  - split; [lia | constructor; assumption].
Qed.

(** [register]: at most one message, a REGISTER, and a retry count that
    is 0 or, when [start] failed, as before. *)
Lemma register_step (ua : SipUA) (ip : string) (bound : option (string * Z)) :
  (snd (step ua (EvRegister ip bound)) = [] \/
   exists w, snd (step ua (EvRegister ip bound)) = [w] /\ isRegister w = true) /\
  (registerRetryCount (fst (step ua (EvRegister ip bound))) = 0 \/
   registerRetryCount (fst (step ua (EvRegister ip bound)))
     = registerRetryCount ua).
Proof.
  unfold step, handle, register, start, incrementRegisterCSeq,
    _buildRegister, _startRegisterRetryTimer, _send, generateBranch,
    randomBytesHex, bind, get, modify, ret, throw, transmit.
  cbn. case_all; (split; [first [left; reflexivity | right; eexists; split; reflexivity]|]);
    cbn; auto.
Qed.

(** What a retry does on a transport that can send, while the agent is
    not registered and the timer is armed. *)
Definition retrying (ua : SipUA) (n : Z) : Prop :=
  canSend ua = true /\ registered ua = false /\
  registerRetryTimer ua = true /\ registerRetryCount ua = n.

Lemma timeout_retries (ua : SipUA) (n : Z) :
  retrying ua n -> n < maxRegisterRetries ->
  retrying (fst (step ua EvRegisterRetryTimeout)) (n + 1) /\
  length (snd (step ua EvRegisterRetryTimeout)) = 1%nat.
Proof.
  intros (Hs & Hr & Ht & Hn) Hlt. unfold maxRegisterRetries in Hlt.
  unfold retrying, canSend in *.
  unfold step, handle, registerRetryTimeout, incrementRegisterCSeq,
    _buildRegister, _startRegisterRetryTimer, _send, generateBranch,
    randomBytesHex, bind, get, modify, ret, throw, transmit.
  cbn. rewrite Ht, Hr. cbn.
  replace (registerRetryCount ua + 1 >? maxRegisterRetries) with false
    by (unfold maxRegisterRetries; lia).
  cbn. destruct (transport (config ua)) eqn:Et; cbn;
    try (apply andb_prop in Hs as [Hs1 Hs2]; unfold Rtp.validPort in Hs2);
    rewrite ?Hs, ?Hs1, ?Hs2; cbn; rewrite ?Et, ?Hs, ?Hs1, ?Hs2; cbn;
    repeat split; auto; lia.
Qed.

Lemma timeout_gives_up (ua : SipUA) :
  retrying ua maxRegisterRetries ->
  registerRetryTimer (fst (step ua EvRegisterRetryTimeout)) = false /\
  snd (step ua EvRegisterRetryTimeout) = [].
Proof.
  intros (Hs & Hr & Ht & Hn).
  unfold step, handle, registerRetryTimeout, bind, get, modify, ret.
  cbn. rewrite Ht, Hr. cbn. rewrite Hn. cbn. auto.
Qed.

Lemma timeout_disarmed (ua : SipUA) :
  registerRetryTimer ua = false ->
  step ua EvRegisterRetryTimeout = (ua, []).
Proof.
  intros Ht. unfold step, handle, registerRetryTimeout, bind, get, ret.
  cbn. rewrite Ht. reflexivity.
Qed.

Lemma timeouts_disarmed (k : nat) (ua : SipUA) :
  registerRetryTimer ua = false -> run ua (timeouts k) = (ua, []).
Proof.
  intros Ht. induction k as [|k IH]; [reflexivity|].
  cbn [timeouts repeat run]. fold (timeouts k).
  rewrite (timeout_disarmed ua Ht), IH. reflexivity.
Qed.

Lemma timeouts_exact (k : nat) :
  forall ua n, retrying ua n -> 0 <= n <= maxRegisterRetries ->
  Z.of_nat (length (snd (run ua (timeouts k))))
    = Z.min (Z.of_nat k) (maxRegisterRetries - n).
Proof.
  induction k as [|k IH]; intros ua n Hr Hn; [cbn; lia|].
  cbn [timeouts repeat run]. fold (timeouts k).
  destruct (Z.eq_dec n maxRegisterRetries) as [->|Hne].
  - destruct (timeout_gives_up ua Hr) as [Ht Ho].
    destruct (step ua EvRegisterRetryTimeout) as [ua1 out1]. cbn [fst snd] in *.
    rewrite (timeouts_disarmed k ua1 Ht). subst out1. cbn. lia.
  - destruct (timeout_retries ua n Hr ltac:(lia)) as [Hr1 Ho].
    destruct (step ua EvRegisterRetryTimeout) as [ua1 out1]. cbn [fst snd] in *.
    specialize (IH ua1 (n + 1) Hr1 ltac:(lia)).
    destruct (run ua1 (timeouts k)) as [ua2 out2]. cbn [snd] in *.
    rewrite length_app, Ho. lia.
Qed.

Lemma register_retrying (ua : SipUA) (ip a : string) (p : Z) :
  registered ua = false ->
  (transport (config ua) = UDP ->
   Rtp.validPort (Some (port (config ua))) = true) ->
  retrying (fst (step ua (EvRegister ip (Some (a, p))))) 0 /\
  length (snd (step ua (EvRegister ip (Some (a, p))))) = 1%nat.
Proof.
  intros Hr Hp. unfold retrying, canSend.
  unfold step, handle, register, start, incrementRegisterCSeq,
    _buildRegister, _startRegisterRetryTimer, _send, generateBranch,
    randomBytesHex, bind, get, modify, ret, throw, transmit.
  cbn. destruct (transport (config ua)) eqn:Et; cbn;
    try (specialize (Hp eq_refl); unfold Rtp.validPort in Hp);
    rewrite ?Et, ?Hp; cbn; rewrite ?Et, ?Hp; cbn; auto.
Qed.

(** X18: a registration that gets no answer is retried three times and
    then given up.  After [register], however often the retry timeout
    expires, at most four messages are sent in all, each a REGISTER; on a
    transport that can send, an agent that is not registered sends exactly
    one REGISTER and one more for each of the first three expiries. *)
Theorem register_retries_are_bounded (ua : SipUA) (ip : string)
    (bound : option (string * Z)) (k : nat) :
  0 <= registerRetryCount ua ->
  let sent := snd (run ua (EvRegister ip bound :: timeouts k)) in
  (length sent <= 4)%nat /\
  Forall (fun w => isRegister w = true) sent /\
  (registered ua = false ->
   (transport (config ua) = UDP ->
    Rtp.validPort (Some (port (config ua))) = true) ->
   forall a p, bound = Some (a, p) ->
   length sent = (1 + Nat.min k 3)%nat).
Proof.
  intros Hn sent. subst sent. cbn [run].
  destruct (register_step ua ip bound) as [Hout Hcount].
  assert (Hexact : registered ua = false ->
    (transport (config ua) = UDP ->
     Rtp.validPort (Some (port (config ua))) = true) ->
    forall a p, bound = Some (a, p) ->
    retrying (fst (step ua (EvRegister ip bound))) 0 /\
    length (snd (step ua (EvRegister ip bound))) = 1%nat).
  { intros Hr Hp a p ->. apply register_retrying; assumption. }
  destruct (step ua (EvRegister ip bound)) as [ua1 out1]. cbn [fst snd] in *.
  destruct (timeouts_bounded k ua1) as [Hb Hall].
  pose proof (fun H => timeouts_exact k ua1 0 H ltac:(unfold maxRegisterRetries; lia))
    as Hex.
  destruct (run ua1 (timeouts k)) as [ua2 out2]. cbn [fst snd] in *.
  rewrite length_app. unfold maxRegisterRetries in *.
  split; [|split].
  - destruct Hout as [-> | (w & -> & _)]; cbn [length]; lia.
  - apply Forall_app. split; [|exact Hall].
    destruct Hout as [-> | (w & -> & Hw)]; repeat constructor; exact Hw.
  - intros Hr Hp a p Hbound.
    destruct (Hexact Hr Hp a p Hbound) as [Hretry Hone].
    specialize (Hex Hretry). rewrite Hone. lia.
Qed.

(** *** A challenge that cannot be used *)

(** The response carries a challenge that [parseAuthHeader] accepts: one
    header value, of the form scheme, space, parameters. *)
Definition usableChallenge (msg : Message) : Prop :=
  exists s auth,
    orElse (headers msg !! "www-authenticate")
           (headers msg !! "proxy-authenticate") = Some (HStr s) /\
    Digest.parseAuthHeader s = Some auth.

(** X19: a 401 or 407 to REGISTER whose challenge cannot be used -- it is
    missing, empty, repeated (so that the parser made an array of it) or
    not of the form that [parseAuthHeader] expects -- is not answered, and
    it stops the retries: the timer is cleared and no expiry sends
    anything, so the registration stays where it is. *)
Theorem unusable_challenge_stalls_registration (ua : SipUA) (msg : Message)
    (k : nat) :
  statusCode msg = 401 \/ statusCode msg = 407 ->
  ~ usableChallenge msg ->
  snd (step ua (EvRegisterResponse msg)) = [] /\
  registerRetryTimer (fst (step ua (EvRegisterResponse msg))) = false /\
  snd (run (fst (step ua (EvRegisterResponse msg))) (timeouts k)) = [].
Proof.
  intros Hst Hno.
  assert (Hcode : (statusCode msg =? 401) || (statusCode msg =? 407) = true)
    by (destruct Hst as [-> | ->]; reflexivity).
  assert (H : snd (step ua (EvRegisterResponse msg)) = [] /\
              registerRetryTimer (fst (step ua (EvRegisterResponse msg))) = false).
  { unfold step, handle, _handleRegisterResponse. unfold bind at 1.
    cbn [modify]. rewrite Hcode.
    destruct (orElse (headers msg !! "www-authenticate")
                     (headers msg !! "proxy-authenticate")) as [[s|l]|] eqn:E.
    - destruct (truthy (Some (HStr s))); [|cbn; auto].
      unfold _buildRegisterWithAuth, parseAuthHeader, generateBranch,
        randomBytesHex, bind, modify, get, ret, throw.
      cbn. destruct (Digest.parseAuthHeader s) as [auth|] eqn:Ep; [|cbn; auto].
      exfalso. apply Hno. exists s, auth. auto.
    - cbn. auto.
    - cbn. auto. }
  destruct H as [H1 H2]. split; [exact H1|]. split; [exact H2|].
  rewrite (timeouts_disarmed k _ H2). reflexivity.
Qed.

(** *** An incoming call *)

(** The call that [_handleIncomingInvite] records. *)
Definition ringingCall (msg : Message) (address : string) (port : Z)
    (fromHeader : option hval) (callerId tag : string) : Call.t :=
  {| Call.callId := headers msg !! "call-id"; Call.fromTag := None;
     Call.toTag := None; Call.localTag := Some tag;
     Call.targetUri := None; Call.target := callerId;
     Call.rtpEngine := None; Call.rtpPort := 0;
     Call.state := RingingIn; Call.cseq := 1; Call.branch := None;
     Call.localSdp := None; Call.remoteSdp := Some (body msg);
     Call.incomingVia := headers msg !! "via";
     Call.incomingFrom := fromHeader;
     Call.incomingTo := headers msg !! "to";
     Call.incomingCSeq := parseInt (tpl (headers msg !! "cseq"));
     Call.sourceAddress := Some address; Call.sourcePort := Some port |}.

Lemma incoming_invite_rings (ua : SipUA) (msg : Message) (address : string)
    (port : Z) (from : string) :
  isActive ua = false -> canSend ua = true ->
  orElse (headers msg !! "from") (Some (HStr "")) = Some (HStr from) ->
  let tag := randomHex (draws ua) 8 in
  let callerId :=
    match captureAfter "<sip:" isUserChar from with
    | Some s => s
    | None => "Unknown"
    end in
  step ua (EvIncomingInvite msg address port)
  = (set_call (Some (ringingCall msg address port (Some (HStr from))
                                 callerId tag))
       (set_draws (S (draws ua)) ua),
     [echo "100 Trying" msg from (tpl (headers msg !! "to")) [];
      echo "180 Ringing" msg from
           (tpl (headers msg !! "to") +:+ ";tag=" +:+ tag)
           [("Contact", contactLine ua)]]).
Proof.
  intros Ha Hs Hf tag callerId.
  unfold step, handle, _handleIncomingInvite. rewrite Hf.
  cbn [matchCapture]. unfold bind at 1. cbn [ret].
  unfold bind at 1. cbn [get]. rewrite Ha.
  unfold bind at 1. rewrite (send_canSend _ ua Hs).
  unfold bind at 1. unfold generateTag, randomBytesHex.
  unfold bind at 1. cbn [get].
  unfold bind at 1.
  rewrite send_canSend by exact Hs.
  cbn. reflexivity.
Qed.

(** The final responses to an INVITE that is ringing: all carry the To
    line of the request with the tag of the call. *)
Lemma ringing_call_answers (ua : SipUA) (c : Call.t) (tag : string) :
  call ua = Some c -> Call.state c = RingingIn ->
  Call.localTag c = Some tag -> tag <> "" ->
  canSend ua = true ->
  let toLine := tpl (Call.incomingTo c) +:+ ";tag=" +:+ tag in
  (forall rnd rtpPort sessionId, exists ok,
     snd (step ua (EvAnswerIncoming rnd rtpPort sessionId)) = [ok] /\
     startLine ok = "SIP/2.0 200 OK" /\
     header "To" ok = Some toLine /\
     header "Call-ID" ok = Some (tpl (Call.callId c))) /\
  (exists busy,
     snd (step ua EvHangup) = [busy] /\
     startLine busy = "SIP/2.0 486 Busy Here" /\
     header "To" busy = Some toLine /\
     header "Call-ID" busy = Some (tpl (Call.callId c))) /\
  (forall cancel, exists ok terminated,
     snd (step ua (EvCancel cancel)) = [ok; terminated] /\
     startLine terminated = "SIP/2.0 487 Request Terminated" /\
     header "To" terminated = Some toLine /\
     header "Call-ID" terminated = Some (tpl (Call.callId c))).
Proof.
  intros Hc Hst Htag Hne Hsend toLine. subst toLine.
  assert (Hneb : String.eqb tag "" = false) by (apply String.eqb_neq, Hne).
  unfold canSend in Hsend.
  split; [|split].
  - intros [[r1 r2] r3] rtpPort sessionId.
    unfold step, handle, answerIncoming, _buildSdp, _build200ForInvite,
      modifyCall, _send, bind, get, modify, ret, throw, transmit.
    destruct (transport (config ua)) eqn:Et;
      try (apply andb_prop in Hsend as [Hsend Hport];
           unfold Rtp.validPort in Hport);
      repeat (progress (cbn; rewrite ?Hc, ?Hst, ?Htag, ?Hsend, ?Hport, ?Et));
      destruct (orStr (Call.remoteSdp c) None);
      repeat (progress (cbn; rewrite ?Hc, ?Hst, ?Htag, ?Hsend, ?Hport, ?Et));
      eexists; (split; [reflexivity|]); repeat split; reflexivity.
  - unfold step, handle, hangup, _build486, _endCall, generateTag,
      randomBytesHex, _send, bind, get, modify, ret, throw, transmit.
    destruct (transport (config ua)) eqn:Et;
      try (apply andb_prop in Hsend as [Hsend Hport];
           unfold Rtp.validPort in Hport);
      repeat (progress (cbn; rewrite ?Hc, ?Hst, ?Htag, ?Hneb, ?Hsend, ?Hport, ?Et));
      eexists; (split; [reflexivity|]); repeat split; reflexivity.
  - intros cancel.
    unfold step, handle, _handleIncomingCancel, _reply200, _endCall, when,
      isRingingIn, _send, bind, get, modify, ret, throw, transmit.
    destruct (transport (config ua)) eqn:Et;
      try (apply andb_prop in Hsend as [Hsend Hport];
           unfold Rtp.validPort in Hport);
      repeat (progress (cbn; rewrite ?Hc, ?Hst, ?Htag, ?Hsend, ?Hport, ?Et));
      do 2 eexists; (split; [reflexivity|]); repeat split; reflexivity.
Qed.

(** X20: an incoming call keeps its tag.  An INVITE that finds the agent
    not in an active call is answered by 100 Trying and 180 Ringing, and
    whichever final response follows -- the 200 of [answerIncoming], the
    486 of [hangup], or the 487 sent when the caller cancels -- carries
    the To line of the 180, with the same tag, and the Call-ID of the
    INVITE. *)
Theorem incoming_call_keeps_its_tag (ua : SipUA) (msg : Message)
    (address : string) (port : Z) :
  isActive ua = false -> canSend ua = true ->
  (forall l, headers msg !! "from" <> Some (HArr l)) ->
  randomHex (draws ua) 8 <> "" ->
  let toLine :=
    tpl (headers msg !! "to") +:+ ";tag=" +:+ randomHex (draws ua) 8 in
  let callId := tpl (headers msg !! "call-id") in
  let ua1 := fst (step ua (EvIncomingInvite msg address port)) in
  (exists trying ringing,
     snd (step ua (EvIncomingInvite msg address port)) = [trying; ringing] /\
     startLine trying = "SIP/2.0 100 Trying" /\
     startLine ringing = "SIP/2.0 180 Ringing" /\
     header "To" ringing = Some toLine /\
     header "Call-ID" ringing = Some callId) /\
  (forall rnd rtpPort sessionId, exists ok,
     snd (step ua1 (EvAnswerIncoming rnd rtpPort sessionId)) = [ok] /\
     startLine ok = "SIP/2.0 200 OK" /\
     header "To" ok = Some toLine /\ header "Call-ID" ok = Some callId) /\
  (exists busy,
     snd (step ua1 EvHangup) = [busy] /\
     startLine busy = "SIP/2.0 486 Busy Here" /\
     header "To" busy = Some toLine /\ header "Call-ID" busy = Some callId) /\
  (forall cancel, exists ok terminated,
     snd (step ua1 (EvCancel cancel)) = [ok; terminated] /\
     startLine terminated = "SIP/2.0 487 Request Terminated" /\
     header "To" terminated = Some toLine /\
     header "Call-ID" terminated = Some callId).
Proof.
  intros Ha Hs Hfrom Htag toLine callId ua1.
  assert (Hm : exists from, orElse (headers msg !! "from") (Some (HStr ""))
                            = Some (HStr from)).
  { unfold orElse. destruct (headers msg !! "from") as [[s|l]|] eqn:E; cbn.
    - destruct (negb (String.eqb s "")); eauto.
    - exfalso. exact (Hfrom l eq_refl).
    - eauto. }
  destruct Hm as [from Hm].
  pose proof (incoming_invite_rings ua msg address port from Ha Hs Hm) as Hstep.
  cbv zeta in Hstep. subst ua1. rewrite Hstep. cbn [fst snd].
  split.
  - do 2 eexists. split; [reflexivity|]. repeat split; reflexivity.
  - match goal with
    | |- context [step (set_call (Some ?c) ?u)] =>
        exact (ringing_call_answers (set_call (Some c) u) c
                 (randomHex (draws ua) 8) eq_refl eq_refl eq_refl Htag Hs)
    end.
Qed.

(** *** Cancelling a call that is being set up *)

(** The URI that [invite] calls. *)
Definition targetUriOf (ua : SipUA) (target : string) : string :=
  if existsChar isAt target then "sip:" +:+ target
  else "sip:" +:+ target +:+ "@" +:+ server (config ua).

(** X21: a call hung up before any response is cancelled by a CANCEL that
    matches its INVITE: same request URI, same Via with the same branch,
    same From with its tag, same To, same Call-ID and the CSeq number 1 of
    the INVITE; after it the agent has no call. *)
Theorem cancel_matches_invite (ua : SipUA) (target : string) (rnd : Z * Z * Z)
    (rtpPort sessionId : Z) :
  registered ua = true -> call ua = None -> canSend ua = true ->
  exists inv cancel,
    snd (run ua [EvInvite target rnd rtpPort sessionId; EvHangup])
      = [inv; cancel] /\
    startLine inv = "INVITE " +:+ targetUriOf ua target +:+ " SIP/2.0" /\
    startLine cancel = "CANCEL " +:+ targetUriOf ua target +:+ " SIP/2.0" /\
    header "Via" inv
      = Some (viaLine ua ("z9hG4bK" +:+ randomHex (S (S (draws ua))) 8)) /\
    header "Via" cancel = header "Via" inv /\
    header "From" cancel = header "From" inv /\
    header "To" cancel = header "To" inv /\
    header "Call-ID" cancel = header "Call-ID" inv /\
    header "CSeq" inv = Some "1 INVITE" /\
    header "CSeq" cancel = Some "1 CANCEL" /\
    call (fst (run ua [EvInvite target rnd rtpPort sessionId; EvHangup])) = None.
Proof.
  intros Hr Hc Hsend. destruct rnd as [[r1 r2] r3].
  unfold canSend in Hsend. unfold targetUriOf.
  unfold run, step, handle, invite, hangup, _buildInvite, _buildCancel,
    _buildSdp, _endCall, generateCallId, generateTag, generateBranch,
    randomBytesHex, modifyCall, _send, bind, get, modify, ret, throw, transmit.
  destruct (transport (config ua)) eqn:Et;
    try (apply andb_prop in Hsend as [Hsend Hport];
         unfold Rtp.validPort in Hport);
    repeat (progress (cbn; rewrite ?Hr, ?Hc, ?Hsend, ?Hport, ?Et));
    do 2 eexists; (split; [reflexivity|]); repeat split; reflexivity.
Qed.

End Environment.

(** *** A concrete agent *)

(** Random text for the examples: the [i]-th draw repeats one hexadecimal
    digit. *)
Definition demoRandom (i n : nat) : string :=
  String.concat ""
    (repeat (String (MD5.hexDigit (Z.of_nat (i + 10) mod 16)) "") (2 * n)).

Definition demoParseInt (s : string) : option Z :=
  match fst (span (fun c => (48 <=? code c) && (code c <=? 57)) s) with
  | EmptyString => None
  | ds => Some (Framer.parseDigits (bytesOf ds))
  end.

Definition demoParseSdp (_ : string) : Sdp := mkSdp None [].

Definition demoRun : SipUA -> list Event -> SipUA * list Wire :=
  run demoRandom demoParseInt demoParseSdp MD5.md5hex.

Definition cfg0 : Config := mkConfig "pbx" 5060 "100" "p" "Alice" UDP.

Definition ua0 : SipUA := constructor demoRandom cfg0.

Definition response (status : Z) (reason : string)
    (hs : list (string * string)) : Message :=
  mkMessage status reason "" ""
    (list_to_map (map (fun h => (fst h, HStr (snd h))) hs)) "".

Definition ok200 : Message := response 200 "OK" [("cseq", "1 REGISTER")].

Definition unauthorized (cseq : string) : Message :=
  response 401 "Unauthorized"
    [("to", "<sip:200@pbx>;tag=srv1"); ("cseq", cseq);
     ("www-authenticate", Digest.challenge0)].

(** The agent registers, is accepted, and calls 200. *)
Definition calling : list Event :=
  [EvRegister "192.0.2.1" (Some ("0.0.0.0", 5060));
   EvRegisterResponse ok200;
   EvInvite "200" (7, 100, 5000) 40002 1700000000].

(** A registration that is retried, challenged, accepted, refreshed and
    ended sends five REGISTER requests, numbered 1 to 5. *)
Example registration_cseq :
  map (header "CSeq")
    (registersOf (snd (demoRun ua0
       [EvRegister "192.0.2.1" (Some ("0.0.0.0", 5060));
        EvRegisterRetryTimeout;
        EvRegisterResponse (unauthorized "2 REGISTER");
        EvRegisterResponse ok200;
        EvRegisterRefresh;
        EvUnregister])))
  = [Some "1 REGISTER"; Some "2 REGISTER"; Some "3 REGISTER";
     Some "4 REGISTER"; Some "5 REGISTER"].
Proof. vm_compute. reflexivity. Qed.

(** C3, evaluated on the code: the agent calls 200 and receives a 401.
    The INVITE went out with the branch of the call, ending in f; the ACK
    for the 401 has a branch of its own, ending in 0, where [_buildCancel]
    would use the branch of the call.  The rest is as described: the ACK
    has the CSeq number 1 and the To tag of the response, the second INVITE
    a fresh branch, the CSeq number 2, an Authorization header, and the
    Call-ID and From tag of the first. *)
Theorem ack_for_challenge_has_new_branch :
  let sent :=
    snd (demoRun ua0 (calling ++ [EvInviteResponse (unauthorized "1 INVITE")])) in
  map startLine sent
    = ["REGISTER sip:pbx SIP/2.0"; "INVITE sip:200@pbx SIP/2.0";
       "ACK sip:200@pbx SIP/2.0"; "INVITE sip:200@pbx SIP/2.0"] /\
  map (header "Via") sent
    = [Some "SIP/2.0/UDP 192.0.2.1:5060;branch=z9hG4bKcccccccccccccccc;rport";
       Some "SIP/2.0/UDP 192.0.2.1:5060;branch=z9hG4bKffffffffffffffff;rport";
       Some "SIP/2.0/UDP 192.0.2.1:5060;branch=z9hG4bK0000000000000000;rport";
       Some "SIP/2.0/UDP 192.0.2.1:5060;branch=z9hG4bK1111111111111111;rport"] /\
  nth 2 (map (header "Via") sent) None <> nth 1 (map (header "Via") sent) None /\
  map (header "CSeq") sent
    = [Some "1 REGISTER"; Some "1 INVITE"; Some "1 ACK"; Some "2 INVITE"] /\
  map (header "To") sent
    = [Some "<sip:100@pbx>"; Some "<sip:200@pbx>";
       Some "<sip:200@pbx>;tag=srv1"; Some "<sip:200@pbx>"] /\
  map (header "Call-ID") (tl sent)
    = repeat (Some "dddddddddddddddddddddddd") 3 /\
  map (header "From") (tl sent)
    = repeat (Some (quoted "Alice" +:+ " <sip:100@pbx>;tag=eeeeeeeeeeeeeeee")) 3 /\
  map (fun w => match header "Authorization" w with
                | Some _ => true
                | None => false
                end) sent
    = [false; false; false; true].
Proof. vm_compute. repeat split. discriminate. Qed.

(** An agent in a call, and a second INVITE. *)
Definition call0 : Call.t :=
  {| Call.callId := Some (HStr "dddddddddddddddddddddddd");
     Call.fromTag := Some "eeeeeeeeeeeeeeee";
     Call.toTag := Some "srv1"; Call.localTag := None;
     Call.targetUri := Some "sip:200@pbx"; Call.target := "200";
     Call.rtpEngine := Some Rtp.engine0; Call.rtpPort := 40002;
     Call.state := Active; Call.cseq := 2;
     Call.branch := Some "z9hG4bK1111111111111111";
     Call.localSdp := Some "v=0"; Call.remoteSdp := Some "v=0";
     Call.incomingVia := None; Call.incomingFrom := None;
     Call.incomingTo := None; Call.incomingCSeq := None;
     Call.sourceAddress := None; Call.sourcePort := None |}.

Definition inCall : SipUA :=
  {| config := cfg0; udpSocket := true; tcpSocket := false;
     tcpConnected := false; localIp := Some "192.0.2.1"; localPort := 5060;
     registered := true; registerTimer := true;
     localTag := "aaaaaaaaaaaaaaaa";
     registerCallId := "bbbbbbbbbbbbbbbbbbbbbbbb";
     registerCSeq := 1; registerRetryTimer := false;
     registerRetryCount := 0; call := Some call0; draws := 8 |}.

Definition secondInvite : Message :=
  mkMessage 0 "" "INVITE" "sip:100@192.0.2.1:5060"
    (list_to_map
       [("via", HArr ["SIP/2.0/UDP 198.51.100.1:5060;branch=z9hG4bKp";
                      "SIP/2.0/UDP 203.0.113.7:5060;branch=z9hG4bKq"]);
        ("from", HStr "<sip:300@pbx>;tag=caller");
        ("to", HStr "<sip:100@pbx>");
        ("call-id", HStr "other-call");
        ("cseq", HStr "10 INVITE")])
    "v=0".

Lemma busy_invite_keeps_call_witness :
  call (fst (step demoRandom demoParseInt demoParseSdp MD5.md5hex inCall
               (EvIncomingInvite secondInvite "198.51.100.1" 5060)))
    = Some call0 /\
  step demoRandom demoParseInt demoParseSdp MD5.md5hex inCall
       (EvIncomingInvite secondInvite "198.51.100.1" 5060)
    = (set_draws (S (draws inCall)) inCall,
       [busyHere secondInvite (demoRandom (draws inCall) 8)]).
Proof.
  destruct (busy_invite_keeps_call demoRandom demoParseInt demoParseSdp
              MD5.md5hex inCall call0 secondInvite "198.51.100.1" 5060
              eq_refl eq_refl) as [Hframe Hsent].
  split; [exact Hframe|].
  apply Hsent.
  - reflexivity.
  - intros l H. vm_compute in H. discriminate H.
Defined.

(** The answer to [secondInvite], as sent. *)
Example busy_here_text :
  map (fun w => (startLine w, lines w))
    (snd (step demoRandom demoParseInt demoParseSdp MD5.md5hex inCall
            (EvIncomingInvite secondInvite "198.51.100.1" 5060)))
  = [("SIP/2.0 486 Busy Here",
      [("Via", "SIP/2.0/UDP 198.51.100.1:5060;branch=z9hG4bKp,"
               +:+ "SIP/2.0/UDP 203.0.113.7:5060;branch=z9hG4bKq");
       ("From", "<sip:300@pbx>;tag=caller");
       ("To", "<sip:100@pbx>;tag=2222222222222222");
       ("Call-ID", "other-call");
       ("CSeq", "10 INVITE");
       ("Content-Length", "0")])].
Proof. vm_compute. reflexivity. Qed.

(** A second INVITE with two From header lines, which [parseSipMessage]
    stores as an array. *)
Definition twoFromInvite : Message :=
  mkMessage 0 "" "INVITE" "sip:100@192.0.2.1:5060"
    (list_to_map
       [("via", HStr "SIP/2.0/UDP 198.51.100.1:5060;branch=z9hG4bKp");
        ("from", HArr ["<sip:300@pbx>;tag=caller"; "<sip:301@pbx>;tag=other"]);
        ("to", HStr "<sip:100@pbx>");
        ("call-id", HStr "other-call");
        ("cseq", HStr "10 INVITE")])
    "v=0".

(** The agent of [inCall] on a stream transport whose connection has been
    closed by the other side. *)
Definition inCallClosed : SipUA :=
  {| config := mkConfig "pbx" 5060 "100" "p" "Alice" TCP;
     udpSocket := false; tcpSocket := true; tcpConnected := false;
     localIp := Some "192.0.2.1"; localPort := 5060;
     registered := false; registerTimer := true;
     localTag := "aaaaaaaaaaaaaaaa";
     registerCallId := "bbbbbbbbbbbbbbbbbbbbbbbb";
     registerCSeq := 1; registerRetryTimer := false;
     registerRetryCount := 0; call := Some call0; draws := 8 |}.

(** C9 as stated fails.  During an active call, an INVITE with a repeated
    From header gets no 486: the handler throws on [fromHeader.match]
    before it sends.  And nothing is sent through a connection that is
    closed.  The call is kept in both cases. *)
Lemma busy_invite_not_answered :
  (call inCall = Some call0 /\ Call.state call0 = Active /\
   handle demoRandom demoParseInt demoParseSdp MD5.md5hex
     (EvIncomingInvite twoFromInvite "198.51.100.1" 5060) inCall
   = (None, inCall, [])) /\
  (call inCallClosed = Some call0 /\
   snd (step demoRandom demoParseInt demoParseSdp MD5.md5hex inCallClosed
          (EvIncomingInvite secondInvite "198.51.100.1" 5060)) = [] /\
   call (fst (step demoRandom demoParseInt demoParseSdp MD5.md5hex inCallClosed
                (EvIncomingInvite secondInvite "198.51.100.1" 5060)))
   = Some call0).
Proof. repeat split; vm_compute; reflexivity. Qed.

(** *** The invariants and scenarios on the concrete agent *)

(** The registered agent, out of any call. *)
Definition idle : SipUA := set_call None inCall.

Definition quietEvents : list Event :=
  [EvInvite "200" (7, 100, 5000) 40002 1700000000;
   EvOptions secondInvite; EvRegisterRetryTimeout; EvRegisterRefresh;
   EvUnregister; EvIncomingInvite secondInvite "198.51.100.1" 5060;
   EvStartResolved ("0.0.0.0", 5060)].

Lemma nothing_sent_without_socket_witness :
  snd (demoRun (constructor demoRandom cfg0) quietEvents) = [] /\
  snd (demoRun
         (snd (fst (handle demoRandom demoParseInt demoParseSdp MD5.md5hex
                           EvStop inCall)))
         quietEvents) = [].
Proof.
  destruct (nothing_sent_without_socket demoRandom demoParseInt demoParseSdp
              MD5.md5hex quietEvents eq_refl) as [Hnew Hstopped].
  split.
  - apply Hnew.
  - apply (Hstopped inCall _
             (snd (handle demoRandom demoParseInt demoParseSdp MD5.md5hex
                          EvStop inCall))).
    vm_compute. reflexivity.
Defined.

(** [stop()] does not cancel a [register()] that was called before it and
    still awaits its lookups: when that one goes on, the stopped agent
    creates a socket again and sends a REGISTER.  The callback of the
    socket that [stop()] closed, were it to come, sends nothing. *)
Example stop_does_not_cancel_register :
  let stopped :=
    snd (fst (handle demoRandom demoParseInt demoParseSdp MD5.md5hex
                     EvStop idle)) in
  snd (demoRun stopped [EvStartResolved ("0.0.0.0", 5060)]) = [] /\
  map startLine
    (snd (demoRun stopped [EvStartSocket "192.0.2.1";
                           EvToggleMute;
                           EvStartResolved ("0.0.0.0", 5061)]))
  = ["REGISTER sip:pbx SIP/2.0"].
Proof. vm_compute. split; reflexivity. Qed.

Lemma register_retries_are_bounded_witness :
  let sent :=
    snd (demoRun ua0 (EvRegister "192.0.2.1" (Some ("0.0.0.0", 5060))
                      :: timeouts 5)) in
  (length sent <= 4)%nat /\
  Forall (fun w => isRegister w = true) sent /\
  length sent = (1 + Nat.min 5 3)%nat.
Proof.
  destruct (register_retries_are_bounded demoRandom demoParseInt demoParseSdp
              MD5.md5hex ua0 "192.0.2.1" (Some ("0.0.0.0", 5060)) 5
              ltac:(cbn; lia)) as (H1 & H2 & H3).
  split; [exact H1|]. split; [exact H2|].
  apply (H3 eq_refl (fun _ => eq_refl) "0.0.0.0" 5060 eq_refl).
Defined.

(** A 401 that offers two algorithms in two WWW-Authenticate headers. *)
Definition twoChallenges : Message :=
  mkMessage 401 "Unauthorized" "" ""
    (list_to_map
       [("cseq", HStr "1 REGISTER");
        ("www-authenticate",
         HArr [Digest.challenge0 +:+ ", algorithm=SHA-256";
               Digest.challenge0 +:+ ", algorithm=MD5"])])
    "".

Lemma unusable_challenge_stalls_registration_witness :
  snd (step demoRandom demoParseInt demoParseSdp MD5.md5hex idle
            (EvRegisterResponse twoChallenges)) = [] /\
  registerRetryTimer
    (fst (step demoRandom demoParseInt demoParseSdp MD5.md5hex idle
               (EvRegisterResponse twoChallenges))) = false /\
  snd (demoRun
         (fst (step demoRandom demoParseInt demoParseSdp MD5.md5hex idle
                    (EvRegisterResponse twoChallenges)))
         (timeouts 4)) = [].
Proof.
  apply (unusable_challenge_stalls_registration demoRandom demoParseInt
           demoParseSdp MD5.md5hex idle twoChallenges 4).
  - left. reflexivity.
  - intros (s & auth & H & _). vm_compute in H. discriminate H.
Defined.

Lemma incoming_call_keeps_its_tag_witness :
  let toLine := "<sip:100@pbx>;tag=" +:+ demoRandom (draws idle) 8 in
  let ua1 :=
    fst (step demoRandom demoParseInt demoParseSdp MD5.md5hex idle
              (EvIncomingInvite secondInvite "198.51.100.1" 5060)) in
  (exists ringing,
     nth_error (snd (step demoRandom demoParseInt demoParseSdp MD5.md5hex idle
                       (EvIncomingInvite secondInvite "198.51.100.1" 5060))) 1
       = Some ringing /\
     header "To" ringing = Some toLine) /\
  (exists ok,
     snd (step demoRandom demoParseInt demoParseSdp MD5.md5hex ua1
              (EvAnswerIncoming (7, 100, 5000) 40002 1700000000)) = [ok] /\
     header "To" ok = Some toLine) /\
  (exists busy,
     snd (step demoRandom demoParseInt demoParseSdp MD5.md5hex ua1 EvHangup)
       = [busy] /\
     header "To" busy = Some toLine).
Proof.
  destruct (incoming_call_keeps_its_tag demoRandom demoParseInt demoParseSdp
              MD5.md5hex idle secondInvite "198.51.100.1" 5060
              eq_refl eq_refl
              ltac:(intros l H; vm_compute in H; discriminate H)
              ltac:(vm_compute; discriminate))
    as ((trying & ringing & Hout & _ & _ & Hto & _) & Hok & Hbusy & _).
  split; [|split].
  - exists ringing. rewrite Hout. split; [reflexivity | exact Hto].
  - destruct (Hok (7, 100, 5000) 40002 1700000000) as (ok & H1 & _ & H2 & _).
    exists ok. split; [exact H1 | exact H2].
  - destruct Hbusy as (busy & H1 & _ & H2 & _).
    exists busy. split; [exact H1 | exact H2].
Defined.

Lemma cancel_matches_invite_witness :
  exists inv cancel,
    snd (demoRun idle [EvInvite "200" (7, 100, 5000) 40002 1700000000;
                       EvHangup]) = [inv; cancel] /\
    header "Via" cancel = header "Via" inv /\
    header "Call-ID" cancel = header "Call-ID" inv /\
    header "CSeq" cancel = Some "1 CANCEL".
Proof.
  destruct (cancel_matches_invite demoRandom demoParseInt demoParseSdp
              MD5.md5hex idle "200" (7, 100, 5000) 40002 1700000000
              eq_refl eq_refl eq_refl)
    as (inv & cancel & Hout & _ & _ & _ & Hvia & _ & _ & Hid & _ & Hcseq & _).
  exists inv, cancel. auto.
Defined.

(** The call of [idle] to 200, cancelled: the two requests as sent. *)
Example invite_then_cancel_text :
  map (fun w => (startLine w, header "Via" w, header "CSeq" w))
    (snd (demoRun idle [EvInvite "200" (7, 100, 5000) 40002 1700000000;
                        EvHangup]))
  = [("INVITE sip:200@pbx SIP/2.0",
      Some "SIP/2.0/UDP 192.0.2.1:5060;branch=z9hG4bK4444444444444444;rport",
      Some "1 INVITE");
     ("CANCEL sip:200@pbx SIP/2.0",
      Some "SIP/2.0/UDP 192.0.2.1:5060;branch=z9hG4bK4444444444444444;rport",
      Some "1 CANCEL")].
Proof. vm_compute. reflexivity. Qed.

End Sip.

(** ** parseSipMessage, parseSdp and the dispatch of incoming messages *)

Module Parser.

Import Text Sip.

(** *** String primitives *)

(** [s.indexOf(needle)]; [None] is the result -1. *)
Fixpoint indexOf (needle s : string) : option nat :=
  match s with
  | EmptyString => if startsWith needle "" then Some O else None
  | String _ s' =>
      if startsWith needle s then Some O
      else option_map S (indexOf needle s')
  end.

(** The first [n] characters of [s]. *)
Fixpoint take (n : nat) (s : string) : string :=
  match n, s with
  | S k, String c s' => String c (take k s')
  | _, _ => ""
  end.

(** [s.split(sep)] for a separator that is not empty; [skip] characters
    belong to the separator found last. *)
Fixpoint splitFrom (sep : string) (skip : nat) (s : string) : list string :=
  match s with
  | EmptyString => [""]
  | String c s' =>
      match skip with
      | S k => splitFrom sep k s'
      | O =>
          if startsWith sep s
          then "" :: splitFrom sep (String.length sep - 1) s'
          else match splitFrom sep 0 s' with
               | piece :: rest => String c piece :: rest
               | [] => [String c ""]
               end
      end
  end.

Definition split (sep s : string) : list string := splitFrom sep 0 s.

Fixpoint trimStart (s : string) : string :=
  match s with
  | EmptyString => ""
  | String c s' => if isSpace c then trimStart s' else s
  end.

Fixpoint trimEnd (s : string) : string :=
  match s with
  | EmptyString => ""
  | String c s' =>
      match trimEnd s' with
      | EmptyString => if isSpace c then "" else String c ""
      | t => String c t
      end
  end.

(** [s.trim()]. *)
Definition trim (s : string) : string := trimEnd (trimStart s).

Definition lowerChar (c : Ascii.ascii) : Ascii.ascii :=
  if (65 <=? code c) && (code c <=? 90)
  then Ascii.ascii_of_N (Z.to_N (code c + 32)) else c.

(** [s.toLowerCase()]. *)
Fixpoint toLowerCase (s : string) : string :=
  match s with
  | EmptyString => ""
  | String c s' => String (lowerChar c) (toLowerCase s')
  end.

Fixpoint allChars (f : Ascii.ascii -> bool) (s : string) : bool :=
  match s with
  | EmptyString => true
  | String c s' => f c && allChars f s'
  end.

Definition isDigit (c : Ascii.ascii) : bool :=
  (48 <=? code c) && (code c <=? 57).

Definition CRLFCRLF : string := CRLF +:+ CRLF.

(** *** parseSipMessage *)

(** The pattern of the status line, on a line that starts with SIP/2.0:
    white space, digits, white space and the rest, which holds no line
    terminator.  The result is the digits and the reason phrase. *)
Definition matchStatusLine (firstLine : string) : option (string * string) :=
  let '(ws1, r1) := span isSpace (drop 7 firstLine) in
  let '(digits, r2) := span isDigit r1 in
  let '(ws2, reason) := span isSpace r2 in
  match ws1, digits, ws2 with
  | String _ _, String _ _, String _ _ =>
      if existsChar isNewline reason then None else Some (digits, reason)
  | _, _, _ => None
  end.

(** The URI and the white space after it, on the text that precedes the
    final SIP/2.0: the longest run without a line terminator that leaves
    white space only, and at least one character of it. *)
Definition matchUri (t : string) : option string :=
  let p := String.length (fst (span (fun c => negb (isNewline c)) t)) in
  let n := Nat.min p (String.length t - 1) in
  match n with
  | O => None
  | S _ => if allChars isSpace (drop n t) then Some (take n t) else None
  end.

(** The white space after the method, from the longest run down. *)
Fixpoint matchLead (k : nat) (t : string) : option string :=
  match k with
  | O => None
  | S k' =>
      match matchUri (drop k t) with
      | Some u => Some u
      | None => matchLead k' t
      end
  end.

(** The pattern of the request line: word characters, white space, the
    URI, white space and SIP/2.0 at the end.  The result is the method and
    the URI. *)
Definition matchRequestLine (firstLine : string) : option (string * string) :=
  let '(method, r) := span isWord firstLine in
  match method with
  | EmptyString => None
  | String _ _ =>
      let n := String.length r in
      if String.eqb (drop (n - 7) r) "SIP/2.0" && (7 <=? n)%nat then
        let t := take (n - 7) r in
        match matchLead (String.length (fst (span isSpace t))) t with
        | Some u => Some (method, u)
        | None => None
        end
      else None
  end.

(** One pass of the header loop: [msg.headers[name]] is tested for
    truth, so that an empty value is replaced and any other becomes, or
    grows as, an array. *)
Definition addHeader (headers : gmap string hval) (name value : string)
    : gmap string hval :=
  match headers !! name with
  | Some (HArr l) => <[name := HArr (l ++ [value])]> headers
  | Some (HStr old) =>
      if String.eqb old "" then <[name := HStr value]> headers
      else <[name := HArr [old; value]]> headers
  | None => <[name := HStr value]> headers
  end.

Definition headerLine (headers : gmap string hval) (line : string)
    : gmap string hval :=
  match indexOf ":" line with
  | None => headers
  | Some colonIdx =>
      addHeader headers (toLowerCase (trim (take colonIdx line)))
                (trim (drop (S colonIdx) line))
  end.

Inductive Parsed :=
| Response (msg : Message)
| Request (msg : Message).

(** [parseSipMessage(data)] on text; [None] when the first line has not
    the form of a status line or of a request line, and reading [parts[1]]
    raises a TypeError.  The digits of the status are read as a decimal
    number, which is what [parseInt] gives below 2^53.  The header names
    [constructor] and [__proto__], which every object inherits, are
    outside the model. *)
Definition parseSipMessage (str : string) : option Parsed :=
  let headerEnd := indexOf CRLFCRLF str in
  let headerSection :=
    match headerEnd with Some n => take n str | None => "" end in
  let body :=
    match headerEnd with Some n => drop (n + 4) str | None => "" end in
  let lines := split CRLF headerSection in
  let firstLine := hd "" lines in
  let headers := fold_left headerLine (tl lines) ∅ in
  if startsWith "SIP/2.0" firstLine then
    match matchStatusLine firstLine with
    | Some (digits, reason) =>
        Some (Response
          {| statusCode := Framer.parseDigits (bytesOf digits);
             reasonPhrase := reason; method := ""; uri := "";
             headers := headers; body := body |})
    | None => None
    end
  else
    match matchRequestLine firstLine with
    | Some (m, u) =>
        Some (Request
          {| statusCode := 0; reasonPhrase := ""; method := m; uri := u;
             headers := headers; body := body |})
    | None => None
    end.

(** *** Text lemmas *)

Lemma append_assoc (a b c : string) : (a +:+ b) +:+ c = a +:+ (b +:+ c).
Proof.
  induction a as [|x a IH]; [reflexivity|].
  change (String x ((a +:+ b) +:+ c) = String x (a +:+ (b +:+ c))).
  rewrite IH. reflexivity.
Qed.

Lemma append_nil_r (a : string) : a +:+ "" = a.
Proof.
  induction a as [|x a IH]; [reflexivity|].
  change (String x (a +:+ "") = String x a). rewrite IH. reflexivity.
Qed.

Lemma append_nil_l (a : string) : "" +:+ a = a.
Proof. reflexivity. Qed.

Lemma append_cons (x : Ascii.ascii) (a b : string) :
  String x a +:+ b = String x (a +:+ b).
Proof. reflexivity. Qed.

Lemma code_refl (c : Ascii.ascii) : (code c =? code c) = true.
Proof. apply Z.eqb_refl. Qed.

Lemma startsWith_append (p s : string) : startsWith p (p +:+ s) = true.
Proof.
  induction p as [|x p IH]; [reflexivity|].
  rewrite append_cons. cbn [startsWith]. rewrite code_refl, IH. reflexivity.
Qed.

Lemma take_append (a b : string) : take (String.length a) (a +:+ b) = a.
Proof.
  induction a as [|x a IH]; [destruct b; reflexivity|].
  rewrite append_cons. cbn [String.length take]. rewrite IH. reflexivity.
Qed.

Lemma drop_append (a b : string) : drop (String.length a) (a +:+ b) = b.
Proof.
  induction a as [|x a IH]; [reflexivity|].
  rewrite append_cons. cbn [String.length drop]. exact IH.
Qed.

Lemma drop_drop (n m : nat) (s : string) : drop (n + m) s = drop m (drop n s).
Proof.
  revert s. induction n as [|n IH]; intros s; [reflexivity|].
  destruct s as [|x s]; cbn [Nat.add drop].
  - destruct m; reflexivity.
  - apply IH.
Qed.

Lemma allChars_append (f : Ascii.ascii -> bool) (a b : string) :
  allChars f (a +:+ b) = allChars f a && allChars f b.
Proof.
  induction a as [|x a IH]; [reflexivity|].
  rewrite append_cons. cbn [allChars]. rewrite IH, andb_assoc. reflexivity.
Qed.

Lemma allChars_impl (f g : Ascii.ascii -> bool) (s : string) :
  (forall c, f c = true -> g c = true) ->
  allChars f s = true -> allChars g s = true.
Proof.
  intros Hfg. induction s as [|x s IH]; [reflexivity|].
  cbn [allChars]. intros [Hx Hs]%andb_prop.
  rewrite (Hfg _ Hx), (IH Hs). reflexivity.
Qed.

Lemma existsChar_allChars (f : Ascii.ascii -> bool) (s : string) :
  existsChar f s = negb (allChars (fun c => negb (f c)) s).
Proof.
  induction s as [|x s IH]; [reflexivity|].
  cbn [existsChar allChars]. rewrite IH. destruct (f x); reflexivity.
Qed.

(** A run of characters of the class, ended by one outside it. *)
Lemma span_append (f : Ascii.ascii -> bool) (a : string) (x : Ascii.ascii)
    (b : string) :
  allChars f a = true -> f x = false ->
  span f (a +:+ String x b) = (a, String x b).
Proof.
  intros Ha Hx. induction a as [|y a IH].
  - rewrite append_nil_l. cbn [span]. rewrite Hx. reflexivity.
  - cbn [allChars] in Ha. apply andb_prop in Ha as [Hy Ha].
    rewrite append_cons. cbn [span]. rewrite Hy, (IH Ha). reflexivity.
Qed.

Lemma span_all (f : Ascii.ascii -> bool) (a : string) :
  allChars f a = true -> span f a = (a, "").
Proof.
  induction a as [|y a IH]; [reflexivity|].
  cbn [allChars span]. intros [Hy Ha]%andb_prop.
  rewrite Hy, (IH Ha). reflexivity.
Qed.

(** [indexOf] passes over text without the first character of what is
    looked for. *)
Lemma indexOf_append (x : Ascii.ascii) (needle a b : string) :
  allChars (fun c => negb (code x =? code c)) a = true ->
  indexOf (String x needle) (a +:+ b)
    = option_map (Nat.add (String.length a)) (indexOf (String x needle) b).
Proof.
  intros Ha. induction a as [|y a IH].
  - rewrite append_nil_l. cbn [String.length]. destruct (indexOf _ b); reflexivity.
  - cbn [allChars] in Ha. apply andb_prop in Ha as [Hy Ha].
    rewrite append_cons. cbn [indexOf startsWith].
    apply negb_true_iff in Hy. rewrite Hy. cbn [andb].
    rewrite (IH Ha). destruct (indexOf _ b); reflexivity.
Qed.

Lemma indexOf_here (needle b : string) :
  indexOf needle (needle +:+ b) = Some O.
Proof.
  destruct needle as [|x n]; [destruct b; reflexivity|].
  rewrite append_cons. cbn [indexOf]. rewrite <- append_cons.
  rewrite startsWith_append. reflexivity.
Qed.

Lemma splitFrom_nonempty (sep : string) (s : string) :
  forall skip, splitFrom sep skip s <> [].
Proof.
  induction s as [|x s IH]; intros skip; [discriminate|].
  cbn [splitFrom]. destruct skip as [|k]; [|apply IH].
  destruct (startsWith sep (String x s)); [discriminate|].
  destruct (splitFrom sep 0 s); discriminate.
Qed.

(** Splitting passes over text without the first character of the
    separator. *)
Lemma split_append (x : Ascii.ascii) (sep a b : string) :
  allChars (fun c => negb (code x =? code c)) a = true ->
  split (String x sep) (a +:+ b)
    = match split (String x sep) b with
      | piece :: rest => (a +:+ piece) :: rest
      | [] => [a]
      end.
Proof.
  unfold split. intros Ha. induction a as [|y a IH].
  - rewrite append_nil_l. destruct (splitFrom _ 0 b) eqn:E; [|reflexivity].
    exfalso. exact (splitFrom_nonempty _ _ _ E).
  - cbn [allChars] in Ha. apply andb_prop in Ha as [Hy Ha].
    rewrite append_cons. cbn [splitFrom startsWith].
    apply negb_true_iff in Hy. rewrite Hy. cbn [andb].
    rewrite (IH Ha). destruct (splitFrom _ 0 b); reflexivity.
Qed.

Lemma split_clean (x : Ascii.ascii) (sep a : string) :
  allChars (fun c => negb (code x =? code c)) a = true ->
  split (String x sep) a = [a].
Proof.
  intros Ha. rewrite <- (append_nil_r a) at 1.
  rewrite (split_append _ _ _ _ Ha). cbn. rewrite append_nil_r. reflexivity.
Qed.

Lemma split_CRLF (b : string) : split CRLF (CRLF +:+ b) = "" :: split CRLF b.
Proof. reflexivity. Qed.

Lemma trimStart_id (s : string) :
  match s with String c _ => isSpace c = false | EmptyString => True end ->
  trimStart s = s.
Proof. destruct s as [|c s]; [reflexivity|]. cbn. intros ->. reflexivity. Qed.

Lemma trimEnd_noSpace (s : string) :
  allChars (fun c => negb (isSpace c)) s = true -> trimEnd s = s.
Proof.
  induction s as [|c s IH]; [reflexivity|].
  cbn [allChars trimEnd]. intros [Hc Hs]%andb_prop.
  rewrite (IH Hs). apply negb_true_iff in Hc. rewrite Hc.
  destruct s; reflexivity.
Qed.

Lemma trim_noSpace (s : string) :
  allChars (fun c => negb (isSpace c)) s = true -> trim s = s.
Proof.
  intros H. unfold trim. rewrite trimStart_id; [apply trimEnd_noSpace, H|].
  destruct s as [|c s]; [exact Logic.I|].
  cbn [allChars] in H. apply andb_prop in H as [Hc _].
  apply negb_true_iff in Hc. exact Hc.
Qed.

(** *** Messages that are built, read back *)

Definition cr : Ascii.ascii := Ascii.ascii_of_nat 13.
Definition lf : Ascii.ascii := Ascii.ascii_of_nat 10.

Definition colon : Ascii.ascii := Ascii.ascii_of_nat 58.

Definition notCr (c : Ascii.ascii) : bool := negb (code cr =? code c).

(** Printable ASCII other than the space and the colon. *)
Definition isNameChar (c : Ascii.ascii) : bool :=
  (32 <? code c) && (code c <? 127) && negb (code c =? 58).

(** ASCII other than the line terminators. *)
Definition isLineChar (c : Ascii.ascii) : bool :=
  (code c <? 128) && negb (isNewline c).

(** ASCII other than white space. *)
Definition isUriChar (c : Ascii.ascii) : bool :=
  (code c <? 128) && negb (isSpace c).

Definition inherited (name : string) : bool :=
  String.eqb name "constructor" || String.eqb name "__proto__".

(** A header line as the builders write it: a name without white space
    or colon that no object inherits, and a value on one line with no
    white space around it. *)
Definition headerOk (l : string * string) : bool :=
  allChars isNameChar (fst l) && negb (inherited (toLowerCase (fst l)))
  && allChars isLineChar (snd l) && String.eqb (trim (snd l)) (snd l).

Definition isMethod (m : string) : bool :=
  allChars isWord m && negb (String.eqb m "").

Definition isUri (u : string) : bool :=
  allChars isUriChar u && negb (String.eqb u "").

(** At most fifteen digits, which [parseInt] reads exactly. *)
Definition isStatus (digits : string) : bool :=
  allChars isDigit digits && negb (String.eqb digits "")
  && (String.length digits <=? 15)%nat.

Definition isReason (reason : string) : bool :=
  allChars isLineChar reason
  && match reason with String c _ => negb (isSpace c) | EmptyString => true end.

Definition lineText (l : string * string) : string :=
  fst l +:+ ": " +:+ snd l.

(** The headers of a message whose lines are [ls]. *)
Definition headersOf (ls : list (string * string)) : gmap string hval :=
  fold_left (fun h l => addHeader h (toLowerCase (fst l)) (snd l)) ls ∅.

Fixpoint tailLines (ls : list (string * string)) : string :=
  match ls with
  | [] => ""
  | l :: ls' => CRLF +:+ lineText l +:+ tailLines ls'
  end.

Lemma concat_cons (x : string) (xs : list string) :
  String.concat "" (x :: xs) = x +:+ String.concat "" xs.
Proof.
  destruct xs as [|y xs]; [cbn; rewrite append_nil_r; reflexivity|].
  reflexivity.
Qed.

Lemma render_lines (ls : list (string * string)) (rest : string) :
  CRLF +:+ String.concat ""
             (map (fun l => fst l +:+ ": " +:+ snd l +:+ CRLF) ls) +:+ rest
  = tailLines ls +:+ CRLF +:+ rest.
Proof.
  induction ls as [|l ls IH]; [reflexivity|].
  cbn [map tailLines]. rewrite concat_cons. unfold lineText.
  rewrite !append_assoc, IH. reflexivity.
Qed.

Lemma render_shape (w : Wire) :
  render w
  = (startLine w +:+ tailLines (lines w)) +:+ CRLFCRLF +:+ payload w.
Proof.
  unfold render. rewrite render_lines. unfold CRLFCRLF.
  rewrite !append_assoc. reflexivity.
Qed.

Lemma nameChar_notCr (s : string) :
  allChars isNameChar s = true -> allChars notCr s = true.
Proof.
  apply allChars_impl. intros c. unfold isNameChar, notCr.
  intros [[H _]%andb_prop _]%andb_prop. apply Z.ltb_lt in H.
  apply negb_true_iff, Z.eqb_neq. change (code cr) with 13. lia.
Qed.

Lemma lineChar_notCr (s : string) :
  allChars isLineChar s = true -> allChars notCr s = true.
Proof.
  apply allChars_impl. intros c. unfold isLineChar, isNewline, notCr.
  intros [_ H]%andb_prop. apply negb_true_iff, orb_false_iff in H as [_ H].
  apply Z.eqb_neq in H. apply negb_true_iff, Z.eqb_neq.
  change (code cr) with 13. lia.
Qed.

Lemma headerOk_parts (l : string * string) :
  headerOk l = true ->
  allChars isNameChar (fst l) = true
  /\ inherited (toLowerCase (fst l)) = false
  /\ allChars isLineChar (snd l) = true
  /\ trim (snd l) = snd l.
Proof.
  unfold headerOk.
  intros [[[H1 H2]%andb_prop H3]%andb_prop H4]%andb_prop.
  apply negb_true_iff in H2. apply String.eqb_eq in H4. auto.
Qed.

Lemma lineText_notCr (l : string * string) :
  headerOk l = true -> allChars notCr (lineText l) = true.
Proof.
  intros (Hn & _ & Hv & _)%headerOk_parts. unfold lineText.
  rewrite !allChars_append, (nameChar_notCr _ Hn), (lineChar_notCr _ Hv).
  reflexivity.
Qed.

Lemma lineText_cons (l : string * string) :
  exists c t, lineText l = String c t.
Proof.
  unfold lineText. destruct (fst l) as [|c n]; eauto.
Qed.

Lemma indexOf_CRLF_line (z : string) :
  match z with
  | String c _ => (code cr =? code c) = false
  | EmptyString => False
  end ->
  indexOf CRLFCRLF (CRLF +:+ z) = option_map (Nat.add 2) (indexOf CRLFCRLF z).
Proof.
  destruct z as [|c z]; [intros []|]. intros Hc.
  change (CRLF +:+ String c z) with (String cr (String lf (String c z))).
  cbn [indexOf]. 
  replace (startsWith CRLFCRLF (String cr (String lf (String c z))))
    with false.
  2:{ change CRLFCRLF with (String cr (String lf (String cr (String lf "")))).
      cbn [startsWith]. rewrite Hc, !andb_false_r. reflexivity. }
  replace (startsWith CRLFCRLF (String lf (String c z))) with false
    by reflexivity.
  destruct (startsWith CRLFCRLF (String c z)); [reflexivity|].
  destruct (indexOf CRLFCRLF z); reflexivity.
Qed.

(** The empty line is found where the header lines end. *)
Lemma indexOf_headerEnd (ls : list (string * string)) (rest : string) :
  forallb headerOk ls = true ->
  forall a, allChars notCr a = true ->
  indexOf CRLFCRLF ((a +:+ tailLines ls) +:+ CRLFCRLF +:+ rest)
    = Some (String.length (a +:+ tailLines ls)).
Proof.
  intros Hls. induction ls as [|l ls IH]; intros a Ha.
  - cbn [tailLines]. rewrite append_nil_r.
    change CRLFCRLF with (String cr (String lf CRLF)) at 1.
    rewrite (indexOf_append _ _ _ _ Ha).
    change (String cr (String lf CRLF)) with CRLFCRLF.
    rewrite indexOf_here. cbn [option_map]. rewrite Nat.add_0_r. reflexivity.
  - cbn [forallb] in Hls. apply andb_prop in Hls as [Hl Hls].
    pose proof (lineText_notCr _ Hl) as Hc.
    specialize (IH Hls _ Hc).
    cbn [tailLines].
    replace ((a +:+ CRLF +:+ lineText l +:+ tailLines ls)
             +:+ CRLFCRLF +:+ rest)
      with (a +:+ CRLF
            +:+ ((lineText l +:+ tailLines ls) +:+ CRLFCRLF +:+ rest))
      by (rewrite !append_assoc; reflexivity).
    change CRLFCRLF with (String cr (String lf CRLF)) at 1.
    rewrite (indexOf_append _ _ _ _ Ha).
    change (String cr (String lf CRLF)) with CRLFCRLF.
    rewrite indexOf_CRLF_line.
    + rewrite IH. cbn [option_map]. f_equal.
      rewrite !length_append. change (String.length CRLF) with 2%nat. lia.
    + destruct (lineText_cons l) as (c & t & Et). rewrite Et in *.
      rewrite !append_cons. cbn [allChars] in Hc.
      apply andb_prop in Hc as [Hc _]. apply negb_true_iff in Hc. exact Hc.
Qed.

Lemma split_headerSection (ls : list (string * string)) :
  forallb headerOk ls = true ->
  forall a, allChars notCr a = true ->
  split CRLF (a +:+ tailLines ls) = a :: map lineText ls.
Proof.
  intros Hls. induction ls as [|l ls IH]; intros a Ha.
  - cbn [tailLines map]. rewrite append_nil_r. apply (split_clean cr), Ha.
  - cbn [forallb] in Hls. apply andb_prop in Hls as [Hl Hls].
    cbn [tailLines map].
    change CRLF with (String cr (String lf "")) at 1.
    rewrite (split_append cr _ _ _ Ha).
    change (String cr (String lf "")) with CRLF.
    rewrite split_CRLF, (IH Hls _ (lineText_notCr _ Hl)), append_nil_r.
    reflexivity.
Qed.

Lemma headerLine_lineText (h : gmap string hval) (l : string * string) :
  headerOk l = true ->
  headerLine h (lineText l) = addHeader h (toLowerCase (fst l)) (snd l).
Proof.
  intros (Hn & _ & Hv & Ht)%headerOk_parts. unfold headerLine, lineText.
  assert (Hcolon : allChars (fun c => negb (code colon =? code c)) (fst l)
                   = true).
  { revert Hn. apply allChars_impl. intros c. unfold isNameChar.
    intros [_ H]%andb_prop. rewrite Z.eqb_sym. exact H. }
  change ":" with (String colon "") at 1.
  change (": " +:+ snd l) with (String colon "" +:+ " " +:+ snd l).
  rewrite (indexOf_append _ _ _ _ Hcolon), indexOf_here.
  cbn [option_map]. rewrite Nat.add_0_r.
  rewrite take_append.
  replace (S (String.length (fst l)))
    with (String.length (fst l) + 1)%nat by lia.
  rewrite drop_drop, drop_append. cbn [drop String.append].
  assert (Hs : allChars (fun c => negb (isSpace c)) (fst l) = true).
  { revert Hn. apply allChars_impl. intros c. unfold isNameChar, isSpace.
    intros [[H _]%andb_prop _]%andb_prop. apply Z.ltb_lt in H.
    apply negb_true_iff, orb_false_iff. split.
    - apply andb_false_iff. right. apply Z.leb_gt. lia.
    - apply Z.eqb_neq. lia. }
  rewrite (trim_noSpace _ Hs).
  change (String colon "" +:+ " " +:+ snd l)
    with (String colon (String (Ascii.ascii_of_nat 32) (snd l))).
  change (trim (snd l) = snd l) in Ht. unfold trim in *.
  cbn [trimStart isSpace]. exact (f_equal _ Ht).
Qed.

Lemma fold_headerLine (ls : list (string * string)) :
  forallb headerOk ls = true ->
  forall h,
  fold_left headerLine (map lineText ls) h
    = fold_left (fun h l => addHeader h (toLowerCase (fst l)) (snd l)) ls h.
Proof.
  induction ls as [|l ls IH]; intros Hls h; [reflexivity|].
  cbn [forallb] in Hls. apply andb_prop in Hls as [Hl Hls].
  cbn [map fold_left]. rewrite (headerLine_lineText _ _ Hl). apply IH, Hls.
Qed.

Definition sp : Ascii.ascii := Ascii.ascii_of_nat 32.

Lemma uriChar_noSpace (u : string) :
  allChars isUriChar u = true ->
  allChars (fun c => negb (isSpace c)) u = true.
Proof.
  apply allChars_impl. intros c. unfold isUriChar.
  intros [_ H]%andb_prop. exact H.
Qed.

Lemma noSpace_noNewline (u : string) :
  allChars (fun c => negb (isSpace c)) u = true ->
  allChars (fun c => negb (isNewline c)) u = true.
Proof.
  apply allChars_impl. intros c. unfold isSpace, isNewline.
  intros H. apply negb_true_iff, orb_false_iff in H as [H1 H2].
  apply negb_true_iff, orb_false_iff.
  apply andb_false_iff in H1. split; apply Z.eqb_neq;
    destruct H1 as [H1|H1]; apply Z.leb_gt in H1; lia.
Qed.

Lemma matchUri_build (u : string) :
  isUri u = true -> matchUri (u +:+ " ") = Some u.
Proof.
  unfold isUri. intros [Hu Hne]%andb_prop.
  apply uriChar_noSpace in Hu.
  unfold matchUri. rewrite span_all.
  2:{ rewrite allChars_append, (noSpace_noNewline _ Hu). reflexivity. }
  cbn [fst]. rewrite length_append. cbn [String.length].
  replace (Nat.min (String.length u + 1) (String.length u + 1 - 1))
    with (String.length u) by lia.
  destruct u as [|c u]; [discriminate|].
  change (String.length (String c u)) with (S (String.length u)) at 1.
  rewrite drop_append, take_append. reflexivity.
Qed.

Lemma isWord_not_slash (c : Ascii.ascii) :
  isWord c = true -> (47 =? code c) = false.
Proof.
  unfold isWord. intros H. apply Z.eqb_neq. intros E. rewrite <- E in H.
  discriminate.
Qed.

Lemma isWord_not_sp (c : Ascii.ascii) : isWord c = true -> c <> sp.
Proof. intros H ->. discriminate. Qed.

(** A line that begins with a method does not begin with SIP/2.0. *)
Lemma method_not_version (m rest : string) :
  allChars isWord m = true ->
  startsWith "SIP/2.0" (m +:+ String sp rest) = false.
Proof.
  intros Hm.
  destruct m as [|a [|b [|c [|d m]]]]; cbn [allChars] in Hm;
    rewrite ?append_cons, ?append_nil_l; cbn [startsWith].
  - reflexivity.
  - destruct (_ =? code a); reflexivity.
  - destruct (_ =? code a); [|reflexivity].
    destruct (_ =? code b); reflexivity.
  - destruct (_ =? code a); [|reflexivity].
    destruct (_ =? code b); [|reflexivity].
    destruct (_ =? code c); reflexivity.
  - apply andb_prop in Hm as [_ Hm]. apply andb_prop in Hm as [_ Hm].
    apply andb_prop in Hm as [_ Hm]. apply andb_prop in Hm as [Hd _].
    match goal with
    | |- context [(?x =? code d)] =>
        replace (x =? code d) with false
          by (symmetry; exact (isWord_not_slash _ Hd))
    end.
    destruct (_ =? code a); [|reflexivity].
    destruct (_ =? code b); [|reflexivity].
    destruct (_ =? code c); reflexivity.
Qed.

Lemma matchRequestLine_build (m u : string) :
  isMethod m = true -> isUri u = true ->
  matchRequestLine (m +:+ " " +:+ u +:+ " SIP/2.0") = Some (m, u).
Proof.
  intros [Hm Hne]%andb_prop Hu. unfold matchRequestLine.
  change (m +:+ " " +:+ u +:+ " SIP/2.0")
    with (m +:+ String sp (u +:+ " SIP/2.0")).
  rewrite (span_append isWord m sp _ Hm eq_refl).
  destruct m as [|x m]; [discriminate|].
  set (t := String sp (u +:+ " ")).
  replace (String sp (u +:+ " SIP/2.0")) with (t +:+ "SIP/2.0").
  2:{ unfold t. rewrite append_cons, append_assoc. reflexivity. }
  rewrite length_append. change (String.length "SIP/2.0") with 7%nat.
  replace (String.length t + 7 - 7)%nat with (String.length t) by lia.
  rewrite drop_append, take_append.
  replace (7 <=? String.length t + 7)%nat with true
    by (symmetry; apply Nat.leb_le; lia).
  cbn [String.eqb Ascii.eqb Bool.eqb andb].
  replace (String.eqb "SIP/2.0" "SIP/2.0") with true by reflexivity.
  cbn [andb].
  pose proof Hu as Hu'. unfold isUri in Hu'.
  apply andb_prop in Hu' as [Huc Hun]. apply uriChar_noSpace in Huc.
  destruct u as [|c u]; [discriminate|].
  cbn [allChars] in Huc. apply andb_prop in Huc as [Hc _].
  apply negb_true_iff in Hc.
  unfold t. rewrite append_cons. cbn [span]. 
  replace (isSpace sp) with true by reflexivity. rewrite Hc.
  cbn [fst String.length matchLead drop].
  rewrite <- append_cons, (matchUri_build _ Hu). reflexivity.
Qed.

Lemma lineChar_newline (s : string) :
  allChars isLineChar s = true -> existsChar isNewline s = false.
Proof.
  intros H. rewrite existsChar_allChars. apply negb_false_iff.
  revert H. apply allChars_impl. intros c. unfold isLineChar.
  intros [_ H]%andb_prop. exact H.
Qed.

Lemma isDigit_not_space (c : Ascii.ascii) : isDigit c = true -> isSpace c = false.
Proof.
  unfold isDigit, isSpace. intros [H1 H2]%andb_prop.
  apply Z.leb_le in H1. apply orb_false_iff. split.
  - apply andb_false_iff. right. apply Z.leb_gt. lia.
  - apply Z.eqb_neq. lia.
Qed.

Lemma matchStatusLine_build (digits reason : string) :
  isStatus digits = true -> isReason reason = true ->
  matchStatusLine ("SIP/2.0 " +:+ digits +:+ " " +:+ reason)
    = Some (digits, reason).
Proof.
  unfold isStatus, isReason.
  intros [[Hd Hne]%andb_prop _]%andb_prop [Hr Hf]%andb_prop.
  unfold matchStatusLine.
  change (drop 7 ("SIP/2.0 " +:+ digits +:+ " " +:+ reason))
    with (String sp (digits +:+ String sp reason)).
  destruct digits as [|d ds]; [discriminate|].
  pose proof Hd as Hd'. cbn [allChars] in Hd'.
  apply andb_prop in Hd' as [Hd0 _].
  rewrite append_cons. cbn [span].
  replace (isSpace sp) with true by reflexivity.
  rewrite (isDigit_not_space _ Hd0).
  rewrite <- append_cons. rewrite (span_append isDigit _ sp _ Hd eq_refl).
  cbn [span]. replace (isSpace sp) with true by reflexivity.
  assert (Hs : span isSpace reason = ("", reason)).
  { destruct reason as [|c r]; [reflexivity|].
    cbn [span]. apply negb_true_iff in Hf. rewrite Hf. reflexivity. }
  rewrite Hs, (lineChar_newline _ Hr). reflexivity.
Qed.

(** What [parseSipMessage] does with the first line, given the headers
    and the body. *)
Definition parseFirstLine (firstLine : string) (headers : gmap string hval)
    (body : string) : option Parsed :=
  if startsWith "SIP/2.0" firstLine then
    match matchStatusLine firstLine with
    | Some (digits, reason) =>
        Some (Response
          {| statusCode := Framer.parseDigits (bytesOf digits);
             reasonPhrase := reason; method := ""; uri := "";
             headers := headers; body := body |})
    | None => None
    end
  else
    match matchRequestLine firstLine with
    | Some (m, u) =>
        Some (Request
          {| statusCode := 0; reasonPhrase := ""; method := m; uri := u;
             headers := headers; body := body |})
    | None => None
    end.

Lemma parse_render (first : string) (ls : list (string * string))
    (b : string) :
  allChars notCr first = true -> forallb headerOk ls = true ->
  parseSipMessage (render {| startLine := first; lines := ls; payload := b |})
    = parseFirstLine first (headersOf ls) b.
Proof.
  intros Hf Hls. unfold parseSipMessage.
  rewrite render_shape. cbn [startLine lines payload].
  rewrite (indexOf_headerEnd _ _ Hls _ Hf). cbv zeta.
  rewrite take_append, drop_drop, drop_append.
  rewrite (split_headerSection _ Hls _ Hf). cbn [hd tl].
  rewrite (fold_headerLine _ Hls).
  reflexivity.
Qed.

Lemma isWord_notCr (s : string) :
  allChars isWord s = true -> allChars notCr s = true.
Proof.
  apply allChars_impl. intros c H. unfold notCr.
  apply negb_true_iff, Z.eqb_neq. intros E. unfold isWord in H.
  rewrite <- E in H. discriminate.
Qed.

Lemma uriChar_notCr (s : string) :
  allChars isUriChar s = true -> allChars notCr s = true.
Proof.
  intros H. apply uriChar_noSpace, noSpace_noNewline in H. revert H.
  apply allChars_impl. intros c. unfold isNewline, notCr.
  intros H. apply negb_true_iff, orb_false_iff in H as [_ H].
  apply Z.eqb_neq in H. apply negb_true_iff, Z.eqb_neq.
  change (code cr) with 13. lia.
Qed.

Lemma isDigit_notCr (s : string) :
  allChars isDigit s = true -> allChars notCr s = true.
Proof.
  apply allChars_impl. intros c. unfold isDigit, notCr.
  intros [H _]%andb_prop. apply Z.leb_le in H.
  apply negb_true_iff, Z.eqb_neq. change (code cr) with 13. lia.
Qed.

(** X22. A request that is built with a method of word characters, a URI
    without white space and header lines as the builders write them is
    read back by parseSipMessage as a request with that method and URI,
    the headers under their names in lower case, a repeated name giving
    an array, and the body unchanged, whatever the body holds. *)
Theorem rendered_request_parses (m u : string) (ls : list (string * string))
    (b : string) :
  isMethod m = true -> isUri u = true -> forallb headerOk ls = true ->
  parseSipMessage
    (render {| startLine := m +:+ " " +:+ u +:+ " SIP/2.0";
               lines := ls; payload := b |})
  = Some (Request {| statusCode := 0; reasonPhrase := ""; method := m;
                     uri := u; headers := headersOf ls; body := b |}).
Proof.
  intros Hm Hu Hls.
  assert (Hf : allChars notCr (m +:+ " " +:+ u +:+ " SIP/2.0") = true).
  { apply andb_prop in Hm as [Hm _]. apply andb_prop in Hu as [Hu _].
    rewrite !allChars_append, (isWord_notCr _ Hm), (uriChar_notCr _ Hu).
    reflexivity. }
  rewrite (parse_render _ _ _ Hf Hls). unfold parseFirstLine.
  change (m +:+ " " +:+ u +:+ " SIP/2.0")
    with (m +:+ String sp (u +:+ " SIP/2.0")) at 1.
  rewrite method_not_version by (apply andb_prop in Hm as [Hm _]; exact Hm).
  rewrite (matchRequestLine_build _ _ Hm Hu). reflexivity.
Qed.

(** X23. A response that is built with a status of at most fifteen digits,
    a reason phrase on one line and header lines as the builders write
    them is read back by parseSipMessage as a response with that status
    code and reason phrase, the headers under their names in lower case
    and the body unchanged. *)
Theorem rendered_response_parses (digits reason : string)
    (ls : list (string * string)) (b : string) :
  isStatus digits = true -> isReason reason = true ->
  forallb headerOk ls = true ->
  parseSipMessage
    (render {| startLine := "SIP/2.0 " +:+ digits +:+ " " +:+ reason;
               lines := ls; payload := b |})
  = Some (Response {| statusCode := Framer.parseDigits (bytesOf digits);
                      reasonPhrase := reason; method := ""; uri := "";
                      headers := headersOf ls; body := b |}).
Proof.
  intros Hd Hr Hls.
  assert (Hf : allChars notCr ("SIP/2.0 " +:+ digits +:+ " " +:+ reason)
               = true).
  { apply andb_prop in Hd as [Hd _]. apply andb_prop in Hd as [Hd _].
    apply andb_prop in Hr as [Hr _].
    rewrite !allChars_append, (isDigit_notCr _ Hd), (lineChar_notCr _ Hr).
    reflexivity. }
  rewrite (parse_render _ _ _ Hf Hls). unfold parseFirstLine.
  replace (startsWith "SIP/2.0" ("SIP/2.0 " +:+ digits +:+ " " +:+ reason))
    with true by reflexivity.
  rewrite (matchStatusLine_build _ _ Hd Hr). reflexivity.
Qed.

Lemma code_inj (a b : Ascii.ascii) : code a = code b -> a = b.
Proof.
  unfold code. intros H. apply N2Z.inj in H.
  rewrite <- (Ascii.ascii_N_embedding a), <- (Ascii.ascii_N_embedding b), H.
  reflexivity.
Qed.

Lemma startsWith_CRLF (data : string) :
  startsWith CRLF data = true -> exists rest, data = CRLF +:+ rest.
Proof.
  destruct data as [|a [|b rest]]; try discriminate.
  - cbn. rewrite andb_false_r. discriminate.
  - cbn [startsWith CRLF]. intros [Ha [Hb _]%andb_prop]%andb_prop.
    apply Z.eqb_eq, code_inj in Ha. apply Z.eqb_eq, code_inj in Hb.
    subst a b. exists rest. reflexivity.
Qed.

Lemma parse_firstLine (str : string) :
  parseSipMessage str
  = let headerEnd := indexOf CRLFCRLF str in
    let lines :=
      split CRLF (match headerEnd with Some n => take n str | None => "" end) in
    parseFirstLine (hd "" lines) (fold_left headerLine (tl lines) ∅)
      (match headerEnd with Some n => drop (n + 4) str | None => "" end).
Proof. reflexivity. Qed.

(** Text without an empty line, or with nothing before the first line
    break, has no first line to read. *)
Lemma parse_rejects (data : string) :
  indexOf CRLFCRLF data = None \/ startsWith CRLF data = true ->
  parseSipMessage data = None.
Proof.
  intros [H|H]; rewrite parse_firstLine; cbv zeta.
  - rewrite H. reflexivity.
  - apply startsWith_CRLF in H as [rest ->].
    destruct (indexOf CRLFCRLF (CRLF +:+ rest)) as [n|] eqn:E;
      [|reflexivity].
    destruct n as [|[|k]]; [reflexivity| |reflexivity].
    exfalso. change (CRLF +:+ rest) with (String cr (String lf rest)) in E.
    cbn [indexOf] in E.
    destruct (startsWith CRLFCRLF (String cr (String lf rest)));
      [discriminate|].
    replace (startsWith CRLFCRLF (String lf rest)) with false in E
      by reflexivity.
    destruct (indexOf CRLFCRLF rest); discriminate.
Qed.

(** *** The text of a number *)

Definition isNumberChar (c : Ascii.ascii) : bool :=
  isDigit c || (code c =? 45).

Lemma pretty_N_char_digit (x : N) : isDigit (pretty_N_char x) = true.
Proof.
  unfold pretty_N_char.
  repeat (match goal with
          | |- context [match ?y with _ => _ end] => destruct y
          end); reflexivity.
Qed.

Lemma pretty_N_go_digits (x : N) :
  forall s, allChars isDigit s = true ->
  allChars isDigit (pretty_N_go x s) = true.
Proof.
  induction (N.lt_wf_0 x) as [x _ IH]. intros s Hs.
  destruct (N.eq_dec x 0%N) as [->|Hx].
  - rewrite pretty_N_go_0. exact Hs.
  - rewrite pretty_N_go_step by lia. apply IH.
    + apply N.div_lt; lia.
    + cbn [allChars]. rewrite pretty_N_char_digit, Hs. reflexivity.
Qed.

Lemma pretty_Z_chars (z : Z) : allChars isNumberChar (pretty z) = true.
Proof.
  assert (HN : forall p : positive,
             allChars isNumberChar (pretty (N.pos p)) = true).
  { intros p. apply (allChars_impl isDigit).
    - intros c H. unfold isNumberChar. rewrite H. reflexivity.
    - unfold pretty, pretty_N. destruct (decide (N.pos p = 0%N)).
      + reflexivity.
      + apply pretty_N_go_digits. reflexivity. }
  destruct z as [|p|p].
  - reflexivity.
  - apply HN.
  - change (pretty (Z.neg p)) with ("-" +:+ pretty (N.pos p)).
    rewrite allChars_append, HN. reflexivity.
Qed.

(** *** Parameters of an authentication header, read back *)

Import Digest.

(** A value that can stand between double quotes on one line. *)
Definition isQuotable (v : string) : bool :=
  allChars (fun c => negb (isQuote c) && negb (isNewline c)) v
  && negb (String.eqb v "").

Lemma quotable_parts (v : string) :
  isQuotable v = true ->
  allChars (fun c => negb (isQuote c)) v = true
  /\ allChars (fun c => negb (isNewline c)) v = true
  /\ exists c v', v = String c v'.
Proof.
  unfold isQuotable. intros [H Hne]%andb_prop. repeat split.
  - revert H. apply allChars_impl. intros c [H _]%andb_prop. exact H.
  - revert H. apply allChars_impl. intros c [_ H]%andb_prop. exact H.
  - destruct v as [|c v']; [discriminate|eauto].
Qed.

Lemma quoted_append (v rest : string) :
  quoted v +:+ rest = String dquote (v +:+ String dquote rest).
Proof.
  unfold quoted. rewrite ?append_cons, append_assoc. reflexivity.
Qed.

Definition eqSign : Ascii.ascii := Ascii.ascii_of_nat 61.

Lemma matchParam_quoted (key v rest : string) :
  allChars isWord key = true -> key <> "" -> isQuotable v = true ->
  matchParam (key +:+ String eqSign (quoted v +:+ rest))
    = Some (key, v, (String.length key + String.length v + 3)%nat).
Proof.
  intros Hk Hne (Hq & _ & c & v' & ->)%quotable_parts.
  unfold matchParam.
  rewrite (span_append isWord key eqSign _ Hk eq_refl).
  destruct key as [|k key]; [contradiction|].
  replace (code eqSign =? 61) with true by reflexivity.
  rewrite quoted_append.
  replace (isQuote dquote) with true by reflexivity.
  rewrite (span_append (fun c => negb (isQuote c)) _ dquote rest Hq eq_refl).
  replace (isQuote dquote) with true by reflexivity.
  reflexivity.
Qed.

Lemma scanParams_skip (a rest : string) (result : gmap string string) :
  scanParams (String.length a) (a +:+ rest) result = scanParams 0 rest result.
Proof.
  induction a as [|x a IH]; [reflexivity|].
  rewrite append_cons. cbn [String.length scanParams]. exact IH.
Qed.

(** A parameter with a quoted value is recorded, and the scan goes on
    after the closing quote. *)
Lemma scanParams_quoted (key v rest : string) (result : gmap string string) :
  allChars isWord key = true -> key <> "" -> isQuotable v = true ->
  scanParams 0 (key +:+ String eqSign (quoted v +:+ rest)) result
    = scanParams 0 rest (<[key := v]> result).
Proof.
  intros Hk Hne Hv.
  pose proof (matchParam_quoted key v rest Hk Hne Hv) as Hm.
  destruct key as [|k key]; [contradiction|].
  rewrite append_cons in *. cbn [scanParams]. rewrite Hm.
  replace (key +:+ String eqSign (quoted v +:+ rest))
    with ((key +:+ String eqSign (quoted v)) +:+ rest)
    by (rewrite append_assoc, append_cons; reflexivity).
  replace (String.length (String k key) + String.length v + 3 - 1)%nat
    with (String.length (key +:+ String eqSign (quoted v))).
  - apply scanParams_skip.
  - unfold quoted. rewrite !length_append. cbn [String.length].
    rewrite !length_append. cbn [String.length]. lia.
Qed.

Lemma scanParams_separator (rest : string) (result : gmap string string) :
  scanParams 0 (", " +:+ rest) result = scanParams 0 rest result.
Proof. reflexivity. Qed.

Lemma quotable_line (v : string) :
  isQuotable v = true -> existsChar isNewline (quoted v) = false.
Proof.
  intros (_ & Hn & _)%quotable_parts. rewrite existsChar_allChars.
  apply negb_false_iff. unfold quoted.
  cbn [allChars]. rewrite allChars_append, Hn. reflexivity.
Qed.

Lemma existsChar_append (f : Ascii.ascii -> bool) (a b : string) :
  existsChar f (a +:+ b) = existsChar f a || existsChar f b.
Proof.
  induction a as [|x a IH]; [reflexivity|].
  rewrite append_cons. cbn [existsChar]. rewrite IH, orb_assoc. reflexivity.
Qed.

(** The challenge of a registrar, with a realm and a nonce. *)
Definition challengeOf (realm nonce : string) : string :=
  "Digest realm=" +:+ quoted realm +:+ ", nonce=" +:+ quoted nonce.

Lemma parse_challenge (realm nonce : string) :
  isQuotable realm = true -> isQuotable nonce = true ->
  parseAuthHeader (challengeOf realm nonce)
    = Some (<["nonce" := nonce]>
              (<["realm" := realm]> (<["scheme" := "Digest"]> ∅))).
Proof.
  intros Hr Hn. unfold parseAuthHeader, challengeOf.
  change ("Digest realm=" +:+ quoted realm +:+ ", nonce=" +:+ quoted nonce)
    with ("Digest" +:+ String sp
            ("realm" +:+ String eqSign
               (quoted realm +:+ ", nonce=" +:+ quoted nonce))).
  rewrite (span_append isWord "Digest" sp _ eq_refl eq_refl).
  cbn [span]. replace (isSpace sp) with true by reflexivity.
  replace (span isSpace
             ("realm" +:+ String eqSign
                (quoted realm +:+ ", nonce=" +:+ quoted nonce)))
    with ("", "realm" +:+ String eqSign
                (quoted realm +:+ ", nonce=" +:+ quoted nonce))
    by reflexivity.
  replace (existsChar isNewline _) with false.
  2:{ symmetry. rewrite !existsChar_append.
      change (existsChar isNewline (String eqSign ?x))
        with (existsChar isNewline x).
      rewrite !existsChar_append, (quotable_line _ Hr), (quotable_line _ Hn).
      reflexivity. }
  rewrite scanParams_quoted by (try exact Hr; reflexivity || discriminate).
  rewrite <- (append_nil_r (quoted nonce)).
  change (", nonce=" +:+ quoted nonce +:+ "")
    with (", " +:+ "nonce" +:+ String eqSign (quoted nonce +:+ "")).
  rewrite scanParams_separator.
  rewrite scanParams_quoted by (try exact Hn; reflexivity || discriminate).
  reflexivity.
Qed.

(** *** parseSdp and the dispatch *)

Section Dispatch.

Variable randomHex : nat -> nat -> string.
(** [parseInt(text)]; [None] is NaN. *)
Variable parseInt : string -> option Z.
(** [Number(text)] when it is an integer; [None] is NaN. *)
Variable number : string -> option Z.
Variable md5 : string -> string.

(** [currentMedia.ip = ip]: the media pushed last is the one changed. *)
Fixpoint setLastIp (ip : option string) (ms : list Media) : list Media :=
  match ms with
  | [] => []
  | [m] => [mkMedia ip (mediaPort m) (payloadTypes m)]
  | m :: ms' => m :: setLastIp ip ms'
  end.

(** One line of the loop of [parseSdp].  The attributes and the rtpmap of
    a media, which are never read, are left out. *)
Definition sdpLine (result : Sdp) (line : string) : Sdp :=
  match line with
  | String type (String eq value) =>
      if negb (code eq =? 61) then result
      else if (code type =? 99) && startsWith "IN IP4" value then
        let ip := split " " value !! 2%nat in
        match media result with
        | [] => mkSdp ip []
        | ms => mkSdp (connectionIp result) (setLastIp ip ms)
        end
      else if code type =? 109 then
        let parts := split " " value in
        mkSdp (connectionIp result)
              (media result
               ++ [mkMedia (connectionIp result)
                           (match parts !! 1%nat with
                            | Some p => parseInt p
                            | None => None
                            end)
                           (map number (skipn 3 parts))])
      else result
  | _ => result
  end.

Definition parseSdp (sdpText : string) : Sdp :=
  fold_left sdpLine (split CRLF sdpText) (mkSdp None []).

(** [_handleResponse(msg)]; the method of a repeated CSeq header, which
    is an array, cannot be split. *)
Definition _handleResponse (msg : Message) : M unit :=
  match orElse (headers msg !! "cseq") (Some (HStr "")) with
  | Some (HStr cseqHeader) =>
      let method := nth 1 (split " " cseqHeader) "" in
      if String.eqb method "REGISTER" then
        _handleRegisterResponse randomHex md5 msg
      else if String.eqb method "INVITE" then
        _handleInviteResponse randomHex parseSdp md5 msg
      else ret tt
  | _ => throw
  end.

(** [_handleRequest(msg, rinfo)]. *)
Definition _handleRequest (msg : Message) (address : string) (port : Z)
    : M unit :=
  if String.eqb (method msg) "INVITE" then
    _handleIncomingInvite randomHex parseInt msg address port
  else if String.eqb (method msg) "ACK" then ret tt
  else if String.eqb (method msg) "BYE" then _handleBye msg
  else if String.eqb (method msg) "CANCEL" then _handleIncomingCancel msg
  else if String.eqb (method msg) "OPTIONS" then _replyToOptions randomHex msg
  else if String.eqb (method msg) "NOTIFY" then _reply200 msg
  else ret tt.

(** [_handleMessage(data, rinfo)]: text that [parseSipMessage] rejects is
    logged and dropped. *)
Definition _handleMessage (data : string) (address : string) (port : Z)
    : M unit :=
  match parseSipMessage data with
  | None => ret tt
  | Some (Response msg) => _handleResponse msg
  | Some (Request msg) => _handleRequest msg address port
  end.

(** X24. Text without an empty line, and text that begins with a line
    break, such as a keep-alive or a datagram cut before the end of its
    headers, is dropped by _handleMessage: the handler returns, the agent
    is unchanged and nothing is sent, whatever else the text holds. *)
Theorem unframed_text_is_dropped (data address : string) (port : Z)
    (ua : SipUA) :
  indexOf CRLFCRLF data = None \/ startsWith CRLF data = true ->
  _handleMessage data address port ua = (Some tt, ua, []).
Proof.
  intros H. unfold _handleMessage.
  rewrite (parse_rejects data H). reflexivity.
Qed.

Fixpoint joinLines (ls : list string) : string :=
  match ls with
  | [] => ""
  | l :: ls' => l +:+ CRLF +:+ joinLines ls'
  end.

Lemma split_joinLines (ls : list string) :
  forallb (allChars notCr) ls = true ->
  split CRLF (joinLines ls) = ls ++ [""].
Proof.
  induction ls as [|l ls IH]; [reflexivity|].
  cbn [forallb]. intros [Hl Hls]%andb_prop. cbn [joinLines].
  change CRLF with (String cr (String lf "")) at 1.
  rewrite (split_append cr _ _ _ Hl).
  change (String cr (String lf "")) with CRLF.
  rewrite split_CRLF, (IH Hls), append_nil_r. reflexivity.
Qed.

Definition notSp (c : Ascii.ascii) : bool := negb (code sp =? code c).

Lemma split_word (a b : string) :
  allChars notSp a = true ->
  split " " (a +:+ " " +:+ b) = a :: split " " b.
Proof.
  intros Ha. change " " with (String sp "") at 1.
  rewrite (split_append sp _ _ _ Ha).
  change (split (String sp "") (" " +:+ b)) with ("" :: split " " b).
  cbv beta iota. rewrite append_nil_r. reflexivity.
Qed.

Lemma split_last (a : string) :
  allChars notSp a = true -> split " " a = [a].
Proof. apply (split_clean sp). Qed.

Lemma numberChar_notSp (s : string) :
  allChars isNumberChar s = true -> allChars notSp s = true.
Proof.
  apply allChars_impl. intros c. unfold isNumberChar, isDigit, notSp.
  intros H. apply negb_true_iff, Z.eqb_neq. change (code sp) with 32.
  apply orb_prop in H as [[H _]%andb_prop|H].
  - apply Z.leb_le in H. lia.
  - apply Z.eqb_eq in H. lia.
Qed.

Lemma numberChar_notCr (s : string) :
  allChars isNumberChar s = true -> allChars notCr s = true.
Proof.
  apply allChars_impl. intros c. unfold isNumberChar, isDigit, notCr.
  intros H. apply negb_true_iff, Z.eqb_neq. change (code cr) with 13.
  apply orb_prop in H as [[H _]%andb_prop|H].
  - apply Z.leb_le in H. lia.
  - apply Z.eqb_eq in H. lia.
Qed.

Lemma uriChar_notSp (s : string) :
  allChars isUriChar s = true -> allChars notSp s = true.
Proof.
  apply allChars_impl. intros c. unfold isUriChar, isSpace, notSp.
  intros [_ H]%andb_prop. apply negb_true_iff, orb_false_iff in H as [_ H].
  apply Z.eqb_neq in H. apply negb_true_iff, Z.eqb_neq.
  change (code sp) with 32. lia.
Qed.

(** The lines of the session description that [_buildSdp] writes. *)
Definition sdpLines (sessionId rtpPort : Z) (ip : string) : list string :=
  [ "v=0";
    "o=SIPPhone " +:+ pretty sessionId +:+ " " +:+ pretty sessionId
      +:+ " IN IP4 " +:+ ip;
    "s=SIPPhone Call";
    "c=IN IP4 " +:+ ip;
    "t=0 0";
    "m=audio " +:+ pretty rtpPort +:+ " RTP/AVP 0 8 101";
    "a=rtpmap:0 PCMU/8000";
    "a=rtpmap:8 PCMA/8000";
    "a=rtpmap:101 telephone-event/8000";
    "a=fmtp:101 0-16";
    "a=ptime:20";
    "a=sendrecv" ].

Lemma buildSdp_lines (sessionId rtpPort : Z) (ua : SipUA) :
  _buildSdp sessionId rtpPort ua
    = (Some (joinLines (sdpLines sessionId rtpPort (tplNull (localIp ua)))),
       ua, []).
Proof.
  unfold _buildSdp, bind, get, ret. cbn [app]. do 2 f_equal. f_equal.
  unfold sdpLines. cbn [joinLines]. rewrite !append_assoc, append_nil_r.
  reflexivity.
Qed.

Lemma buildSdp_lines_nonempty (sessionId rtpPort : Z) (ua : SipUA)
    (text : string) :
  _buildSdp sessionId rtpPort ua = (Some text, ua, []) ->
  String.eqb text "" = false.
Proof.
  rewrite buildSdp_lines. intros H. injection H as <-. reflexivity.
Qed.

Lemma sdpLines_notCr (sessionId rtpPort : Z) (ip : string) :
  allChars notCr ip = true ->
  forallb (allChars notCr) (sdpLines sessionId rtpPort ip) = true.
Proof.
  intros Hip. unfold sdpLines. cbn [forallb].
  rewrite !allChars_append, Hip.
  rewrite !(numberChar_notCr _ (pretty_Z_chars _)). reflexivity.
Qed.

(** X25. The session description that _buildSdp writes is read back by
    parseSdp, when the local address holds no white space: one media with
    the address of the [c=] line, the port read from the text of the port
    offered, and the payload types 0, 8 and 101 in this order. *)
Theorem own_sdp_is_read_back (ua : SipUA) (sessionId rtpPort : Z) :
  allChars isUriChar (tplNull (localIp ua)) = true ->
  exists text,
    _buildSdp sessionId rtpPort ua = (Some text, ua, [])
    /\ parseSdp text
       = {| connectionIp := Some (tplNull (localIp ua));
            media :=
              [ {| mediaIp := Some (tplNull (localIp ua));
                   mediaPort := parseInt (pretty rtpPort);
                   payloadTypes := [number "0"; number "8"; number "101"] |} ]
         |}.
Proof.
  intros Hip. eexists. split; [apply buildSdp_lines|].
  set (ip := tplNull (localIp ua)) in *.
  unfold parseSdp.
  rewrite split_joinLines by (apply sdpLines_notCr, uriChar_notCr, Hip).
  unfold sdpLines. cbn [app fold_left].
  assert (Hc : sdpLine {| connectionIp := None; media := [] |}
                       ("c=IN IP4 " +:+ ip)
               = {| connectionIp := Some ip; media := [] |}).
  { change ("c=IN IP4 " +:+ ip)
      with (String (Ascii.ascii_of_nat 99) (String (Ascii.ascii_of_nat 61)
              ("IN" +:+ " " +:+ "IP4" +:+ " " +:+ ip))).
    unfold sdpLine.
    replace (code (Ascii.ascii_of_nat 61) =? 61) with true by reflexivity.
    replace (code (Ascii.ascii_of_nat 99) =? 99) with true by reflexivity.
    cbn [negb andb].
    replace (startsWith "IN IP4" ("IN" +:+ " " +:+ "IP4" +:+ " " +:+ ip))
      with true by reflexivity.
    rewrite !split_word by reflexivity.
    rewrite (split_last _ (uriChar_notSp _ Hip)). reflexivity. }
  assert (Hm : sdpLine {| connectionIp := Some ip; media := [] |}
                       ("m=audio " +:+ pretty rtpPort +:+ " RTP/AVP 0 8 101")
               = {| connectionIp := Some ip;
                    media :=
                      [ {| mediaIp := Some ip;
                           mediaPort := parseInt (pretty rtpPort);
                           payloadTypes :=
                             [number "0"; number "8"; number "101"] |} ] |}).
  { change ("m=audio " +:+ pretty rtpPort +:+ " RTP/AVP 0 8 101")
      with (String (Ascii.ascii_of_nat 109) (String (Ascii.ascii_of_nat 61)
              ("audio" +:+ " " +:+ pretty rtpPort +:+ " "
               +:+ "RTP/AVP 0 8 101"))).
    unfold sdpLine.
    replace (code (Ascii.ascii_of_nat 61) =? 61) with true by reflexivity.
    replace (code (Ascii.ascii_of_nat 109) =? 99) with false by reflexivity.
    replace (code (Ascii.ascii_of_nat 109) =? 109) with true by reflexivity.
    cbn [negb andb].
    rewrite split_word by reflexivity.
    rewrite split_word
      by (apply numberChar_notSp, pretty_Z_chars).
    reflexivity. }
  change (sdpLine {| connectionIp := None; media := [] |} "v=0")
    with {| connectionIp := None; media := [] |}.
  change (sdpLine {| connectionIp := None; media := [] |}
            ("o=SIPPhone " +:+ pretty sessionId +:+ " " +:+ pretty sessionId
             +:+ " IN IP4 " +:+ ip))
    with {| connectionIp := None; media := [] |}.
  change (sdpLine {| connectionIp := None; media := [] |} "s=SIPPhone Call")
    with {| connectionIp := None; media := [] |}.
  rewrite Hc.
  change (sdpLine {| connectionIp := Some ip; media := [] |} "t=0 0")
    with {| connectionIp := Some ip; media := [] |}.
  rewrite Hm. reflexivity.
Qed.

(** X26. The Authorization header that buildAuthorizationHeader writes is
    read back by parseAuthHeader, when the user name, the realm, the
    nonce, the URI and the response are not empty and hold neither a
    double quote nor a line break: the scheme is Digest, each parameter
    has the value that was written, and the algorithm is MD5. *)
Theorem authorization_header_round_trip (auth : gmap string string)
    (method uri username password : string) :
  isQuotable username = true ->
  isQuotable (prop auth "realm") = true ->
  isQuotable (prop auth "nonce") = true ->
  isQuotable uri = true ->
  isQuotable (computeDigestResponse md5 auth method uri username password)
    = true ->
  Digest.parseAuthHeader
    (buildAuthorizationHeader md5 auth method uri username password)
  = Some (<["algorithm" := "MD5"]>
         (<["response" :=
              computeDigestResponse md5 auth method uri username password]>
         (<["uri" := uri]>
         (<["nonce" := prop auth "nonce"]>
         (<["realm" := prop auth "realm"]>
         (<["username" := username]>
         (<["scheme" := "Digest"]> ∅))))))).
Proof.
  intros Hu Hr Hn Hi Hd.
  unfold buildAuthorizationHeader, Digest.parseAuthHeader. cbv zeta.
  set (response := computeDigestResponse md5 auth method uri username password)
    in *.
  set (realm := prop auth "realm") in *.
  set (nonce := prop auth "nonce") in *.
  pose (p5 := ", algorithm=MD5").
  pose (p4 := ", " +:+ "response" +:+ String eqSign (quoted response +:+ p5)).
  pose (p3 := ", " +:+ "uri" +:+ String eqSign (quoted uri +:+ p4)).
  pose (p2 := ", " +:+ "nonce" +:+ String eqSign (quoted nonce +:+ p3)).
  pose (p1 := ", " +:+ "realm" +:+ String eqSign (quoted realm +:+ p2)).
  pose (p0 := "username" +:+ String eqSign (quoted username +:+ p1)).
  replace ("Digest username=" +:+ quoted username +:+ ", realm="
           +:+ quoted realm +:+ ", nonce=" +:+ quoted nonce +:+ ", uri="
           +:+ quoted uri +:+ ", response=" +:+ quoted response
           +:+ ", algorithm=MD5")
    with ("Digest" +:+ String sp p0).
  2:{ unfold p0, p1, p2, p3, p4, p5. cbn [String.append].
      rewrite ?append_assoc. reflexivity. }
  rewrite (span_append isWord "Digest" sp _ eq_refl eq_refl).
  cbn [span]. replace (isSpace sp) with true by reflexivity.
  replace (span isSpace p0) with ("", p0) by reflexivity.
  replace (existsChar isNewline p0) with false.
  2:{ symmetry. unfold p0, p1, p2, p3, p4, p5.
      repeat (rewrite ?existsChar_append;
              change (existsChar isNewline (String eqSign ?x))
                with (existsChar isNewline x)).
      rewrite ?existsChar_append.
      rewrite (quotable_line _ Hu), (quotable_line _ Hr),
        (quotable_line _ Hn), (quotable_line _ Hi), (quotable_line _ Hd).
      reflexivity. }
  unfold p0. rewrite scanParams_quoted by (assumption || reflexivity || discriminate).
  unfold p1. rewrite scanParams_separator.
  rewrite scanParams_quoted by (assumption || reflexivity || discriminate).
  unfold p2. rewrite scanParams_separator.
  rewrite scanParams_quoted by (assumption || reflexivity || discriminate).
  unfold p3. rewrite scanParams_separator.
  rewrite scanParams_quoted by (assumption || reflexivity || discriminate).
  unfold p4. rewrite scanParams_separator.
  rewrite scanParams_quoted by (assumption || reflexivity || discriminate).
  reflexivity.
Qed.

(** X27. A 401 that arrives as text, with a CSeq header of a REGISTER and
    one WWW-Authenticate header that carries a Digest realm and nonce, is
    answered with one REGISTER when the transport can send: its CSeq is
    one more than the last, and its Authorization header carries the
    extension, the realm and nonce of the challenge, the URI of the server
    and the MD5 response for the configured password. *)
Theorem challenge_text_is_answered (ua : SipUA)
    (reason realm nonce cseq content address : string)
    (ls : list (string * string)) (port : Z) :
  canSend ua = true ->
  isReason reason = true -> forallb headerOk ls = true ->
  headersOf ls !! "cseq" = Some (HStr cseq) ->
  nth 1 (split " " cseq) "" = "REGISTER" ->
  headersOf ls !! "www-authenticate" = Some (HStr (challengeOf realm nonce)) ->
  isQuotable realm = true -> isQuotable nonce = true ->
  let uri := "sip:" +:+ server (config ua) in
  let HA1 := md5 (extension (config ua) +:+ ":" +:+ realm +:+ ":"
                  +:+ password (config ua)) in
  let HA2 := md5 ("REGISTER" +:+ ":" +:+ uri) in
  exists w ua',
    _handleMessage
      (render {| startLine := "SIP/2.0 " +:+ "401" +:+ " " +:+ reason;
                 lines := ls; payload := content |}) address port ua
    = (Some tt, ua', [w])
    /\ startLine w = "REGISTER " +:+ uri +:+ " SIP/2.0"
    /\ header "Authorization" w
       = Some ("Digest username=" +:+ quoted (extension (config ua))
               +:+ ", realm=" +:+ quoted realm
               +:+ ", nonce=" +:+ quoted nonce
               +:+ ", uri=" +:+ quoted uri
               +:+ ", response="
               +:+ quoted (md5 (HA1 +:+ ":" +:+ nonce +:+ ":" +:+ HA2))
               +:+ ", algorithm=MD5")
    /\ header "CSeq" w = Some (pretty (registerCSeq ua + 1) +:+ " REGISTER")
    /\ registerCSeq ua' = registerCSeq ua + 1.
Proof.
  intros Hsend Hreason Hls Hcseq Hmethod Hwww Hrealm Hnonce uri HA1 HA2.
  unfold _handleMessage.
  rewrite (rendered_response_parses "401" reason ls content eq_refl Hreason Hls).
  unfold _handleResponse. cbn [headers]. rewrite Hcseq.
  assert (Hc : orElse (Some (HStr cseq)) (Some (HStr "")) = Some (HStr cseq)).
  { destruct cseq; reflexivity. }
  rewrite Hc, Hmethod.
  replace (String.eqb "REGISTER" "REGISTER") with true by reflexivity.
  unfold _handleRegisterResponse. cbn [statusCode headers].
  replace (Framer.parseDigits (bytesOf "401") =? 401) with true
    by (vm_compute; reflexivity).
  rewrite Hwww. cbn [orb].
  assert (Ht : forall o, orElse (Some (HStr (challengeOf realm nonce))) o
                         = Some (HStr (challengeOf realm nonce))).
  { reflexivity. }
  rewrite Ht.
  replace (truthy (Some (HStr (challengeOf realm nonce)))) with true
    by reflexivity.
  unfold _buildRegisterWithAuth, Sip.parseAuthHeader.
  rewrite (parse_challenge _ _ Hrealm Hnonce).
  unfold canSend in Hsend.
  unfold _startRegisterRetryTimer, generateBranch, randomBytesHex, _send,
    bind, get, modify, ret, throw, transmit.
  destruct (transport (config ua)) eqn:Et;
    try (apply andb_prop in Hsend as [Hsend Hport];
         unfold Rtp.validPort in Hport);
    repeat (progress (cbn; rewrite ?Hsend, ?Hport, ?Et));
    do 2 eexists; (split; [reflexivity|]); repeat split; reflexivity.
Qed.

(** X28. A BYE that arrives as text ends the call, whatever its Call-ID
    and whether or not there is a call: when the transport can send, the
    one message sent is a 200 OK that repeats the Via, From, To, Call-ID
    and CSeq headers of the BYE, and the agent is left without a call. *)
Theorem any_bye_ends_the_call (ua : SipUA) (u content address : string)
    (ls : list (string * string)) (port : Z) :
  canSend ua = true -> isUri u = true -> forallb headerOk ls = true ->
  let h := headersOf ls in
  _handleMessage
    (render {| startLine := "BYE" +:+ " " +:+ u +:+ " SIP/2.0";
               lines := ls; payload := content |}) address port ua
  = (Some tt, set_call None ua,
     [ {| startLine := "SIP/2.0 200 OK";
          lines := [("Via", tpl (h !! "via")); ("From", tpl (h !! "from"));
                    ("To", tpl (h !! "to"));
                    ("Call-ID", tpl (h !! "call-id"));
                    ("CSeq", tpl (h !! "cseq")); ("Content-Length", "0")];
          payload := "" |} ]).
Proof.
  intros Hsend Hu Hls h. unfold _handleMessage.
  rewrite (rendered_request_parses "BYE" u ls content eq_refl Hu Hls).
  unfold _handleRequest. cbn [method].
  replace (String.eqb "BYE" "INVITE") with false by reflexivity.
  replace (String.eqb "BYE" "ACK") with false by reflexivity.
  replace (String.eqb "BYE" "BYE") with true by reflexivity.
  unfold _handleBye, _reply200, _endCall.
  unfold bind at 1. rewrite (send_canSend _ ua Hsend). reflexivity.
Qed.

(** X29. A 200 that arrives as text during a call, with a CSeq header of
    an INVITE, a To header that is not repeated and, as its body, the
    session description that a peer running this code offers, connects
    the call: one ACK is sent, the call is active and keeps the body as
    remoteSdp, and its engine is started toward the address of the peer
    and the port read from the description, with the first payload type
    offered. *)
Theorem answer_text_starts_audio (ua peer : SipUA) (c : Call.t)
    (rtp : Rtp.RtpEngine) (reason cseq to sdp address : string)
    (ls : list (string * string)) (sessionId rtpPort port : Z) :
  canSend ua = true ->
  call ua = Some c -> Call.rtpEngine c = Some rtp ->
  isReason reason = true -> forallb headerOk ls = true ->
  headersOf ls !! "cseq" = Some (HStr cseq) ->
  nth 1 (split " " cseq) "" = "INVITE" ->
  headersOf ls !! "to" = Some (HStr to) ->
  allChars isUriChar (tplNull (localIp peer)) = true ->
  _buildSdp sessionId rtpPort peer = (Some sdp, peer, []) ->
  exists ack ua' c',
    _handleMessage
      (render {| startLine := "SIP/2.0 " +:+ "200" +:+ " " +:+ reason;
                 lines := ls; payload := sdp |}) address port ua
    = (Some tt, ua', [ack])
    /\ startsWith "ACK " (startLine ack) = true
    /\ call ua' = Some c'
    /\ Call.state c' = Active
    /\ Call.remoteSdp c' = Some sdp
    /\ Call.rtpEngine c'
       = Some (fst (Rtp.start rtp (Some (tplNull (localIp peer)))
                      (parseInt (pretty rtpPort))
                      (match number "0" with Some pt => pt | None => 0 end))).
Proof.
  intros Hsend Hcall Hrtp Hreason Hls Hcseq Hmethod Hto Hip Hsdp.
  destruct (own_sdp_is_read_back peer sessionId rtpPort Hip)
    as (text & Htext & Hparse).
  rewrite Htext in Hsdp. injection Hsdp as <-.
  unfold _handleMessage.
  rewrite (rendered_response_parses "200" reason ls text eq_refl Hreason Hls).
  unfold _handleResponse. cbn [headers]. rewrite Hcseq.
  assert (Hc : orElse (Some (HStr cseq)) (Some (HStr "")) = Some (HStr cseq)).
  { destruct cseq; reflexivity. }
  rewrite Hc, Hmethod.
  replace (String.eqb "INVITE" "REGISTER") with false by reflexivity.
  replace (String.eqb "INVITE" "INVITE") with true by reflexivity.
  unfold _handleInviteResponse. cbn [statusCode headers body].
  replace (Framer.parseDigits (bytesOf "200")) with 200
    by (vm_compute; reflexivity).
  rewrite Hto, Hparse.
  assert (Hne : String.eqb text "" = false).
  { apply buildSdp_lines_nonempty in Htext. exact Htext. }
  rewrite Hne.
  assert (Hor : orElse (Some (HStr to)) (Some (HStr ""))
                = Some (HStr (if String.eqb to "" then "" else to))).
  { unfold orElse, truthy. destruct (String.eqb to ""); reflexivity. }
  rewrite Hor.
  unfold canSend in Hsend.
  unfold matchCapture, modifyCall, _buildAck, generateBranch, randomBytesHex,
    _send, callToTag, startToward, firstPayloadType,
    bind, get, modify, ret, throw, transmit.
  destruct (Text.captureAfter ";tag=" isTagChar
              (if String.eqb to "" then "" else to)) as [tag|];
    destruct (transport (config ua)) eqn:Et;
    try (apply andb_prop in Hsend as [Hsend Hport];
         unfold Rtp.validPort in Hport);
    repeat (progress (cbn; rewrite ?Hcall, ?Hrtp, ?Hsend, ?Hport, ?Et));
    destruct (String.eqb (tplNull (localIp peer)) "");
    do 3 eexists; (split; [reflexivity|]); repeat split; reflexivity.
Qed.

End Dispatch.

(** *** Examples *)

(** [Number] on the text of a natural number. *)
Definition demoNumber (s : string) : option Z :=
  if allChars isDigit s then Some (Framer.parseDigits (bytesOf s)) else None.

Definition byeLines : list (string * string) :=
  [("Via", "SIP/2.0/UDP 198.51.100.1:5060;branch=z9hG4bKp");
   ("Via", "SIP/2.0/UDP 203.0.113.7:5060;branch=z9hG4bKq");
   ("From", "<sip:300@pbx>;tag=caller");
   ("To", "<sip:100@pbx>;tag=aaaaaaaaaaaaaaaa");
   ("Call-ID", "other-call");
   ("CSeq", "11 BYE");
   ("Content-Length", "0")].

Definition challengeLines : list (string * string) :=
  [("Via", "SIP/2.0/UDP 192.0.2.1:5060;branch=z9hG4bK0;rport");
   ("Call-ID", "bbbbbbbbbbbbbbbbbbbbbbbb");
   ("CSeq", "1 REGISTER");
   ("WWW-Authenticate", challengeOf "asterisk" "abc123");
   ("Content-Length", "0")].

Lemma rendered_request_parses_witness :
  parseSipMessage
    (render {| startLine := "BYE" +:+ " " +:+ "sip:100@192.0.2.1:5060"
                            +:+ " SIP/2.0";
               lines := byeLines; payload := CRLFCRLF +:+ "x" |})
  = Some (Request {| statusCode := 0; reasonPhrase := ""; method := "BYE";
                     uri := "sip:100@192.0.2.1:5060";
                     headers := headersOf byeLines;
                     body := CRLFCRLF +:+ "x" |}).
Proof.
  exact (rendered_request_parses "BYE" "sip:100@192.0.2.1:5060" byeLines
           (CRLFCRLF +:+ "x") eq_refl eq_refl eq_refl).
Defined.

(** The two Via lines of the request give an array, in their order. *)
Example repeated_header_is_array :
  headersOf byeLines !! "via"
  = Some (HArr ["SIP/2.0/UDP 198.51.100.1:5060;branch=z9hG4bKp";
                "SIP/2.0/UDP 203.0.113.7:5060;branch=z9hG4bKq"])
  /\ headersOf byeLines !! "call-id" = Some (HStr "other-call").
Proof. split; vm_compute; reflexivity. Qed.

Lemma rendered_response_parses_witness :
  parseSipMessage
    (render {| startLine := "SIP/2.0 " +:+ "401" +:+ " " +:+ "Unauthorized";
               lines := challengeLines; payload := "" |})
  = Some (Response {| statusCode := Framer.parseDigits (bytesOf "401");
                      reasonPhrase := "Unauthorized"; method := ""; uri := "";
                      headers := headersOf challengeLines; body := "" |}).
Proof.
  exact (rendered_response_parses "401" "Unauthorized" challengeLines ""
           eq_refl eq_refl eq_refl).
Defined.

(** A status line without a reason phrase and without the space before
    it is not read. *)
Example status_line_needs_space :
  parseSipMessage ("SIP/2.0 200" +:+ CRLFCRLF) = None
  /\ exists msg, parseSipMessage ("SIP/2.0 200 " +:+ CRLFCRLF)
                 = Some (Response msg) /\ statusCode msg = 200.
Proof. split; [reflexivity|]. eexists. split; reflexivity. Qed.

(** A BYE cut before the empty line. *)
Definition truncatedBye : string :=
  "BYE sip:100@192.0.2.1 SIP/2.0" +:+ CRLF +:+ "CSeq: 11 BYE" +:+ CRLF.

Lemma unframed_text_is_dropped_witness :
  _handleMessage demoRandom demoParseInt demoNumber MD5.md5hex
    CRLFCRLF "198.51.100.1" 5060 inCall = (Some tt, inCall, [])
  /\ _handleMessage demoRandom demoParseInt demoNumber MD5.md5hex
       truncatedBye "198.51.100.1" 5060 inCall = (Some tt, inCall, []).
Proof.
  split.
  - exact (unframed_text_is_dropped demoRandom demoParseInt demoNumber
             MD5.md5hex CRLFCRLF "198.51.100.1" 5060 inCall
             (or_intror eq_refl)).
  - exact (unframed_text_is_dropped demoRandom demoParseInt demoNumber
             MD5.md5hex truncatedBye "198.51.100.1" 5060 inCall
             (or_introl eq_refl)).
Defined.

Lemma own_sdp_is_read_back_witness :
  exists text,
    _buildSdp 1700000000 40000 inCall = (Some text, inCall, [])
    /\ parseSdp demoParseInt demoNumber text
       = {| connectionIp := Some "192.0.2.1";
            media := [ {| mediaIp := Some "192.0.2.1";
                          mediaPort := Some 40000;
                          payloadTypes := [Some 0; Some 8; Some 101] |} ] |}.
Proof.
  exact (own_sdp_is_read_back demoParseInt demoNumber inCall 1700000000 40000
           eq_refl).
Defined.

Lemma authorization_header_round_trip_witness :
  Digest.parseAuthHeader
    (buildAuthorizationHeader MD5.md5hex auth0 "REGISTER" "sip:pbx" "u" "p")
  = Some (<["algorithm" := "MD5"]>
         (<["response" :=
              computeDigestResponse MD5.md5hex auth0 "REGISTER" "sip:pbx"
                "u" "p"]>
         (<["uri" := "sip:pbx"]>
         (<["nonce" := prop auth0 "nonce"]>
         (<["realm" := prop auth0 "realm"]>
         (<["username" := "u"]>
         (<["scheme" := "Digest"]> ∅))))))).
Proof.
  apply (authorization_header_round_trip MD5.md5hex auth0 "REGISTER"
           "sip:pbx" "u" "p"); vm_compute; reflexivity.
Defined.

Lemma challenge_text_is_answered_witness :
  exists w ua',
    _handleMessage demoRandom demoParseInt demoNumber MD5.md5hex
      (render {| startLine := "SIP/2.0 " +:+ "401" +:+ " " +:+ "Unauthorized";
                 lines := challengeLines; payload := "" |})
      "198.51.100.1" 5060 inCall
    = (Some tt, ua', [w])
    /\ startLine w = "REGISTER " +:+ ("sip:" +:+ server (config inCall))
                     +:+ " SIP/2.0"
    /\ header "Authorization" w
       = Some ("Digest username=" +:+ quoted (extension (config inCall))
               +:+ ", realm=" +:+ quoted "asterisk"
               +:+ ", nonce=" +:+ quoted "abc123"
               +:+ ", uri=" +:+ quoted ("sip:" +:+ server (config inCall))
               +:+ ", response="
               +:+ quoted (MD5.md5hex
                     (MD5.md5hex (extension (config inCall) +:+ ":"
                                  +:+ "asterisk" +:+ ":"
                                  +:+ password (config inCall))
                      +:+ ":" +:+ "abc123" +:+ ":"
                      +:+ MD5.md5hex ("REGISTER" +:+ ":"
                            +:+ ("sip:" +:+ server (config inCall)))))
               +:+ ", algorithm=MD5")
    /\ header "CSeq" w = Some (pretty (registerCSeq inCall + 1) +:+ " REGISTER")
    /\ registerCSeq ua' = registerCSeq inCall + 1.
Proof.
  apply (challenge_text_is_answered demoRandom demoParseInt demoNumber
           MD5.md5hex inCall "Unauthorized" "asterisk" "abc123" "1 REGISTER"
           "" "198.51.100.1" challengeLines 5060); vm_compute; reflexivity.
Defined.

Lemma any_bye_ends_the_call_witness :
  _handleMessage demoRandom demoParseInt demoNumber MD5.md5hex
    (render {| startLine := "BYE" +:+ " " +:+ "sip:100@192.0.2.1:5060"
                            +:+ " SIP/2.0";
               lines := byeLines; payload := "" |})
    "198.51.100.1" 5060 inCall
  = (Some tt, set_call None inCall,
     [ {| startLine := "SIP/2.0 200 OK";
          lines := [("Via", tpl (headersOf byeLines !! "via"));
                    ("From", tpl (headersOf byeLines !! "from"));
                    ("To", tpl (headersOf byeLines !! "to"));
                    ("Call-ID", tpl (headersOf byeLines !! "call-id"));
                    ("CSeq", tpl (headersOf byeLines !! "cseq"));
                    ("Content-Length", "0")];
          payload := "" |} ]).
Proof.
  exact (any_bye_ends_the_call demoRandom demoParseInt demoNumber MD5.md5hex
           inCall "sip:100@192.0.2.1:5060" "" "198.51.100.1" byeLines 5060
           eq_refl eq_refl eq_refl).
Defined.

(** The call of [inCall] has the Call-ID of [call0]; the BYE above names
    another one. *)
Example bye_of_another_dialog :
  option_map Call.callId (call inCall) <> Some (headersOf byeLines !! "call-id")
  /\ tpl (headersOf byeLines !! "via")
     = "SIP/2.0/UDP 198.51.100.1:5060;branch=z9hG4bKp,"
       +:+ "SIP/2.0/UDP 203.0.113.7:5060;branch=z9hG4bKq".
Proof. split; [vm_compute; discriminate|vm_compute; reflexivity]. Qed.

(** An agent whose INVITE is not answered yet, and the answer of a peer. *)
Definition calling : SipUA :=
  set_call (Some (Call.set_state Calling call0)) inCall.

Definition answerLines : list (string * string) :=
  [("Via", "SIP/2.0/UDP 192.0.2.1:5060;branch=z9hG4bK1111111111111111");
   ("From", "<sip:100@pbx>;tag=eeeeeeeeeeeeeeee");
   ("To", "<sip:200@pbx>;tag=srv2");
   ("Call-ID", "dddddddddddddddddddddddd");
   ("CSeq", "2 INVITE");
   ("Content-Type", "application/sdp")].

Definition peerSdp : string :=
  joinLines (sdpLines 1700000000 40000 "192.0.2.1").

Lemma answer_text_starts_audio_witness :
  exists ack ua' c',
    _handleMessage demoRandom demoParseInt demoNumber MD5.md5hex
      (render {| startLine := "SIP/2.0 " +:+ "200" +:+ " " +:+ "OK";
                 lines := answerLines; payload := peerSdp |})
      "198.51.100.1" 5060 calling
    = (Some tt, ua', [ack])
    /\ startsWith "ACK " (startLine ack) = true
    /\ call ua' = Some c'
    /\ Call.state c' = Active
    /\ Call.remoteSdp c' = Some peerSdp
    /\ Call.rtpEngine c'
       = Some (fst (Rtp.start Rtp.engine0 (Some (tplNull (localIp inCall)))
                      (demoParseInt (pretty 40000))
                      (match demoNumber "0" with
                       | Some pt => pt
                       | None => 0
                       end))).
Proof.
  apply (answer_text_starts_audio demoRandom demoParseInt demoNumber
           MD5.md5hex calling inCall (Call.set_state Calling call0)
           Rtp.engine0 "OK" "2 INVITE" "<sip:200@pbx>;tag=srv2" peerSdp
           "198.51.100.1" answerLines 1700000000 40000 5060);
    vm_compute; reflexivity.
Defined.

(** Where the engine sends after this answer. *)
Example audio_goes_to_the_peer :
  let e := fst (Rtp.start Rtp.engine0 (Some (tplNull (localIp inCall)))
                  (demoParseInt (pretty 40000))
                  (match demoNumber "0" with Some pt => pt | None => 0 end)) in
  Rtp.remoteAddress e = Some "192.0.2.1" /\ Rtp.remotePort e = Some 40000
  /\ Rtp.payloadType e = 0 /\ Rtp.active e = true.
Proof. vm_compute. repeat split. Qed.

End Parser.
